(** * TrendRadar MCP server: a shallow embedding of the corpus parser, the
    cache, the date parser, the search tools and the analytics helpers.

    Conventions of the embedding.
    - A Python [str] is a Rocq [string].  Character classes ([str.isspace],
      [str.isdigit], the regular-expression classes) and [str.lower] are
      those of ASCII; the embedding is exact on ASCII text.  The
      non-ASCII literals of the source are kept as their UTF-8 bytes.
    - A Python [float] that holds a score, a ratio or a time is an exact
      rational ([Q]).
    - A [dict] whose iteration order is observable (the parsed title
      tables) is an insertion-ordered association list; the two
      dictionaries of the cache are finite maps.
    - A calendar day is its proleptic Gregorian ordinal, as returned by
      [date.toordinal]. *)

From Stdlib Require Import ZArith QArith Qround Lia Bool Ascii String List.
From Stdlib Require Import DecimalString.
From stdpp Require Import base option list strings gmap fin_maps.
Import ListNotations.

(* ===================================================================== *)
(** * Part I: the program                                                 *)
(* ===================================================================== *)

(** ** mcp_server/services/cache_service.py *)

Module CacheService.

(** What a method call produced: a returned value, or a [KeyError]
    raised by a subscript or a [del] on a missing key. *)
Inductive outcome (A : Type) : Type :=
| Return (a : A)
| RaiseKeyError (k : string).
Arguments Return {A} a.
Arguments RaiseKeyError {A} k.

(** [x < y] and [x >= y] on clock readings. *)
Definition Qltb (x y : Q) : bool := negb (Qle_bool y x).
Definition Qgeb (x y : Q) : bool := Qle_bool y x.

Section WithValue.
Context {V : Type}.

(** The two dictionaries of a [CacheService] instance. *)
Record t : Type := Build {
  _cache : gmap string V;
  _timestamps : gmap string Q
}.

(** [__init__] *)
Definition init : t := {| _cache := ∅; _timestamps := ∅ |}.

(** [get(key, ttl)], called when [time.time()] is [now]. *)
Definition get (key : string) (ttl : Q) (now : Q) (s : t)
  : t * outcome (option V) :=
  match _cache s !! key with
  | Some v =>
      match _timestamps s !! key with
      | None => (s, RaiseKeyError key)
      | Some stored =>
          if Qltb (now - stored) ttl
          then (s, Return (Some v))
          else
            let s1 := {| _cache := delete key (_cache s);
                         _timestamps := _timestamps s |} in
            (* [del self._timestamps[key]]: the key is there *)
            ({| _cache := _cache s1;
                _timestamps := delete key (_timestamps s1) |},
             Return None)
      end
  | None => (s, Return None)
  end.

(** [set(key, value)], called when [time.time()] is [now]. *)
Definition set (key : string) (value : V) (now : Q) (s : t)
  : t * outcome unit :=
  let s1 := {| _cache := <[key := value]> (_cache s);
               _timestamps := _timestamps s |} in
  ({| _cache := _cache s1;
      _timestamps := <[key := now]> (_timestamps s1) |}, Return tt).

(** [del d[key]] on each of the two dictionaries. *)
Definition del_cache (key : string) (s : t) : t * outcome unit :=
  match _cache s !! key with
  | Some _ => ({| _cache := delete key (_cache s);
                  _timestamps := _timestamps s |}, Return tt)
  | None => (s, RaiseKeyError key)
  end.

Definition del_timestamps (key : string) (s : t) : t * outcome unit :=
  match _timestamps s !! key with
  | Some _ => ({| _cache := _cache s;
                  _timestamps := delete key (_timestamps s) |}, Return tt)
  | None => (s, RaiseKeyError key)
  end.

(** [delete(key)] *)
Definition delete (key : string) (s : t) : t * outcome bool :=
  match _cache s !! key with
  | Some _ =>
      match del_cache key s with
      | (s1, Return _) =>
          match del_timestamps key s1 with
          | (s2, Return _) => (s2, Return true)
          | (s2, RaiseKeyError k) => (s2, RaiseKeyError k)
          end
      | (s1, RaiseKeyError k) => (s1, RaiseKeyError k)
      end
  | None => (s, Return false)
  end.

(** [clear()] *)
Definition clear (s : t) : t * outcome unit :=
  ({| _cache := ∅; _timestamps := ∅ |}, Return tt).

(** The comprehension of [cleanup_expired]: the keys of
    [_timestamps] whose age is at least [ttl]. *)
Definition expired_keys (ttl now : Q) (s : t) : list string :=
  (List.filter (fun kt => Qgeb (now - kt.2) ttl)
               (map_to_list (_timestamps s))).*1.

(** The [for key in expired_keys] loop. *)
Fixpoint delete_keys (keys : list string) (s : t) : t * outcome unit :=
  match keys with
  | [] => (s, Return tt)
  | key :: rest =>
      match del_cache key s with
      | (s1, Return _) =>
          match del_timestamps key s1 with
          | (s2, Return _) => delete_keys rest s2
          | (s2, RaiseKeyError k) => (s2, RaiseKeyError k)
          end
      | (s1, RaiseKeyError k) => (s1, RaiseKeyError k)
      end
  end.

(** [cleanup_expired(ttl)], called when [time.time()] is [now]. *)
Definition cleanup_expired (ttl now : Q) (s : t) : t * outcome nat :=
  let keys := expired_keys ttl now s in
  match delete_keys keys s with
  | (s1, Return _) => (s1, Return (length keys))
  | (s1, RaiseKeyError k) => (s1, RaiseKeyError k)
  end.

(** One call on the shared instance, with the clock reading at the
    time of the call. *)
Inductive call : Type :=
| CallGet (key : string) (ttl : Q)
| CallSet (key : string) (value : V)
| CallDelete (key : string)
| CallClear
| CallCleanupExpired (ttl : Q).

Definition raised {A} (o : outcome A) : bool :=
  match o with Return _ => false | RaiseKeyError _ => true end.

(** The state after a call, and whether the call raised. *)
Definition step (c : call) (now : Q) (s : t) : t * bool :=
  match c with
  | CallGet key ttl => let r := get key ttl now s in (r.1, raised r.2)
  | CallSet key value => let r := set key value now s in (r.1, raised r.2)
  | CallDelete key => let r := delete key s in (r.1, raised r.2)
  | CallClear => let r := clear s in (r.1, raised r.2)
  | CallCleanupExpired ttl =>
      let r := cleanup_expired ttl now s in (r.1, raised r.2)
  end.

(** A history of calls on a fresh instance: the final state and
    whether any call raised. *)
Fixpoint run (calls : list (call * Q)) (s : t) : t * bool :=
  match calls with
  | [] => (s, false)
  | (c, now) :: rest =>
      let r := step c now s in
      let r' := run rest r.1 in
      (r'.1, r.2 || r'.2)
  end.

(** The two dictionaries have the same keys. *)
Definition same_keys (s : t) : Prop :=
  dom (_cache s) = dom (_timestamps s).

End WithValue.
Arguments t V : clear implicits.
Arguments call V : clear implicits.

End CacheService.


(** ** Exceptions and failures (utils/errors.py is not part of the
    sources at hand; only the class names are used) *)

(** What the modelled functions raise.  The first three are subclasses
    of [MCPError]. *)
Inductive exn : Type :=
| FileParseError
| DataNotFoundError (message : string)
| InvalidParameterError (message : string)
| KeyError (key : string).

Definition is_mcp_error (e : exn) : bool :=
  match e with KeyError _ => false | _ => true end.

(** The [{"success": False, "error": ...}] results of the tools. *)
Inductive failure : Type :=
| McpFailure (e : exn)
| INTERNAL_ERROR
| NO_DATA_AVAILABLE.

(** [except MCPError ... except Exception ...] *)
Definition to_failure (e : exn) : failure :=
  if is_mcp_error e then McpFailure e else INTERNAL_ERROR.

(** ** Python strings *)

Module Str.
Local Open Scope string_scope.

Definition nl : string := String "010"%char "".

(** [str.isspace] of one character: tab, line feed, vertical tab, form
    feed, carriage return, the four separators 28 to 31 and the space. *)
Definition is_space (c : ascii) : bool :=
  let n := nat_of_ascii c in
  (((9 <=? n) && (n <=? 13)) || ((28 <=? n) && (n <=? 32)))%nat.

(** [str.isdigit] of one character, and the class [\d]. *)
Definition is_digit (c : ascii) : bool :=
  let n := nat_of_ascii c in ((48 <=? n) && (n <=? 57))%nat.

(** The class [\w]: letters, digits and the underscore. *)
Definition is_word (c : ascii) : bool :=
  let n := nat_of_ascii c in
  (((48 <=? n) && (n <=? 57)) || ((65 <=? n) && (n <=? 90)) ||
   ((97 <=? n) && (n <=? 122)) || (n =? 95))%nat.

Definition lower_char (c : ascii) : ascii :=
  let n := nat_of_ascii c in
  if ((65 <=? n) && (n <=? 90))%nat then ascii_of_nat (n + 32) else c.

(** [s.lower()] *)
Fixpoint lower (s : string) : string :=
  match s with
  | "" => ""
  | String c s' => String (lower_char c) (lower s')
  end.

(** [s.startswith(p)] *)
Fixpoint startswith (p s : string) : bool :=
  match p, s with
  | "", _ => true
  | String a p', String b s' => Ascii.eqb a b && startswith p' s'
  | String _ _, "" => false
  end.

(** [s[n:]] *)
Fixpoint drop (n : nat) (s : string) : string :=
  match n, s with
  | O, _ => s
  | S n', String _ s' => drop n' s'
  | S _, "" => ""
  end.

(** [sub in s] *)
Fixpoint contains (sub s : string) : bool :=
  startswith sub s ||
  match s with
  | "" => false
  | String _ s' => contains sub s'
  end.

(** [s.lstrip()], [s.rstrip()] and [s.strip()] *)
Fixpoint lstrip (s : string) : string :=
  match s with
  | "" => ""
  | String c s' => if is_space c then lstrip s' else s
  end.

Fixpoint rstrip (s : string) : string :=
  match s with
  | "" => ""
  | String c s' =>
      match rstrip s' with
      | "" => if is_space c then "" else String c ""
      | r => String c r
      end
  end.

Definition strip (s : string) : string := rstrip (lstrip s).

(** [s.split(sep)] for a non-empty [sep]: [skip] counts the characters
    of a separator still to pass over, [cur] is the piece being read. *)
Fixpoint split_from (sep s : string) (skip : nat) (cur : string)
  : list string :=
  match s with
  | "" => [cur]
  | String c s' =>
      match skip with
      | S k => split_from sep s' k cur
      | O =>
          if startswith sep s
          then cur :: split_from sep s' (String.length sep - 1) ""
          else split_from sep s' 0 (cur +:+ String c "")
      end
  end.

Definition split (sep s : string) : list string := split_from sep s 0 "".

(** [s.split(sep, 1)] as the pair around the first [sep], when there
    is one. *)
Fixpoint split1 (sep s : string) : option (string * string) :=
  match s with
  | "" => None
  | String c s' =>
      if startswith sep s then Some ("", drop (String.length sep) s)
      else match split1 sep s' with
           | Some (a, b) => Some (String c a, b)
           | None => None
           end
  end.

(** [s.rsplit(sep, 1)] as the pair around the last [sep], when there
    is one. *)
Fixpoint rsplit1 (sep s : string) : option (string * string) :=
  match s with
  | "" => None
  | String c s' =>
      match rsplit1 sep s' with
      | Some (a, b) => Some (String c a, b)
      | None =>
          if startswith sep s then Some ("", drop (String.length sep) s)
          else None
      end
  end.

(** [s.endswith("]")] and [s[:-1]] *)
Fixpoint ends_with_char (c : ascii) (s : string) : bool :=
  match s with
  | "" => false
  | String a "" => Ascii.eqb a c
  | String _ s' => ends_with_char c s'
  end.

Fixpoint drop_last (s : string) : string :=
  match s with
  | "" => ""
  | String _ "" => ""
  | String a s' => String a (drop_last s')
  end.

(** [s.isdigit()]: at least one character, and all of them digits. *)
Fixpoint all_digits (s : string) : bool :=
  match s with
  | "" => true
  | String c s' => is_digit c && all_digits s'
  end.

Definition isdigit (s : string) : bool :=
  match s with "" => false | _ => all_digits s end.

(** [int(s)] for a string of digits. *)
Fixpoint int_from (acc : Z) (s : string) : Z :=
  match s with
  | "" => acc
  | String c s' => int_from (10 * acc + (Z.of_nat (nat_of_ascii c) - 48)) s'
  end.

Definition int (s : string) : Z := int_from 0 s.

(** [re.sub(r'\s+', ' ', s)]: [in_run] tells that the previous
    character was white space, already replaced. *)
Fixpoint collapse_spaces (in_run : bool) (s : string) : string :=
  match s with
  | "" => ""
  | String c s' =>
      if is_space c
      then if in_run then collapse_spaces true s'
           else String " "%char (collapse_spaces true s')
      else String c (collapse_spaces false s')
  end.

End Str.

(** ** Insertion-ordered dictionaries with string keys *)

Module ODict.
Section WithValue.
Context {V : Type}.

Definition t : Type := list (string * V).

(** [d.get(k)] *)
Fixpoint get (k : string) (d : t) : option V :=
  match d with
  | [] => None
  | (k', v) :: d' => if String.eqb k k' then Some v else get k d'
  end.

(** [k in d] *)
Definition mem (k : string) (d : t) : bool :=
  match get k d with Some _ => true | None => false end.

(** [d[k] = v]: a present key keeps its position, a new key goes
    last. *)
Fixpoint set (k : string) (v : V) (d : t) : t :=
  match d with
  | [] => [(k, v)]
  | (k', v') :: d' =>
      if String.eqb k k' then (k, v) :: d' else (k', v') :: set k v d'
  end.

(** [list(d.keys())] *)
Definition keys (d : t) : list string := map fst d.

(** [d.update(other)] *)
Definition update (d other : t) : t :=
  fold_left (fun acc kv => set kv.1 kv.2 acc) other d.

End WithValue.
Arguments t V : clear implicits.
End ODict.

(** ** Calendar days, as the [datetime] module counts them *)

Module Calendar.
Local Open Scope Z_scope.

Definition is_leap (year : Z) : bool :=
  (year mod 4 =? 0) && (negb (year mod 100 =? 0) || (year mod 400 =? 0)).

Definition days_before_year (year : Z) : Z :=
  let y := year - 1 in y * 365 + y / 4 - y / 100 + y / 400.

Definition days_in_month (year month : Z) : Z :=
  if (month =? 2) && is_leap year then 29
  else nth (Z.to_nat month) [0; 31; 28; 31; 30; 31; 30; 31; 31; 30; 31; 30; 31] 0.

Definition days_before_month_table : list Z :=
  [0; 0; 31; 59; 90; 120; 151; 181; 212; 243; 273; 304; 334].

Definition days_before_month (year month : Z) : Z :=
  nth (Z.to_nat month) days_before_month_table 0
  + (if (2 <? month) && is_leap year then 1 else 0).

(** [datetime(year, month, day)]: the ordinal of the day, or [None]
    for the [ValueError] of an impossible date. *)
Definition ymd2ord (year month day : Z) : option Z :=
  if (1 <=? year) && (year <=? 9999) && (1 <=? month) && (month <=? 12)
     && (1 <=? day) && (day <=? days_in_month year month)
  then Some (days_before_year year + days_before_month year month + day)
  else None.

(** [date.fromordinal(n)], as [(year, month, day)]. *)
Definition ord2ymd (ordinal : Z) : Z * Z * Z :=
  let n := ordinal - 1 in
  let n400 := n / 146097 in
  let n := n mod 146097 in
  let year := n400 * 400 + 1 in
  let n100 := n / 36524 in
  let n := n mod 36524 in
  let n4 := n / 1461 in
  let n := n mod 1461 in
  let n1 := n / 365 in
  let n := n mod 365 in
  let year := year + n100 * 100 + n4 * 4 + n1 in
  if (n1 =? 4) || (n100 =? 4) then (year - 1, 12, 31)
  else
    let leapyear := (n1 =? 3) && (negb (n4 =? 24) || (n100 =? 3)) in
    let month := Z.shiftr (n + 50) 5 in
    let preceding :=
      nth (Z.to_nat month) days_before_month_table 0
      + (if (2 <? month) && leapyear then 1 else 0) in
    if n <? preceding
    then
      let month := month - 1 in
      let preceding :=
        preceding
        - (nth (Z.to_nat month) [0; 31; 28; 31; 30; 31; 30; 31; 31; 30; 31; 30; 31] 0
           + (if (month =? 2) && leapyear then 1 else 0)) in
      (year, month, n - preceding + 1)
    else (year, month, n - preceding + 1).

Definition year_of (ordinal : Z) : Z := (ord2ymd ordinal).1.1.
Definition month_of (ordinal : Z) : Z := (ord2ymd ordinal).1.2.
Definition day_of (ordinal : Z) : Z := (ord2ymd ordinal).2.

(** [d.weekday()]: Monday is 0 and Sunday is 6. *)
Definition weekday (ordinal : Z) : Z := (ordinal + 6) mod 7.

(** Decimal digits of a number, padded with zeros to [width]. *)
Definition decimal (n : Z) : string :=
  NilZero.string_of_uint (N.to_uint (Z.to_N n)).

Fixpoint zeros (k : nat) : string :=
  match k with O => ""%string | S k' => String "0"%char (zeros k') end.

Definition padded (width : nat) (n : Z) : string :=
  (zeros (width - String.length (decimal n)) +:+ decimal n)%string.

(** [d.strftime("%Y-%m-%d")] *)
Definition iso_format (ordinal : Z) : string :=
  let '(y, m, d) := ord2ymd ordinal in
  (padded 4 y +:+ "-" +:+ padded 2 m +:+ "-" +:+ padded 2 d)%string.

(** [d.strftime("%Y年%m月%d日")] *)
Definition folder_format (ordinal : Z) : string :=
  let '(y, m, d) := ord2ymd ordinal in
  (padded 4 y +:+ "年" +:+ padded 2 m +:+ "月" +:+ padded 2 d +:+ "日")%string.

End Calendar.

(** ** mcp_server/services/parser_service.py *)

Module ParserService.
Import Str.
Local Open Scope string_scope.

(** The value stored for a title: [{"ranks", "url", "mobileUrl"}]. *)
Record TitleInfo : Type := {
  ranks : list Z;
  url : string;
  mobileUrl : string
}.

(** [clean_title] *)
Definition clean_title (title : string) : string :=
  strip (collapse_spaces false title).

(** The marker of the section that lists the ids whose request
    failed. *)
Definition failed_ids_marker : string := "==== 以下ID请求failed ====".

(** The rank prefix of a title line: [(rank, title_part)]. *)
Definition take_rank (title_part : string) : option Z * string :=
  if contains ". " title_part && isdigit (hd "" (split ". " title_part))
  then match split1 ". " title_part with
       | Some (rank_str, rest) => (Some (int rank_str), rest)
       | None => (None, title_part)
       end
  else (None, title_part).

(** The trailing tag [" [MOBILE:...]"] or [" [URL:...]"]:
    [(title_part, tag value)]. *)
Definition take_tag (tag title_part : string) : string * string :=
  if contains tag title_part
  then match rsplit1 tag title_part with
       | Some (rest, tag_part) =>
           (rest, if ends_with_char "]" tag_part then drop_last tag_part
                  else "")
       | None => (title_part, "")
       end
  else (title_part, "").

(** The body of the [try] of one title line. *)
Definition parse_title_line (line : string) : string * TitleInfo :=
  let title_part := strip line in
  let '(rank, title_part) := take_rank title_part in
  let '(title_part, mobile_url) := take_tag " [MOBILE:" title_part in
  let '(title_part, url) := take_tag " [URL:" title_part in
  let title := clean_title (strip title_part) in
  let ranks := match rank with Some r => [r] | None => [1%Z] end in
  (title, {| ranks := ranks; url := url; mobileUrl := mobile_url |}).

(** The header of a section: [(source_id, name)]. *)
Definition parse_header (header_line : string) : string * string :=
  if contains " | " header_line
  then match split1 " | " header_line with
       | Some (a, b) => (strip a, strip b)
       | None => (header_line, header_line)
       end
  else (header_line, header_line).

(** The title lines of a section, one entry per non-blank line, in the
    order of the file. *)
Definition section_entries (lines : list string)
  : list (string * TitleInfo) :=
  map parse_title_line
      (List.filter (fun line => negb (String.eqb (strip line) "")) lines).

(** A section that is read: its platform id, its display name and its
    title lines.  [None] for a section that the loop skips. *)
Definition read_section (section : string)
  : option (string * string * list (string * TitleInfo)) :=
  if String.eqb (strip section) "" || contains failed_ids_marker section
  then None
  else
    let lines := split nl (strip section) in
    if (length lines <? 2)%nat then None
    else
      let '(source_id, name) := parse_header (strip (hd "" lines)) in
      Some (source_id, name, section_entries (tl lines)).

Definition titles_table : Type := ODict.t (ODict.t TitleInfo).

(** One iteration of [for section in sections]. *)
Definition parse_section
    (acc : titles_table * ODict.t string) (section : string)
  : titles_table * ODict.t string :=
  let '(titles_by_id, id_to_name) := acc in
  match read_section section with
  | None => acc
  | Some (source_id, name, entries) =>
      let id_to_name := ODict.set source_id name id_to_name in
      (* [titles_by_id[source_id] = {}], then one assignment
         [titles_by_id[source_id][title] = {...}] per title line *)
      let titles :=
        fold_left (fun d e => ODict.set e.1 e.2 d) entries [] in
      (ODict.set source_id titles titles_by_id, id_to_name)
  end.

(** A snapshot file: its name, its decoded text ([None] when the file
    is missing or is not UTF-8) and its modification time. *)
Record file : Type := {
  name : string;
  content : option string;
  st_mtime : Q
}.

(** [parse_txt_file] *)
Definition parse_txt_file (f : file)
  : titles_table * ODict.t string + exn :=
  match content f with
  | None => inr FileParseError
  | Some text => inl (fold_left parse_section (split (nl +:+ nl) text) ([], []))
  end.

(** The tuple [(all_titles, id_to_name, all_timestamps)]. *)
Record day_index : Type := {
  all_titles : titles_table;
  id_to_name : ODict.t string;
  all_timestamps : ODict.t Q
}.

(** [platform_ids and platform_id not in platform_ids] *)
Definition filtered_out (platform_ids : option (list string))
    (platform_id : string) : bool :=
  match platform_ids with
  | None | Some [] => false
  | Some ids => negb (existsb (String.eqb platform_id) ids)
  end.

(** The loop [for title, info in titles.items()]. *)
Definition merge_titles (into : ODict.t TitleInfo)
    (titles : ODict.t TitleInfo) : ODict.t TitleInfo :=
  fold_left
    (fun d e =>
       match ODict.get e.1 d with
       | Some old =>
           (* [d[title]["ranks"].extend(info["ranks"])] *)
           ODict.set e.1 {| ranks := ranks old ++ ranks e.2;
                            url := url old;
                            mobileUrl := mobileUrl old |} d
       | None => ODict.set e.1 e.2 d
       end)
    titles into.

(** The loop [for platform_id, titles in titles_by_id.items()]. *)
Definition merge_platforms (platform_ids : option (list string))
    (into : titles_table) (titles_by_id : titles_table) : titles_table :=
  fold_left
    (fun acc e =>
       if filtered_out platform_ids e.1 then acc
       else
         let acc :=
           if ODict.mem e.1 acc then acc else ODict.set e.1 [] acc in
         ODict.set e.1 (merge_titles (default [] (ODict.get e.1 acc)) e.2)
                   acc)
    titles_by_id into.

(** One iteration of [for txt_file in txt_files]; a file that does not
    parse is skipped. *)
Definition merge_file (platform_ids : option (list string))
    (acc : day_index) (f : file) : day_index :=
  match parse_txt_file f with
  | inr _ => acc
  | inl (titles_by_id, file_id_to_name) =>
      {| id_to_name := ODict.update (id_to_name acc) file_id_to_name;
         all_titles :=
           merge_platforms platform_ids (all_titles acc) titles_by_id;
         all_timestamps :=
           ODict.set (name f) (st_mtime f) (all_timestamps acc) |}
  end.

(** [sorted(...)] on file paths of one directory: insertion sort on
    the names. *)
Fixpoint insert_sorted (f : file) (fs : list file) : list file :=
  match fs with
  | [] => [f]
  | g :: fs' =>
      if String.ltb (name f) (name g) then f :: fs
      else g :: insert_sorted f fs'
  end.

Definition sorted (fs : list file) : list file :=
  fold_left (fun acc f => insert_sorted f acc) fs [].

Definition empty_index : day_index :=
  {| all_titles := []; id_to_name := []; all_timestamps := [] |}.

(** The whole loop over the sorted files of a day. *)
Definition merge_files (platform_ids : option (list string))
    (txt_files : list file) : day_index :=
  fold_left (merge_file platform_ids) (sorted txt_files) empty_index.

(** [sorted(platform_ids)] and [','.join(...)] *)
Fixpoint insert_string (x : string) (l : list string) : list string :=
  match l with
  | [] => [x]
  | y :: l' => if String.ltb x y then x :: l else y :: insert_string x l'
  end.

Definition sorted_strings (l : list string) : list string :=
  fold_left (fun acc x => insert_string x acc) l [].

Fixpoint join (sep : string) (l : list string) : string :=
  match l with
  | [] => ""
  | [x] => x
  | x :: l' => x +:+ sep +:+ join sep l'
  end.

(** [get_date_folder_name(date)], when [datetime.now()] falls on the
    day [today]. *)
Definition get_date_folder_name (today : Z) (date : option Z) : string :=
  Calendar.folder_format (default today date).

Definition cache_key (today : Z) (date : option Z)
    (platform_ids : option (list string)) : string :=
  let platform_key :=
    match platform_ids with
    | None | Some [] => "all"
    | Some ids => join "," (sorted_strings ids)
    end in
  "read_all_titles:" +:+ get_date_folder_name today date +:+ ":"
    +:+ platform_key.

(** [read_all_titles_for_date(date, platform_ids)].  [output] lists,
    for a date folder name, the [*.txt] files of its [txt] directory
    ([None] when the directory does not exist); [today] is the day of
    the call, [now] and [later] the clock readings of the cache lookup
    and of the cache store. *)
Definition read_all_titles_for_date
    (output : string -> option (list file)) (today : Z) (now later : Q)
    (date : option Z) (platform_ids : option (list string))
    (cache : CacheService.t day_index)
  : CacheService.t day_index * (day_index + exn) :=
  let key := cache_key today date platform_ids in
  let is_today :=
    match date with None => true | Some d => (d =? today)%Z end in
  let ttl := if is_today then 900%Q else 3600%Q in
  match CacheService.get key ttl now cache with
  | (cache, CacheService.RaiseKeyError k) => (cache, inr (KeyError k))
  | (cache, CacheService.Return (Some cached)) => (cache, inl cached)
  | (cache, CacheService.Return None) =>
      let date_folder := get_date_folder_name today date in
      match output date_folder with
      | None => (cache, inr (DataNotFoundError "no data directory"))
      | Some [] => (cache, inr (DataNotFoundError "no data file"))
      | Some txt_files =>
          let result := merge_files platform_ids txt_files in
          match all_titles result with
          | [] => (cache, inr (DataNotFoundError "no valid data"))
          | _ => ((CacheService.set key result later cache).1, inl result)
          end
      end
  end.

(** Reading the tables: the rank list held for a title, empty when the
    platform or the title is not there. *)
Definition ranks_in (titles : ODict.t TitleInfo) (title : string) : list Z :=
  match ODict.get title titles with
  | Some info => ranks info
  | None => []
  end.

Definition ranks_of (table : titles_table) (platform_id title : string)
  : list Z :=
  ranks_in (default [] (ODict.get platform_id table)) title.

(** What [parse_txt_file] holds for a title of a platform. *)
Definition file_ranks (f : file) (platform_id title : string) : list Z :=
  match parse_txt_file f with
  | inl (titles_by_id, _) => ranks_of titles_by_id platform_id title
  | inr _ => []
  end.

(** The ranks of all the title lines of a file that belong to a
    platform and carry a title, in the order of the lines. *)
Definition occurrence_ranks (f : file) (platform_id title : string)
  : list Z :=
  match content f with
  | None => []
  | Some text =>
      flat_map
        (fun section =>
           match read_section section with
           | Some (source_id, _, entries) =>
               if String.eqb source_id platform_id
               then flat_map
                      (fun e => if String.eqb e.1 title then ranks e.2
                                else [])
                      entries
               else []
           | None => []
           end)
        (split (nl +:+ nl) text)
  end.

(** What holds of every table that [parse_txt_file] builds: keys are
    not repeated and every title holds exactly one rank. *)
Definition titles_wf (titles : ODict.t TitleInfo) : Prop :=
  List.NoDup (ODict.keys titles) /\
  List.Forall (fun e => length (ranks e.2) = 1%nat) titles.

Definition table_wf (table : titles_table) : Prop :=
  List.NoDup (ODict.keys table) /\
  List.Forall (fun e => titles_wf e.2) table.

(** The last element of a list that passes a test. *)
Definition find_last {A} (test : A -> bool) (l : list A) : option A :=
List.find test (rev l).

(** The sections of a file that the parser reads, in the order of the
    file. *)
Definition read_sections (f : file)
: list (string * string * list (string * TitleInfo)) :=
match content f with
| None => []
| Some text =>
    flat_map
      (fun section =>
         match read_section section with
         | Some r => [r]
         | None => []
         end)
      (split (nl +:+ nl) text)
end.

(** The rank of the last line that carries a title, in the last section
    of a platform in a file. *)
Definition last_line_ranks (f : file) (platform_id title : string)
: list Z :=
match find_last (fun s => String.eqb s.1.1 platform_id) (read_sections f) with
| Some (_, _, entries) =>
    match find_last (fun e => String.eqb e.1 title) entries with
    | Some e => ranks e.2
    | None => []
    end
| None => []
end.

End ParserService.

(** ** mcp_server/utils/date_parser.py *)

Module DateParser.
Import Str.
Local Open Scope string_scope.

Inductive error : Type :=
| EmptyQuery
| TooManyDays (days : Z)
| InvalidDate
| UnrecognizedFormat.

Definition CN_DATE_MAPPING : list (string * Z) :=
  [("today", 0%Z); ("yesterday", 1%Z);
   ("the day before yesterday", 2%Z); ("three days ago", 3%Z)].

Definition EN_DATE_MAPPING : list (string * Z) :=
  [("today", 0%Z); ("yesterday", 1%Z)].

Definition WEEKDAY_CN : list (string * Z) :=
  [("一", 0%Z); ("二", 1%Z); ("三", 2%Z); ("四", 3%Z);
   ("五", 4%Z); ("六", 5%Z); ("日", 6%Z); ("天", 6%Z)].

Definition WEEKDAY_EN : list (string * Z) :=
  [("monday", 0%Z); ("tuesday", 1%Z); ("wednesday", 2%Z);
   ("thursday", 3%Z); ("friday", 4%Z); ("saturday", 5%Z);
   ("sunday", 6%Z)].

(** *** The regular expressions, each as a matcher anchored at the
    start of the string (they are used with [re.match]).  Every
    quantified item is followed by a character it cannot match, so the
    greedy reading below is the only way for the expression to
    match. *)

(** [prefix] then the rest, when [s] starts with [prefix]. *)
Definition after (prefix s : string) : option string :=
  if startswith prefix s then Some (drop (String.length prefix) s)
  else None.

(** [(\d+)]-style run: the longest run of at most [limit] digits at
    the start, and the rest. *)
Fixpoint digits_upto (limit : nat) (s : string) : string * string :=
  match limit, s with
  | S k, String c s' =>
      if is_digit c
      then let '(ds, rest) := digits_upto k s' in (String c ds, rest)
      else ("", s)
  | _, _ => ("", s)
  end.

(** [(\d+)] *)
Definition digits1 (s : string) : option (string * string) :=
  match digits_upto (String.length s) s with
  | ("", _) => None
  | r => Some r
  end.

(** [(\d{1,2})] *)
Definition digits12 (s : string) : option (string * string) :=
  match digits_upto 2 s with
  | ("", _) => None
  | r => Some r
  end.

(** [(\d{4})] *)
Definition digits4 (s : string) : option (string * string) :=
  match digits_upto 4 s with
  | (ds, rest) => if (String.length ds =? 4)%nat then Some (ds, rest)
                  else None
  end.

(** [\s*] and [\s+] *)
Definition spaces0 (s : string) : string := lstrip s.

Definition spaces1 (s : string) : option string :=
  match s with
  | String c s' => if is_space c then Some (lstrip s') else None
  | "" => None
  end.

(** The first entry of a table whose key starts the string: the
    alternation [(k1|k2|...)], with the value and the rest. *)
Fixpoint first_key {A} (table : list (string * A)) (s : string)
  : option (A * string) :=
  match table with
  | [] => None
  | (k, v) :: table' =>
      match after k s with
      | Some rest => Some (v, rest)
      | None => first_key table' s
      end
  end.

(** [(\d+)\s*天前] *)
Definition cn_days_ago_match (s : string) : option Z :=
  match digits1 s with
  | Some (ds, rest) =>
      match after "天前" (spaces0 rest) with
      | Some _ => Some (int ds)
      | None => None
      end
  | None => None
  end.

(** [(\d+)\s*days?\s+ago] *)
Definition en_days_ago_match (s : string) : option Z :=
  match digits1 s with
  | Some (ds, rest) =>
      match after "day" (spaces0 rest) with
      | Some rest =>
          let rest := match after "s" rest with
                      | Some r => r
                      | None => rest
                      end in
          match spaces1 rest with
          | Some rest =>
              match after "ago" rest with
              | Some _ => Some (int ds)
              | None => None
              end
          | None => None
          end
      | None => None
      end
  | None => None
  end.

(** [(上|本)周([一二三四五六日天])]: whether the first group is [上],
    and the weekday. *)
Definition cn_weekday_match (s : string) : option (bool * Z) :=
  match first_key [("上", true); ("本", false)] s with
  | Some (is_last, rest) =>
      match after "周" rest with
      | Some rest =>
          match first_key WEEKDAY_CN rest with
          | Some (target, _) => Some (is_last, target)
          | None => None
          end
      | None => None
      end
  | None => None
  end.

(** [(last|this)\s+(monday|...|sunday)] *)
Definition en_weekday_match (s : string) : option (bool * Z) :=
  match first_key [("last", true); ("this", false)] s with
  | Some (is_last, rest) =>
      match spaces1 rest with
      | Some rest =>
          match first_key WEEKDAY_EN rest with
          | Some (target, _) => Some (is_last, target)
          | None => None
          end
      | None => None
      end
  | None => None
  end.

(** [(\d{1,2})<sep1>(\d{1,2})<sep2>], with an empty [sep2] for the
    formats that end on the day. *)
Definition month_day_match (sep1 sep2 s : string) : option (Z * Z) :=
  match digits12 s with
  | Some (m, rest) =>
      match after sep1 rest with
      | Some rest =>
          match digits12 rest with
          | Some (d, rest) =>
              match after sep2 rest with
              | Some _ => Some (int m, int d)
              | None => None
              end
          | None => None
          end
      | None => None
      end
  | None => None
  end.

(** [(\d{4})-(\d{1,2})-(\d{1,2})] *)
Definition iso_date_match (s : string) : option (Z * Z * Z) :=
  match digits4 s with
  | Some (y, rest) =>
      match after "-" rest with
      | Some rest =>
          match month_day_match "-" "" rest with
          | Some (m, d) => Some (int y, m, d)
          | None => None
          end
      | None => None
      end
  | None => None
  end.

(** [(?:(\d{4})<ysep>)?(\d{1,2})<sep1>(\d{1,2})<sep2>]: the year group
    is tried first and given up when the rest does not follow. *)
Definition optional_year_match (ysep sep1 sep2 s : string)
  : option (option Z * Z * Z) :=
  let with_year :=
    match digits4 s with
    | Some (y, rest) =>
        match after ysep rest with
        | Some rest =>
            match month_day_match sep1 sep2 rest with
            | Some (m, d) => Some (Some (int y), m, d)
            | None => None
            end
        | None => None
        end
    | None => None
    end in
  match with_year with
  | Some r => Some r
  | None =>
      match month_day_match sep1 sep2 s with
      | Some (m, d) => Some (None, m, d)
      | None => None
      end
  end.

(** [_get_date_by_weekday], when [datetime.now()] falls on [today]. *)
Definition _get_date_by_weekday (today : Z) (target_weekday : Z)
    (is_last_week : bool) : Z :=
  let current_weekday := Calendar.weekday today in
  let days_diff :=
    if is_last_week
    then (current_weekday - target_weekday + 7)%Z
    else
      let days_diff := (current_weekday - target_weekday)%Z in
      if (days_diff <? 0)%Z then (days_diff + 7)%Z else days_diff in
  (today - days_diff)%Z.

(** [datetime(year, month, day)] inside [try ... except ValueError]. *)
Definition make_date (year month day : Z) : Z + error :=
  match Calendar.ymd2ord year month day with
  | Some d => inl d
  | None => inr InvalidDate
  end.

(** The year of a date written without one. *)
Definition infer_year (today : Z) (year : option Z) (month : Z) : Z :=
  match year with
  | Some y => y
  | None =>
      let year := Calendar.year_of today in
      let current_month := Calendar.month_of today in
      if (current_month <? month)%Z then (year - 1)%Z else year
  end.

(** [parse_date_query], when [datetime.now()] falls on [today]. *)
Definition parse_date_query (today : Z) (date_query : string) : Z + error :=
  if String.eqb date_query "" then inr EmptyQuery
  else
    let date_query := lower (strip date_query) in
    match ODict.get date_query CN_DATE_MAPPING with
    | Some days_ago => inl (today - days_ago)%Z
    | None =>
    match ODict.get date_query EN_DATE_MAPPING with
    | Some days_ago => inl (today - days_ago)%Z
    | None =>
    match cn_days_ago_match date_query with
    | Some days =>
        if (365 <? days)%Z then inr (TooManyDays days)
        else inl (today - days)%Z
    | None =>
    match en_days_ago_match date_query with
    | Some days =>
        if (365 <? days)%Z then inr (TooManyDays days)
        else inl (today - days)%Z
    | None =>
    match cn_weekday_match date_query with
    | Some (is_last, target_weekday) =>
        inl (_get_date_by_weekday today target_weekday is_last)
    | None =>
    match en_weekday_match date_query with
    | Some (is_last, target_weekday) =>
        inl (_get_date_by_weekday today target_weekday is_last)
    | None =>
    match iso_date_match date_query with
    | Some (year, month, day) => make_date year month day
    | None =>
    match optional_year_match "年" "月" "日" date_query with
    | Some (year, month, day) =>
        make_date (infer_year today year month) month day
    | None =>
    match optional_year_match "/" "/" "" date_query with
    | Some (year, month, day) =>
        make_date (infer_year today year month) month day
    | None => inr UnrecognizedFormat
    end end end end end end end end end.

(** Walking back from a day, one day at a time, to the most recent day
    (the starting day included) that falls on a given weekday. *)
Fixpoint walk_back (steps : nat) (day target_weekday : Z) : Z :=
  match steps with
  | O => day
  | S k =>
      if (Calendar.weekday day =? target_weekday)%Z then day
      else walk_back k (day - 1)%Z target_weekday
  end.

Definition most_recent_occurrence (today target_weekday : Z) : Z :=
  walk_back 7 today target_weekday.

End DateParser.

(** ** mcp_server/tools/analytics.py *)

Module Analytics.
Import Str.
Local Open Scope Q_scope.

(** The fields of a news item that the weight reads; [count] may be
    missing from the dictionary. *)
Record news_data : Type := {
  ranks : list Z;
  count : option Z
}.

Definition sumZ (l : list Z) : Z := fold_right Z.add 0%Z l.

Definition len {A} (l : list A) : Z := Z.of_nat (length l).

(** The three components, as the function computes them for a
    non-empty rank list. *)
Definition rank_weight (ranks : list Z) : Q :=
  let rank_scores := map (fun rank => (11 - Z.min rank 10)%Z) ranks in
  inject_Z (sumZ rank_scores) / inject_Z (len ranks).

Definition frequency_weight (count : Z) : Q :=
  inject_Z (Z.min count 10 * 10).

Definition high_rank_count (rank_threshold : Z) (ranks : list Z) : Z :=
  len (List.filter (fun rank => (rank <=? rank_threshold)%Z) ranks).

Definition hotness_ratio (rank_threshold : Z) (ranks : list Z) : Q :=
  inject_Z (high_rank_count rank_threshold ranks) / inject_Z (len ranks).

Definition hotness_weight (rank_threshold : Z) (ranks : list Z) : Q :=
  hotness_ratio rank_threshold ranks * 100.

Definition RANK_WEIGHT : Q := 6 # 10.
Definition FREQUENCY_WEIGHT : Q := 3 # 10.
Definition HOTNESS_WEIGHT : Q := 1 # 10.

(** [calculate_news_weight(news_data, rank_threshold)] *)
Definition calculate_news_weight (news_data : news_data)
    (rank_threshold : Z) : Q :=
  match ranks news_data with
  | [] => 0
  | _ =>
      let count := default (len (ranks news_data)) (count news_data) in
      rank_weight (ranks news_data) * RANK_WEIGHT
      + frequency_weight count * FREQUENCY_WEIGHT
      + hotness_weight rank_threshold (ranks news_data) * HOTNESS_WEIGHT
  end.

(** *** [analyze_topic_lifecycle] *)

Inductive lifecycle_stage : Type :=
| Rising | Declining | Bursting | Stable.

Inductive topic_type : Type :=
| Flash | Sustained | Periodic.

Record lifecycle_analysis : Type := {
  first_appearance : option Z;
  last_appearance : option Z;
  peak_date : option Z;
  peak_count : nat;
  active_days : nat;
  avg_daily_mentions : Q;
  stage : lifecycle_stage;
  type : topic_type
}.

Record lifecycle_report : Type := {
  topic : string;
  start_date : Z;
  end_date : Z;
  total_days : Z;
  lifecycle_data : list (Z * nat);
  analysis : lifecycle_analysis
}.

(** The days of [while current_date <= end_date], in order. *)
Definition days_between (start_date end_date : Z) : list Z :=
  map (fun i => (start_date + Z.of_nat i)%Z)
      (seq 0 (Z.to_nat (end_date - start_date + 1))).

(** The number of titles of a day that contain the topic, whatever
    the case. *)
Definition count_mentions (topic : string)
    (all_titles : ParserService.titles_table) : nat :=
  fold_left
    (fun count platform =>
       fold_left
         (fun count title =>
            if contains (lower topic) (lower title) then S count
            else count)
         (ODict.keys platform.2) count)
    all_titles 0%nat.

Definition sum_nat (l : list nat) : nat := fold_right Nat.add 0%nat l.

Definition max_nat (l : list nat) : nat := fold_right Nat.max 0%nat l.

(** [counts[-3:]] and [counts[:3]] *)
Definition last3 (l : list nat) : list nat := skipn (length l - 3) l.
Definition first3 (l : list nat) : list nat := firstn 3 l.

(** The first entry of the series with a positive count. *)
Definition first_positive (data : list (Z * nat)) : option Z :=
  fst <$> List.find (fun item => (0 <? item.2)%nat) data.

(** [counts.index(max_count)], as the date at that index. *)
Definition date_of_count (data : list (Z * nat)) (c : nat) : option Z :=
  fst <$> List.find (fun item => (item.2 =? c)%nat) data.

(** The mean of the positive counts, [0] when there is none. *)
Definition average_count (counts : list nat) : Q :=
  let non_zero_counts := List.filter (fun c => (0 <? c)%nat) counts in
  match non_zero_counts with
  | [] => 0
  | _ => inject_Z (Z.of_nat (sum_nat non_zero_counts))
         / inject_Z (len non_zero_counts)
  end.

(** The average of [get_topic_trend_analysis], the sibling analysis of
    the same daily series: [sum(counts) / len(counts)], over all the
    days of the range, [0] for an empty series. *)
Definition average_mentions (counts : list nat) : Q :=
  match counts with
  | [] => 0
  | _ => inject_Z (Z.of_nat (sum_nat counts)) / inject_Z (len counts)
  end.

Definition Qgtb (x y : Q) : bool := negb (Qle_bool x y).
Definition Qltb (x y : Q) : bool := negb (Qle_bool y x).

Definition nat_as_Q (n : nat) : Q := inject_Z (Z.of_nat n).

Definition classify_stage (counts : list nat) : lifecycle_stage :=
  let max_count := max_nat counts in
  let recent_counts := last3 counts in
  let early_counts := first3 counts in
  if (sum_nat early_counts <? sum_nat recent_counts)%nat then Rising
  else if Qltb (nat_as_Q (sum_nat recent_counts))
               (nat_as_Q (sum_nat early_counts) * (5 # 10))
  then Declining
  else if existsb (Nat.eqb max_count) recent_counts then Bursting
  else Stable.

Definition count_active_days (counts : list nat) : nat :=
  length (List.filter (fun c => (0 <? c)%nat) counts).

Definition classify_type (total_days : Z) (counts : list nat) : topic_type :=
  let max_count := max_nat counts in
  let avg_count := average_count counts in
  let active_days := count_active_days counts in
  if (active_days <=? 2)%nat && Qgtb (nat_as_Q max_count) (avg_count * 2)
  then Flash
  else if Qle_bool (inject_Z total_days * (6 # 10)) (nat_as_Q active_days)
  then Sustained
  else Periodic.

Section Lifecycle.
(** [validate_keyword] and [validate_date_range] of
    [utils/validators.py], the outcome of
    [parser.read_all_titles_for_date(date=d)] for each day [d], and
    the day of [datetime.now()]. *)
Variable validate_keyword : string -> string + exn.
Variable validate_date_range : string * string -> Z * Z + exn.
Variable read_all_titles_for_date :
  Z -> ParserService.day_index + exn.
Variable today : Z.

(** One entry of [lifecycle_data]; a day without data counts for
    zero, any other exception leaves the loop. *)
Definition day_count (topic : string) (current_date : Z)
  : Z * nat + exn :=
  match read_all_titles_for_date current_date with
  | inl index =>
      inl (current_date,
           count_mentions topic (ParserService.all_titles index))
  | inr (DataNotFoundError _) => inl (current_date, 0%nat)
  | inr e => inr e
  end.

Fixpoint collect_counts (topic : string) (days : list Z)
  : list (Z * nat) + exn :=
  match days with
  | [] => inl []
  | d :: days' =>
      match day_count topic d with
      | inl item =>
          match collect_counts topic days' with
          | inl items => inl (item :: items)
          | inr e => inr e
          end
      | inr e => inr e
      end
  end.

Definition analyze_topic_lifecycle (topic : string)
    (date_range : option (string * string))
  : lifecycle_report + failure :=
  match validate_keyword topic with
  | inr e => inr (to_failure e)
  | inl topic =>
      let range :=
        match date_range with
        | Some r => validate_date_range r
        | None => inl ((today - 6)%Z, today)
        end in
      match range with
      | inr e => inr (to_failure e)
      | inl (start_date, end_date) =>
          match collect_counts topic (days_between start_date end_date) with
          | inr e => inr (to_failure e)
          | inl lifecycle_data =>
              let total_days := (end_date - start_date + 1)%Z in
              let counts := map snd lifecycle_data in
              if negb (existsb (fun c => negb (c =? 0)%nat) counts)
              then inr (McpFailure (DataNotFoundError "topic not found"))
              else
                let max_count := max_nat counts in
                inl {| topic := topic;
                       start_date := start_date;
                       end_date := end_date;
                       total_days := total_days;
                       lifecycle_data := lifecycle_data;
                       analysis :=
                         {| first_appearance :=
                              first_positive lifecycle_data;
                            last_appearance :=
                              first_positive (rev lifecycle_data);
                            peak_date :=
                              date_of_count lifecycle_data max_count;
                            peak_count := max_count;
                            active_days := count_active_days counts;
                            avg_daily_mentions := average_count counts;
                            stage := classify_stage counts;
                            type := classify_type total_days counts |} |}
          end
      end
  end.

End Lifecycle.

End Analytics.

(** ** [difflib.SequenceMatcher(None, a, b).ratio()]

    The matcher of the Python standard library, on sequences for which
    its heuristic of popular elements is idle ([b] shorter than 200
    elements), which is the case of news titles. *)

Module Difflib.
Section WithElements.
Context {A : Type} (eqb : A -> A -> bool).

(** The length of the longest common prefix. *)
Fixpoint common_prefix (a b : list A) : nat :=
  match a, b with
  | x :: a', y :: b' => if eqb x y then S (common_prefix a' b') else 0
  | _, _ => 0
  end.

(** The best block [(i, j, k)] so far, against the blocks that start
    at [a[i:]] and at each position of [b] from [j] on. *)
Fixpoint best_in_row (a_from_i b_from_j : list A) (i j : nat)
    (best : nat * nat * nat) : nat * nat * nat :=
  match b_from_j with
  | [] => best
  | _ :: b' =>
      let k := common_prefix a_from_i b_from_j in
      let best := if (best.2 <? k)%nat then (i, j, k) else best in
      best_in_row a_from_i b' i (S j) best
  end.

Fixpoint best_from (a_from_i b : list A) (i : nat)
    (best : nat * nat * nat) : nat * nat * nat :=
  match a_from_i with
  | [] => best
  | _ :: a' => best_from a' b (S i) (best_in_row a_from_i b i 0 best)
  end.

(** [find_longest_match]: the longest block [a[i:i+k] == b[j:j+k]],
    the one that starts first in [a] and then first in [b] among the
    longest; [(0, 0, 0)] when no element is shared. *)
Definition find_longest_match (a b : list A) : nat * nat * nat :=
  best_from a b 0 (0, 0, 0)%nat.

(** The total size of the matching blocks: the longest block, then
    the same to its left and to its right. *)
Fixpoint matches (fuel : nat) (a b : list A) : nat :=
  match fuel with
  | O => 0
  | S fuel' =>
      let '(i, j, k) := find_longest_match a b in
      match k with
      | O => 0
      | _ =>
          matches fuel' (firstn i a) (firstn j b) + k
          + matches fuel' (skipn (i + k) a) (skipn (j + k) b)
      end
  end.

(** [2.0 * matches / (len(a) + len(b))], and [1.0] for two empty
    sequences. *)
Definition ratio (a b : list A) : Q :=
  match (length a + length b)%nat with
  | O => 1
  | total =>
      inject_Z (2 * Z.of_nat (matches (S (length a)) a b))
      / inject_Z (Z.of_nat total)
  end.

(** A block [(i, j, k)] that lies inside both sequences and on which
    they agree. *)
Definition valid_block (a b : list A) (blk : nat * nat * nat) : Prop :=
  let '(i, j, k) := blk in
  (i + k <= length a)%nat /\ (j + k <= length b)%nat /\
  firstn k (skipn i a) = firstn k (skipn j b).

End WithElements.
End Difflib.

(** ** mcp_server/services/data_service.py *)

Module DataService.
Import Str.
Local Open Scope string_scope.

(** [(\d{2})] *)
Definition digits2 (s : string) : option (string * string) :=
  match DateParser.digits_upto 2 s with
  | (ds, rest) => if (String.length ds =? 2)%nat then Some (ds, rest)
                  else None
  end.

(** The date of a folder named [YYYY年MM月DD日...], when the name has
    that form and the date exists. *)
Definition folder_date (name : string) : option Z :=
  match DateParser.digits4 name with
  | Some (y, rest) =>
      match DateParser.after "年" rest with
      | Some rest =>
          match digits2 rest with
          | Some (m, rest) =>
              match DateParser.after "月" rest with
              | Some rest =>
                  match digits2 rest with
                  | Some (d, rest) =>
                      match DateParser.after "日" rest with
                      | Some _ => Calendar.ymd2ord (int y) (int m) (int d)
                      | None => None
                      end
                  | None => None
                  end
              | None => None
              end
          | None => None
          end
      | None => None
      end
  | None => None
  end.

Definition min_list (l : list Z) : option Z :=
  match l with
  | [] => None
  | x :: l' => Some (fold_left Z.min l' x)
  end.

Definition max_list (l : list Z) : option Z :=
  match l with
  | [] => None
  | x :: l' => Some (fold_left Z.max l' x)
  end.

(** [get_available_date_range()].  [output_dir] lists the entries of
    the [output] directory with their [is_dir] flag, [None] when the
    directory does not exist. *)
Definition get_available_date_range
    (output_dir : option (list (string * bool))) : option Z * option Z :=
  match output_dir with
  | None => (None, None)
  | Some entries =>
      let available_dates :=
        flat_map
          (fun entry =>
             if entry.2 && negb (startswith "." entry.1)
             then match folder_date entry.1 with
                  | Some d => [d]
                  | None => []
                  end
             else [])
          entries in
      (min_list available_dates, max_list available_dates)
  end.

End DataService.

(** ** mcp_server/tools/search_tools.py *)

Module SearchTools.
Import Str.
Local Open Scope string_scope.

(** [self.stopwords] *)
Definition stopwords : list string :=
  ["的"; "了"; "在"; "是"; "我"; "有"; "和"; "就"; "不"; "人"; "都"; "一";
   "一个"; "上"; "也"; "很"; "到"; "说"; "要"; "去"; "你"; "会"; "着"; "没有";
   "看"; "好"; "自己"; "这"; "那"; "来"; "被"; "与"; "为"; "对"; "将"; "从";
   "以"; "及"; "等"; "但"; "或"; "而"; "于"; "中"; "由"; "可"; "can"; "已";
   "已经"; "还"; "更"; "最"; "再"; "因为"; "所以"; "如果"; "虽然"; "然而"].

(** [_calculate_similarity] *)
Definition _calculate_similarity (text1 text2 : string) : Q :=
  Difflib.ratio Ascii.eqb (list_ascii_of_string (lower text1))
                (list_ascii_of_string (lower text2)).

(** The length of the longest run of characters of a class at the
    start of a string. *)
Fixpoint run_length (class : ascii -> bool) (s : string) : nat :=
  match s with
  | String c s' => if class c then S (run_length class s') else 0
  | "" => 0
  end.

(** [http[s]?://\S+] at the start of the string: the length of the
    match. *)
Definition url_match (s : string) : option nat :=
  match DateParser.after "http" s with
  | Some rest =>
      let '(scheme, rest) :=
        match DateParser.after "s" rest with
        | Some r => (5, r)
        | None => (4, rest)
        end%nat in
      match DateParser.after "://" rest with
      | Some rest =>
          match run_length (fun c => negb (is_space c)) rest with
          | O => None
          | n => Some (scheme + 3 + n)%nat
          end
      | None => None
      end
  | None => None
  end.

(** [\[.*?\]] at the start of the string: the length of the match,
    up to the first closing bracket of the line. *)
Fixpoint bracket_rest (s : string) : option nat :=
  match s with
  | "" => None
  | String c s' =>
      if Ascii.eqb c "]" then Some 1%nat
      else if Ascii.eqb c "010" then None
      else S <$> bracket_rest s'
  end.

Definition bracket_match (s : string) : option nat :=
  match s with
  | String "[" s' => S <$> bracket_rest s'
  | _ => None
  end.

(** [re.sub(pattern, '', s)] for a pattern given by its matcher. *)
Fixpoint remove_matches (matcher : string -> option nat) (s : string)
    (skip : nat) : string :=
  match s with
  | "" => ""
  | String c s' =>
      match skip with
      | S k => remove_matches matcher s' k
      | O =>
          match matcher s with
          | Some (S n) => remove_matches matcher s' n
          | _ => String c (remove_matches matcher s' 0)
          end
      end
  end.

(** [re.findall(r'[\w]+', s)]: [cur] is the word being read. *)
Fixpoint words_from (s : string) (cur : string) : list string :=
  match s with
  | "" => match cur with "" => [] | _ => [cur] end
  | String c s' =>
      if is_word c then words_from s' (cur +:+ String c "")
      else match cur with
           | "" => words_from s' ""
           | _ => cur :: words_from s' ""
           end
  end.

(** [_extract_keywords(text, min_length)] *)
Definition _extract_keywords_min (text : string) (min_length : nat)
  : list string :=
  let text := remove_matches url_match text 0 in
  let text := remove_matches bracket_match text 0 in
  let words := words_from text "" in
  List.filter
    (fun word =>
       negb (String.eqb word "") && (min_length <=? String.length word)%nat
       && negb (existsb (String.eqb word) stopwords))
    words.

Definition _extract_keywords (text : string) : list string :=
  _extract_keywords_min text 2.

Definition Qgeb (x y : Q) : bool := Qle_bool y x.

Definition size_Q (s : gset string) : Q := inject_Z (Z.of_nat (size s)).

(** [_fuzzy_match(query, text, threshold)] *)
Definition _fuzzy_match (query text : string) (threshold : Q) : bool * Q :=
  if contains (lower query) (lower text) then (true, 1%Q)
  else
    let similarity := _calculate_similarity query text in
    if Qgeb similarity threshold then (true, similarity)
    else
      let query_words : gset string := list_to_set (_extract_keywords query) in
      let text_words : gset string := list_to_set (_extract_keywords text) in
      if bool_decide (query_words = ∅) || bool_decide (text_words = ∅)
      then (false, 0%Q)
      else
        let common_words := query_words ∩ text_words in
        let keyword_overlap := (size_Q common_words / size_Q query_words)%Q in
        if Qgeb keyword_overlap (5 # 10) then (true, keyword_overlap)
        else (false, similarity).

(** [_calculate_keyword_overlap(keywords1, keywords2)] *)
Definition _calculate_keyword_overlap (keywords1 keywords2 : list string)
  : Q :=
  match keywords1, keywords2 with
  | [], _ | _, [] => 0%Q
  | _, _ =>
      let set1 : gset string := list_to_set keywords1 in
      let set2 : gset string := list_to_set keywords2 in
      let intersection := size (set1 ∩ set2) in
      let union := size (set1 ∪ set2) in
      match union with
      | O => 0%Q
      | _ => (inject_Z (Z.of_nat intersection)
              / inject_Z (Z.of_nat union))%Q
      end
  end.

(** The score of one title in [search_related_news_history]:
    [(combined_score, keyword_overlap, title_similarity)]. *)
Definition history_scores (reference_text title : string) : Q * Q * Q :=
  let reference_keywords := _extract_keywords reference_text in
  let title_similarity := _calculate_similarity reference_text title in
  let title_keywords := _extract_keywords title in
  let keyword_overlap :=
    _calculate_keyword_overlap reference_keywords title_keywords in
  let combined_score :=
    (keyword_overlap * (7 # 10) + title_similarity * (3 # 10))%Q in
  (combined_score, keyword_overlap, title_similarity).

(** *** [search_news_unified] *)

(** One entry of the result list; [urls] holds [(url, mobileUrl)]
    when the caller asked for them. *)
Record news_item : Type := {
  title : string;
  platform : string;
  platform_name : string;
  date : string;
  similarity_score : Q;
  ranks : list Z;
  count : Z;
  rank : Z;
  urls : option (string * string)
}.

(** [round(x, 4)]: to the nearest multiple of 1/10000, ties to the
    even one. *)
Definition round_half_even (x : Q) : Z :=
  let f := Qfloor x in
  let frac := (x - inject_Z f)%Q in
  match (frac ?= 1 # 2)%Q with
  | Lt => f
  | Gt => (f + 1)%Z
  | Eq => if Z.even f then f else (f + 1)%Z
  end.

Definition round4 (x : Q) : Q :=
  (inject_Z (round_half_even (x * 10000)) / 10000)%Q.

Definition make_item (title platform_id platform_name : string)
    (current_date : Z) (score : Q) (info : ParserService.TitleInfo)
    (include_url : bool) : news_item :=
  {| title := title;
     platform := platform_id;
     platform_name := platform_name;
     date := Calendar.iso_format current_date;
     similarity_score := score;
     ranks := ParserService.ranks info;
     count := Analytics.len (ParserService.ranks info);
     rank := hd 999%Z (ParserService.ranks info);
     urls := if include_url
             then Some (ParserService.url info, ParserService.mobileUrl info)
             else None |}.

(** The two nested loops shared by the three modes: [accept] gives
    the score of a title that matches. *)
Definition scan_titles (accept : string -> option Q)
    (all_titles : ParserService.titles_table) (id_to_name : ODict.t string)
    (current_date : Z) (include_url : bool) : list news_item :=
  flat_map
    (fun p =>
       let platform_name := default p.1 (ODict.get p.1 id_to_name) in
       flat_map
         (fun t =>
            match accept t.1 with
            | Some score =>
                [make_item t.1 p.1 platform_name current_date score t.2
                           include_url]
            | None => []
            end)
         p.2)
    all_titles.

Definition keyword_accept (query title : string) : option Q :=
  if contains (lower query) (lower title) then Some 1%Q else None.

Definition fuzzy_accept (query : string) (threshold : Q) (title : string)
  : option Q :=
  let '(is_match, similarity) := _fuzzy_match query title threshold in
  if is_match then Some (round4 similarity) else None.

Definition entity_accept (query title : string) : option Q :=
  if contains query title then Some 1%Q else None.

Definition _search_by_keyword_mode (query : string) :=
  scan_titles (keyword_accept query).

Definition _search_by_fuzzy_mode (query : string)
    (all_titles : ParserService.titles_table) (id_to_name : ODict.t string)
    (current_date : Z) (threshold : Q) (include_url : bool) :=
  scan_titles (fuzzy_accept query threshold) all_titles id_to_name
              current_date include_url.

Definition _search_by_entity_mode (query : string) :=
  scan_titles (entity_accept query).

(** [l.sort(key=..., reverse=True)]: a stable sort, greatest key
    first; [lt x y] tells that the key of [x] is below that of [y]. *)
Fixpoint insert_desc {A} (lt : A -> A -> bool) (x : A) (l : list A)
  : list A :=
  match l with
  | [] => [x]
  | y :: l' => if lt x y then y :: insert_desc lt x l' else x :: l
  end.

Definition sort_desc {A} (lt : A -> A -> bool) (l : list A) : list A :=
  fold_right (insert_desc lt) [] l.

Definition Qltb (x y : Q) : bool := negb (Qle_bool y x).

Definition item_weight (x : news_item) : Q :=
  Analytics.calculate_news_weight
    {| Analytics.ranks := ranks x; Analytics.count := Some (count x) |} 5.

(** [l[:limit]] *)
Definition slice_to {A} (limit : Z) (l : list A) : list A :=
  if (limit <? 0)%Z then firstn (length l - Z.to_nat (- limit)) l
  else firstn (Z.to_nat limit) l.

(** [max(0.0, min(1.0, threshold))] *)
Definition clamp01 (threshold : Q) : Q :=
  let m := if Qltb threshold 1 then threshold else 1%Q in
  if Qltb 0 m then m else 0%Q.

Record search_summary : Type := {
  total_found : Z;
  returned_count : Z;
  requested_limit : Z;
  summary_search_mode : string;
  summary_query : string;
  summary_platforms : option (list string);
  summary_time_range : string;
  summary_sort_by : string;
  summary_threshold : option Q
}.

(** The three shapes of the returned dictionary: a failure, the
    success without any match, the success with matches. *)
Record no_match : Type := {
  results : list news_item;
  total : Z;
  query : string;
  search_mode : string;
  time_range : string;
  message : string
}.

Inductive search_result : Type :=
| Failure (f : failure)
| SuccessEmpty (r : no_match)
| Success (summary : search_summary) (results : list news_item)
          (note : bool).

Definition time_description (today start_date end_date : Z) : string :=
  if (start_date =? today)%Z && (start_date =? end_date)%Z then "today"
  else if (start_date =? end_date)%Z then Calendar.iso_format start_date
  else Calendar.iso_format start_date +:+ " to "
       +:+ Calendar.iso_format end_date.

Section Search.
(** [validate_keyword], [validate_limit] and [validate_date_range]
    of [utils/validators.py]; the outcome of
    [parser.read_all_titles_for_date(date, platform_ids)] for each
    day; the listing of the [output] directory; the day of
    [datetime.now()]. *)
Variable validate_keyword : string -> string + exn.
Variable validate_limit : Z -> Z + exn.
Variable validate_date_range : string * string -> Z * Z + exn.
Variable read_all_titles_for_date :
  Z -> option (list string) -> ParserService.day_index + exn.
Variable output_dir : option (list (string * bool)).
Variable today : Z.

(** The matches of one day; a day without data gives none. *)
Definition day_matches (query search_mode : string)
    (platforms : option (list string)) (threshold : Q)
    (include_url : bool) (current_date : Z) : list news_item + exn :=
  match read_all_titles_for_date current_date platforms with
  | inl index =>
      let all_titles := ParserService.all_titles index in
      let id_to_name := ParserService.id_to_name index in
      inl (if String.eqb search_mode "keyword"
           then _search_by_keyword_mode query all_titles id_to_name
                  current_date include_url
           else if String.eqb search_mode "fuzzy"
           then _search_by_fuzzy_mode query all_titles id_to_name
                  current_date threshold include_url
           else _search_by_entity_mode query all_titles id_to_name
                  current_date include_url)
  | inr (DataNotFoundError _) => inl []
  | inr e => inr e
  end.

(** The [while current_date <= end_date] loop. *)
Fixpoint collect_matches (query search_mode : string)
    (platforms : option (list string)) (threshold : Q)
    (include_url : bool) (days : list Z) : list news_item + exn :=
  match days with
  | [] => inl []
  | d :: days' =>
      match day_matches query search_mode platforms threshold
                        include_url d with
      | inl matches =>
          match collect_matches query search_mode platforms threshold
                                include_url days' with
          | inl rest => inl (matches ++ rest)%list
          | inr e => inr e
          end
      | inr e => inr e
      end
  end.

Definition no_match_message (time_desc : string) : string :=
  match DataService.get_available_date_range output_dir with
  | (Some earliest, Some latest) =>
      "未找到匹配的news（query范围: " +:+ time_desc +:+ "，可用data: "
      +:+ Calendar.iso_format earliest +:+ " to "
      +:+ Calendar.iso_format latest +:+ "）"
  | _ => "未找到匹配的news（" +:+ time_desc +:+ "）"
  end.

Definition search_news_unified (query search_mode : string)
    (date_range : option (string * string))
    (platforms : option (list string)) (limit : Z) (sort_by : string)
    (threshold : Q) (include_url : bool) : search_result :=
  match validate_keyword query with
  | inr e => Failure (to_failure e)
  | inl query =>
  if negb (existsb (String.eqb search_mode) ["keyword"; "fuzzy"; "entity"])
  then Failure (McpFailure (InvalidParameterError "search mode"))
  else if negb (existsb (String.eqb sort_by) ["relevance"; "weight"; "date"])
  then Failure (McpFailure (InvalidParameterError "sort order"))
  else
  match validate_limit limit with
  | inr e => Failure (to_failure e)
  | inl limit =>
  let threshold := clamp01 threshold in
  let range : (Z * Z + exn) + unit :=
    match date_range with
    | Some r => inl (validate_date_range r)
    | None =>
        match DataService.get_available_date_range output_dir with
        | (_, None) => inr tt
        | (_, Some latest) => inl (inl (latest, latest))
        end
    end in
  match range with
  | inr _ => Failure NO_DATA_AVAILABLE
  | inl (inr e) => Failure (to_failure e)
  | inl (inl (start_date, end_date)) =>
  match collect_matches query search_mode platforms threshold include_url
                        (Analytics.days_between start_date end_date) with
  | inr e => Failure (to_failure e)
  | inl [] =>
      let time_desc := time_description today start_date end_date in
      SuccessEmpty {| results := [];
                      total := 0;
                      query := query;
                      search_mode := search_mode;
                      time_range := time_desc;
                      message := no_match_message time_desc |}
  | inl all_matches =>
      let sorted :=
        if String.eqb sort_by "relevance"
        then sort_desc (fun x y => Qltb (similarity_score x)
                                        (similarity_score y)) all_matches
        else if String.eqb sort_by "weight"
        then sort_desc (fun x y => Qltb (item_weight x) (item_weight y))
                       all_matches
        else sort_desc (fun x y => String.ltb (date x) (date y))
                       all_matches in
      let results := slice_to limit sorted in
      let is_fuzzy := String.eqb search_mode "fuzzy" in
      Success
        {| total_found := Analytics.len all_matches;
           returned_count := Analytics.len results;
           requested_limit := limit;
           summary_search_mode := search_mode;
           summary_query := query;
           summary_platforms := platforms;
           summary_time_range :=
             time_description today start_date end_date;
           summary_sort_by := sort_by;
           summary_threshold := if is_fuzzy then Some threshold else None |}
        results
        (is_fuzzy && (Analytics.len all_matches <? limit)%Z)
  end end end end.

End Search.

(** The titles of a day, platform after platform. *)
Definition all_title_keys (all_titles : ParserService.titles_table)
  : list string :=
  flat_map (fun p => ODict.keys p.2) all_titles.

(** The keyword fall-back of [_fuzzy_match] accepts: both keyword sets
    are non-empty and half of the query's keywords are in the text. *)
Definition keyword_fallback_accepts (query text : string) : Prop :=
  let query_words : gset string := list_to_set (_extract_keywords query) in
  let text_words : gset string := list_to_set (_extract_keywords text) in
  query_words <> ∅ /\ text_words <> ∅ /\
  (1 # 2 <= size_Q (query_words ∩ text_words) / size_Q query_words)%Q.

(** *** [search_related_news_history] *)

(** One entry of the result list. *)
Record related_item : Type := {
  related_title : string;
  related_platform : string;
  related_platform_name : string;
  related_date : string;
  related_similarity_score : Q;
  keyword_overlap : Q;
  text_similarity : Q;
  common_keywords : gset string;
  related_rank : Z;
  related_urls : option (string * string)
}.

(** [Counter(keys)], in the order of first appearance. *)
Definition counter (keys : list string) : ODict.t nat :=
fold_left (fun c k => ODict.set k (S (default 0%nat (ODict.get k c))) c)
          keys [].

Definition sumQ (l : list Q) : Q := fold_right Qplus 0%Q l.

Record related_summary : Type := {
  related_total_found : Z;
  related_returned_count : Z;
  related_requested_limit : Z;
  related_threshold : Q;
  reference_text_used : string;
  reference_keywords_used : list string;
  related_start : Z;
  related_end : Z;
  platform_distribution : ODict.t nat;
  date_distribution : ODict.t nat;
  avg_similarity : Q
}.

Inductive related_result : Type :=
| RelatedFailure (f : failure)
| RelatedEmpty (query : string) (time_preset : string) (search_start search_end : Z)
| RelatedSuccess (summary : related_summary) (results : list related_item)
                 (note : bool).

(** The items of one day: the titles whose combined score reaches the
    threshold. *)
Definition related_of_day (reference_text : string) (threshold : Q)
    (include_url : bool) (current_date : Z)
    (index : ParserService.day_index) : list related_item :=
flat_map
  (fun p =>
     let platform_name :=
       default p.1 (ODict.get p.1 (ParserService.id_to_name index)) in
     flat_map
       (fun t =>
          let '(combined_score, overlap, title_similarity) :=
            history_scores reference_text t.1 in
          if Qgeb combined_score threshold
          then [{| related_title := t.1;
                   related_platform := p.1;
                   related_platform_name := platform_name;
                   related_date := Calendar.iso_format current_date;
                   related_similarity_score := round4 combined_score;
                   keyword_overlap := round4 overlap;
                   text_similarity := round4 title_similarity;
                   common_keywords :=
                     list_to_set (_extract_keywords reference_text)
                     ∩ list_to_set (_extract_keywords t.1);
                   related_rank := hd 0%Z (ParserService.ranks t.2);
                   related_urls :=
                     if include_url
                     then Some (ParserService.url t.2,
                                ParserService.mobileUrl t.2)
                     else None |}]
          else [])
       p.2)
  (ParserService.all_titles index).

Section History.
(** [validate_keyword] and [validate_limit] of [utils/validators.py],
    the outcome of [parser.read_all_titles_for_date(d)] for each day and
    the day of [datetime.now()]. *)
Variable validate_keyword : string -> string + exn.
Variable validate_limit : Z -> Z + exn.
Variable read_all_titles_for_date : Z -> ParserService.day_index + exn.
Variable today : Z.

(** The search window of a preset. *)
Definition preset_range (time_preset : string)
    (start_date end_date : option Z) : Z * Z + exn :=
if String.eqb time_preset "yesterday" then inl ((today - 1)%Z, (today - 1)%Z)
else if String.eqb time_preset "last_week"
then inl ((today - 7)%Z, (today - 1)%Z)
else if String.eqb time_preset "last_month"
then inl ((today - 30)%Z, (today - 1)%Z)
else if String.eqb time_preset "custom"
then match start_date, end_date with
     | Some s, Some e => inl (s, e)
     | _, _ => inr (InvalidParameterError "custom range needs both dates")
     end
else inr (InvalidParameterError "time range").

(** The [while] loop: a day whose read raises, whatever it raises,
    contributes nothing. *)
Definition collect_related (reference_text : string) (threshold : Q)
    (include_url : bool) (days : list Z) : list related_item :=
flat_map
  (fun d =>
     match read_all_titles_for_date d with
     | inl index => related_of_day reference_text threshold include_url d index
     | inr _ => []
     end)
  days.

Definition search_related_news_history (reference_text time_preset : string)
    (start_date end_date : option Z) (threshold : Q) (limit : Z)
    (include_url : bool) : related_result :=
match validate_keyword reference_text with
| inr e => RelatedFailure (to_failure e)
| inl reference_text =>
let threshold := clamp01 threshold in
match validate_limit limit with
| inr e => RelatedFailure (to_failure e)
| inl limit =>
match preset_range time_preset start_date end_date with
| inr e => RelatedFailure (to_failure e)
| inl (search_start, search_end) =>
let reference_keywords := _extract_keywords reference_text in
match reference_keywords with
| [] => RelatedFailure (McpFailure (InvalidParameterError "no keyword"))
| _ =>
match collect_related reference_text threshold include_url
                      (Analytics.days_between search_start search_end) with
| [] => RelatedEmpty reference_text time_preset search_start search_end
| all_related_news =>
    let sorted :=
      sort_desc (fun x y => Qltb (related_similarity_score x)
                                 (related_similarity_score y))
                all_related_news in
    let results := slice_to limit sorted in
    RelatedSuccess
      {| related_total_found := Analytics.len all_related_news;
         related_returned_count := Analytics.len results;
         related_requested_limit := limit;
         related_threshold := threshold;
         reference_text_used := reference_text;
         reference_keywords_used := reference_keywords;
         related_start := search_start;
         related_end := search_end;
         platform_distribution :=
           counter (map related_platform all_related_news);
         date_distribution := counter (map related_date all_related_news);
         avg_similarity :=
           round4 (sumQ (map related_similarity_score all_related_news)
                   / inject_Z (Analytics.len all_related_news)) |}
      results
      (Analytics.len all_related_news <? limit)%Z
end end end end end.

End History.

(** A title matches, in a mode: the score it is given. *)
Definition accept_of_mode (search_mode query : string) (threshold : Q)
  : string -> option Q :=
  if String.eqb search_mode "keyword" then keyword_accept query
  else if String.eqb search_mode "fuzzy" then fuzzy_accept query threshold
  else entity_accept query.

(** The keyword overlap as the ratio of the shared keywords to the
    keywords of the reference text alone. *)
Definition reference_overlap (reference_keywords title_keywords : list string)
  : Q :=
  let set1 : gset string := list_to_set reference_keywords in
  let set2 : gset string := list_to_set title_keywords in
  (size_Q (set1 ∩ set2) / size_Q set1)%Q.

End SearchTools.

(** ** A small corpus, used to run the functions above *)

Module Samples.
Import Str ParserService.
Local Open Scope string_scope.

(** Two snapshots of one day that give platform [p] two display names
    and title [t] two ranks. *)
Definition file_a : file :=
  {| name := "09时00分.txt";
     content := Some ("p | Old" +:+ nl +:+ "3. t");
     st_mtime := 1 |}.

Definition file_b : file :=
  {| name := "10时30分.txt";
     content := Some ("p | New" +:+ nl +:+ "7. t");
     st_mtime := 2 |}.

(** One snapshot in which title [t] of platform [p] has two lines. *)
Definition file_twice : file :=
  {| name := "09时00分.txt";
     content := Some ("p" +:+ nl +:+ "3. t" +:+ nl +:+ "7. t");
     st_mtime := 1 |}.

(** A section of platform [p] with [n] titles on the topic [ai]. *)
Fixpoint ai_lines (n : nat) : string :=
  match n with
  | O => ""
  | S k => ai_lines k +:+ nl +:+ Calendar.decimal (Z.of_nat n)
           +:+ ". ai story " +:+ Calendar.decimal (Z.of_nat n)
  end.

Definition ai_file (n : nat) : file :=
  {| name := "09时00分.txt";
     content := Some ("p | Plat" +:+ ai_lines n);
     st_mtime := 1 |}.

(** Saturday 11 October 2025, and the week that ends on it. *)
Definition today : Z := 739535.
Definition week_start : Z := 739529.

(** A corpus with ten [ai] titles on the first day of the week, one on
    the last day, and no folder for the days between. *)
Definition output (folder : string) : option (list file) :=
  if String.eqb folder (Calendar.folder_format week_start)
  then Some [ai_file 10]
  else if String.eqb folder (Calendar.folder_format today)
  then Some [ai_file 1]
  else None.

Definition output_dir : option (list (string * bool)) :=
  Some [(Calendar.folder_format week_start, true);
        (Calendar.folder_format today, true)].

(** A read of the corpus through an empty cache. *)
Definition read (date : Z) (platform_ids : option (list string))
  : day_index + exn :=
  (read_all_titles_for_date output today 0 0 (Some date) platform_ids
                            CacheService.init).2.

(** Stand-ins for the validators, whose source is not at hand: they
    accept their argument, and read the two ends of a range with the
    date parser. *)
Definition validate_keyword (keyword : string) : string + exn :=
  inl keyword.

Definition validate_limit (limit : Z) : Z + exn := inl limit.

Definition validate_date_range (r : string * string) : Z * Z + exn :=
  match DateParser.parse_date_query today r.1,
        DateParser.parse_date_query today r.2 with
  | inl s, inl e => inl (s, e)
  | _, _ => inr (InvalidParameterError "date range")
  end.

Definition analyze_topic_lifecycle :=
  Analytics.analyze_topic_lifecycle validate_keyword validate_date_range
    (fun d => read d None) today.

Definition search_news_unified :=
  SearchTools.search_news_unified validate_keyword validate_limit
    validate_date_range read output_dir today.

Definition search_related_news_history :=
  SearchTools.search_related_news_history validate_keyword validate_limit
    (fun d => read d None) today.

(** A day index with one title that shares the words of a query
    without containing it. *)
Definition fruit_titles : titles_table :=
  [("p", [("banana split apple",
           {| ranks := [1%Z]; url := ""; mobileUrl := "" |})])].

End Samples.

(* ===================================================================== *)
(** * Part I, continued: more of the program                              *)
(* ===================================================================== *)

(** ** mcp_server/services/cache_service.py, continued *)

From Stdlib Require Import Sorted Lqa.
From Stdlib Require OrdersEx.

Module CacheStats.
Import CacheService.

(** The dictionary that [get_stats] returns. *)
Record stats : Type := {
  total_entries : nat;
  oldest_entry_age : Q;
  newest_entry_age : Q
}.

(** [min(values)] and [max(values)] of a non-empty list of clock
    readings. *)
Definition Qmin_list (x : Q) (l : list Q) : Q :=
  fold_left (fun m y => if Qltb y m then y else m) l x.

Definition Qmax_list (x : Q) (l : list Q) : Q :=
  fold_left (fun m y => if Qltb m y then y else m) l x.

(** [get_stats()].  The function reads the clock twice when the cache
    is not empty: [now_oldest] is the reading of [time.time()] in the
    entry "oldest_entry_age", which is evaluated first, [now_newest]
    the reading in the entry "newest_entry_age". *)
Definition get_stats {V} (now_oldest now_newest : Q) (s : CacheService.t V)
  : stats :=
  let values := (map_to_list (_timestamps s)).*2 in
  {| total_entries := size (_cache s);
     oldest_entry_age :=
       match values with
       | [] => 0
       | x :: l => now_oldest - Qmin_list x l
       end;
     newest_entry_age :=
       match values with
       | [] => 0
       | x :: l => now_newest - Qmax_list x l
       end |}.

End CacheStats.

(** ** mcp_server/services/parser_service.py, continued *)

Module ParserReads.
Import ParserService.

(** [all_titles[platform_id][title]], when both keys are there. *)
Definition info_of (table : titles_table) (platform_id title : string)
  : option TitleInfo :=
  match ODict.get platform_id table with
  | Some titles => ODict.get title titles
  | None => None
  end.

(** [l1] is the beginning of [l2]. *)
Definition starts_with {A} (l1 l2 : list A) : Prop :=
  exists rest, l2 = l1 ++ rest.

(** One iteration of [for platform_id, titles in titles_by_id.items()]. *)
Definition merge_step (platform_ids : option (list string))
  (acc : titles_table) (e : string * ODict.t TitleInfo) : titles_table :=
  if filtered_out platform_ids e.1 then acc
  else
    let acc :=
      if ODict.mem e.1 acc then acc else ODict.set e.1 [] acc in
    ODict.set e.1 (merge_titles (default [] (ODict.get e.1 acc)) e.2) acc.

(** The display name that the last section of a platform gives it in a
    file; [None] when the file has no section for the platform or
    cannot be read. *)
Definition last_section_name (f : file) (platform_id : string)
  : option string :=
  match find_last (fun s => String.eqb s.1.1 platform_id) (read_sections f)
  with
  | Some (_, name, _) => Some name
  | None => None
  end.

Definition has_section (f : file) (platform_id : string) : bool :=
  match last_section_name f platform_id with
  | Some _ => true
  | None => false
  end.

(** Files in ascending order of their names: no file has a name below
    that of an earlier one. *)
Definition names_ascending (files : list file) : Prop :=
  StronglySorted (fun f g => String.ltb (name g) (name f) = false) files.

End ParserReads.

(** ** mcp_server/tools/search_tools.py, continued *)

Module SearchOrder.
Import SearchTools.
Local Open Scope string_scope.

(** The comparison of the sort keys that [sort_by] selects in
    [search_news_unified]: the key of [x] is below that of [y]. *)
Definition sort_below (sort_by : string) (x y : news_item) : bool :=
  if String.eqb sort_by "relevance"
  then Qltb (similarity_score x) (similarity_score y)
  else if String.eqb sort_by "weight"
  then Qltb (item_weight x) (item_weight y)
  else String.ltb (date x) (date y).

(** [s.isascii()]: every character of the text is an ASCII character.
    On such texts [Str.lower] is [str.lower] and the substring test is
    that of Python. *)
Fixpoint isascii (s : string) : bool :=
  match s with
  | "" => true
  | String c s' => (nat_of_ascii c <? 128)%nat && isascii s'
  end.

(** A list in the order of a descending sort: no element is below a
    later one. *)
Definition descending {A} (below : A -> A -> bool) (l : list A) : Prop :=
  StronglySorted (fun x y => below x y = false) l.

End SearchOrder.

(** ** mcp_server/tools/analytics.py, continued *)

Module Trend.
Import Str Analytics.
Local Open Scope Q_scope.











Section TrendAnalysis.
(** [validate_keyword] and [validate_date_range] of
    [utils/validators.py], the outcome of
    [parser.read_all_titles_for_date(date=d)] for each day [d], and
    the day of [datetime.now()]. *)
Variable validate_keyword : string -> string + exn.
Variable validate_date_range : string * string -> Z * Z + exn.
Variable read_all_titles_for_date :
  Z -> ParserService.day_index + exn.
Variable today : Z.




End TrendAnalysis.
End Trend.
(* ===================================================================== *)
(** * Part II: properties                                                 *)
(* ===================================================================== *)

(** ** The cache *)

Section CacheProperties.
Import CacheService.
Context {V : Type}.
Implicit Types (s : CacheService.t V) (key : string) (now ttl : Q).

Lemma Qltb_lt (x y : Q) : Qltb x y = true <-> (x < y)%Q.
Proof.
  unfold Qltb. rewrite negb_true_iff.
  split.
  - intros H. apply Qnot_le_lt. intros Hle.
    apply Qle_bool_iff in Hle. congruence.
  - intros H. destruct (Qle_bool y x) eqn:E; [|done].
    apply Qle_bool_iff in E. exfalso. eapply Qlt_not_le; eauto.
Qed.

Lemma same_keys_lookup s key :
  same_keys s -> is_Some (_cache s !! key) <-> is_Some (_timestamps s !! key).
Proof.
  unfold same_keys. intros H. rewrite <- !elem_of_dom. by rewrite H.
Qed.

Lemma same_keys_init : same_keys (@init V).
Proof. unfold same_keys. simpl. by rewrite !dom_empty_L. Qed.

Lemma get_same_keys key ttl now s :
  same_keys s ->
  same_keys (get key ttl now s).1 /\ raised (get key ttl now s).2 = false.
Proof.
  intros H. unfold get.
  destruct (_cache s !! key) as [v|] eqn:Ec; [|done].
  destruct (_timestamps s !! key) as [stored|] eqn:Et.
  - destruct (Qltb _ _); [done|]. split; [|done].
    unfold same_keys in *. simpl. rewrite !dom_delete_L. by rewrite H.
  - exfalso. apply (same_keys_lookup s key) in H.
    rewrite Ec, Et in H. destruct H as [H _].
    destruct H; [eauto | done].
Qed.

Lemma set_same_keys key (v : V) now s :
  same_keys s ->
  same_keys (set key v now s).1 /\ raised (set key v now s).2 = false.
Proof.
  intros H. split; [|done]. unfold same_keys in *. simpl.
  rewrite !dom_insert_L. by rewrite H.
Qed.

Lemma del_pair_same_keys key s :
  same_keys s -> is_Some (_cache s !! key) ->
  exists s2, del_timestamps key (del_cache key s).1 = (s2, Return tt) /\
             (del_cache key s).2 = Return tt /\
             same_keys s2 /\
             _cache s2 = base.delete key (_cache s) /\
             _timestamps s2 = base.delete key (_timestamps s).
Proof.
  intros H Hc. pose proof (proj1 (same_keys_lookup s key H) Hc) as Ht.
  destruct Hc as [v Hv], Ht as [ts Hts].
  unfold del_cache, del_timestamps. rewrite Hv. simpl. rewrite Hts.
  eexists. split; [done|]. split; [done|]. split; [|done].
  unfold same_keys in *. simpl. rewrite !dom_delete_L. by rewrite H.
Qed.

Lemma delete_same_keys key s :
  same_keys s ->
  same_keys (delete key s).1 /\ raised (delete key s).2 = false.
Proof.
  intros H. unfold delete.
  destruct (_cache s !! key) as [v|] eqn:Ec; [|done].
  destruct (del_pair_same_keys key s H) as (s2 & E2 & E1 & Hs2 & _);
    [by rewrite Ec|].
  destruct (del_cache key s) as [s1 o1]. simpl in *. subst o1.
  rewrite E2. done.
Qed.

Lemma clear_same_keys s :
  same_keys (clear s).1 /\ raised (clear s).2 = false.
Proof. split; [|done]. unfold same_keys. simpl. by rewrite !dom_empty_L. Qed.

Lemma delete_keys_same_keys keys s :
  same_keys s -> NoDup keys ->
  (forall k, k ∈ keys -> is_Some (_timestamps s !! k)) ->
  same_keys (delete_keys keys s).1 /\ (delete_keys keys s).2 = Return tt.
Proof.
  revert s. induction keys as [|k keys IH]; intros s H Hnd Hin; [done|].
  simpl. apply NoDup_cons in Hnd as [Hk Hnd].
  assert (is_Some (_cache s !! k)) as Hc.
  { apply (same_keys_lookup s k H), Hin. by left. }
  destruct (del_pair_same_keys k s H Hc) as (s2 & E2 & E1 & Hs2 & _ & Et).
  destruct (del_cache k s) as [s1 o1]. simpl in *. subst o1.
  rewrite E2. apply IH; [done|done|].
  intros k' Hk'. rewrite Et. rewrite lookup_delete_ne.
  - apply Hin. by right.
  - intros ->. done.
Qed.

Lemma expired_keys_NoDup ttl now s : NoDup (expired_keys ttl now s).
Proof.
  unfold expired_keys.
  pose proof (NoDup_fst_map_to_list (_timestamps s)) as H.
  induction (map_to_list (_timestamps s)) as [|[k q] l IH]; simpl; [constructor|].
  simpl in H. apply NoDup_cons in H as [Hk H].
  destruct (Qgeb _ _); simpl; [|by apply IH].
  apply NoDup_cons. split; [|by apply IH].
  intros Hin. apply Hk. apply list_elem_of_fmap in Hin as [[k' q'] [-> Hin]].
  apply list_elem_of_fmap. exists (k', q'). split; [done|].
  apply list_elem_of_In in Hin. apply filter_In in Hin as [Hin _].
  by apply list_elem_of_In.
Qed.

Lemma expired_keys_present ttl now s k :
  k ∈ expired_keys ttl now s -> is_Some (_timestamps s !! k).
Proof.
  unfold expired_keys. intros Hin.
  apply list_elem_of_fmap in Hin as [[k' q'] [-> Hin]].
  apply list_elem_of_In in Hin. apply filter_In in Hin as [Hin _].
  apply list_elem_of_In in Hin. apply elem_of_map_to_list in Hin. eauto.
Qed.

Lemma cleanup_expired_same_keys ttl now s :
  same_keys s ->
  same_keys (cleanup_expired ttl now s).1 /\
  raised (cleanup_expired ttl now s).2 = false.
Proof.
  intros H. unfold cleanup_expired.
  destruct (delete_keys_same_keys (expired_keys ttl now s) s H
              (expired_keys_NoDup ttl now s)
              (expired_keys_present ttl now s)) as [H1 H2].
  destruct (delete_keys _ s) as [s1 o]. simpl in *. by subst o.
Qed.

Lemma step_same_keys c now s :
  same_keys s -> same_keys (step c now s).1 /\ (step c now s).2 = false.
Proof.
  intros H. destruct c; simpl.
  - by apply get_same_keys.
  - by apply set_same_keys.
  - by apply delete_same_keys.
  - apply (clear_same_keys s).
  - by apply cleanup_expired_same_keys.
Qed.

Lemma run_same_keys calls s :
  same_keys s -> same_keys (run calls s).1 /\ (run calls s).2 = false.
Proof.
  revert s. induction calls as [|[c now] calls IH]; intros s H; [done|].
  simpl. destruct (step_same_keys c now s H) as [H1 H2].
  destruct (IH _ H1) as [H3 H4]. rewrite H2, H4. done.
Qed.

End CacheProperties.

Section CacheClaims.
Import CacheService.
Context {V : Type}.
Implicit Types (s : CacheService.t V) (key : string) (now ttl : Q).

Lemma set_stores key (value : V) now s :
  let s' := (set key value now s).1 in
  (set key value now s).2 = Return tt /\
  _cache s' !! key = Some value /\
  _timestamps s' !! key = Some now /\
  (forall k, k <> key ->
     _cache s' !! k = _cache s !! k /\
     _timestamps s' !! k = _timestamps s !! k).
Proof.
  simpl. split; [done|]. rewrite !lookup_insert_eq. do 2 (split; [done|]).
  intros k Hk. by rewrite !lookup_insert_ne.
Qed.

Lemma get_absent key ttl now s :
  _cache s !! key = None -> get key ttl now s = (s, Return None).
Proof. unfold get. by intros ->. Qed.

(** C2.  When an entry for [key] exists, [get] returns the stored value
    exactly when [now - storedAt < ttl]; otherwise it deletes the entry
    from both dictionaries and returns [None], and so does every later
    [get] of that key.  [set], on any cache, whether or not it holds
    the key, stores the value with the current clock reading, whatever
    was stored before, and leaves the other keys alone: a later [get]
    of the key returns the new value exactly when it is made less than
    its [ttl] after the [set]. *)
Theorem cache_get_fresh_iff_set_overwrites
    s key ttl now (value : V) (now' : Q) :
  (forall (v : V) (stored : Q),
      _cache s !! key = Some v ->
      _timestamps s !! key = Some stored ->
      ((get key ttl now s).2 = Return (Some v) <-> (now - stored < ttl)%Q) /\
      ((now - stored < ttl)%Q -> get key ttl now s = (s, Return (Some v))) /\
      (~ (now - stored < ttl)%Q ->
         let s' := (get key ttl now s).1 in
         (get key ttl now s).2 = Return None /\
         _cache s' = base.delete key (_cache s) /\
         _timestamps s' = base.delete key (_timestamps s) /\
         forall ttl2 now2, get key ttl2 now2 s' = (s', Return None))) /\
  (let s' := (set key value now' s).1 in
     (set key value now' s).2 = Return tt /\
     _cache s' !! key = Some value /\
     _timestamps s' !! key = Some now' /\
     (forall k, k <> key ->
        _cache s' !! k = _cache s !! k /\
        _timestamps s' !! k = _timestamps s !! k) /\
     (forall ttl2 now2,
        (now2 - now' < ttl2)%Q ->
        get key ttl2 now2 s' = (s', Return (Some value))) /\
     (forall ttl2 now2,
        ~ (now2 - now' < ttl2)%Q ->
        (get key ttl2 now2 s').2 = Return None)).
Proof.
  split.
  - intros v stored Hc Ht.
    assert (Hget : get key ttl now s =
                   if Qltb (now - stored) ttl then (s, Return (Some v))
                   else ({| _cache := base.delete key (_cache s);
                            _timestamps := base.delete key (_timestamps s) |},
                         Return None)).
    { unfold get. rewrite Hc, Ht. done. }
    pose proof (Qltb_lt (now - stored) ttl) as Hlt.
    split; [|split].
    + rewrite Hget. destruct (Qltb _ _); simpl.
      * split; [intros _; by apply Hlt | done].
      * split; [done|]. intros H. apply Hlt in H. done.
    + intros H. apply Hlt in H. by rewrite Hget, H.
    + intros H. rewrite Hget.
      destruct (Qltb _ _); [exfalso; apply H; by apply Hlt|].
      simpl. do 3 (split; [done|]).
      intros ttl2 now2. apply get_absent. simpl. apply lookup_delete_eq.
  - destruct (set_stores key value now' s) as (Hr & Hc & Ht & Hframe).
    cbv zeta. do 4 (split; [done|]).
    split; intros ttl2 now2 H; unfold get; rewrite Hc, Ht;
      pose proof (Qltb_lt (now2 - now') ttl2) as Hlt.
    + apply Hlt in H. by rewrite H.
    + destruct (Qltb (now2 - now') ttl2); [|done].
      exfalso. apply H. by apply Hlt.
Qed.

(** C10.  On an instance built by [__init__], after any history of
    [get], [set], [delete], [clear] and [cleanup_expired] calls, made at
    any clock readings, the value dictionary and the timestamp
    dictionary have the same keys, and no call of the history raised. *)
Theorem cache_dicts_share_keys (calls : list (call V * Q)) :
  dom (_cache (run calls init).1) = dom (_timestamps (run calls init).1) /\
  (run calls init).2 = false.
Proof. apply run_same_keys, same_keys_init. Qed.

End CacheClaims.

(** A key stored at time 100 in an empty cache and read with a window
    of 10 seconds: fresh at time 105, expired and removed at time
    111. *)
Lemma cache_get_fresh_iff_set_overwrites_witness :
  let s := (CacheService.set "k" 7%nat 100 CacheService.init).1 in
  CacheService._cache (CacheService.init (V := nat)) !! "k"%string = None /\
  CacheService.get "k" 10 105 s = (s, CacheService.Return (Some 7%nat)) /\
  (CacheService.get "k" 10 111 s).2 = CacheService.Return None /\
  (forall ttl2 now2,
      CacheService.get "k" ttl2 now2 (CacheService.get "k" 10 111 s).1
      = ((CacheService.get "k" 10 111 s).1, CacheService.Return None)).
Proof.
  intros s. split; [reflexivity|].
  destruct (cache_get_fresh_iff_set_overwrites
              (CacheService.init (V := nat)) "k" 10 105 7%nat 100)
    as (_ & _ & _ & _ & _ & Hfresh & _).
  destruct (cache_get_fresh_iff_set_overwrites s "k" 10 111 7%nat 100)
    as (Hget & _).
  destruct (Hget 7%nat 100%Q) as (_ & _ & Hstale);
    [vm_compute; reflexivity | vm_compute; reflexivity |].
  destruct Hstale as (Hnone & _ & _ & Hlater);
    [vm_compute; discriminate|].
  split; [|split].
  - apply Hfresh. vm_compute. reflexivity.
  - exact Hnone.
  - exact Hlater.
Defined.

(** ** Ordered dictionaries *)

Section ODictFacts.
Context {V : Type}.
Implicit Types (d : ODict.t V) (k : string) (v : V).

Local Abbreviation keys := ODict.keys.

Lemma odict_get_set_eq k v d : ODict.get k (ODict.set k v d) = Some v.
Proof.
  induction d as [|[k' v'] d IH]; simpl.
  - by rewrite String.eqb_refl.
  - destruct (String.eqb k k') eqn:E; simpl; rewrite ?String.eqb_refl, ?E; done.
Qed.

Lemma odict_get_set_ne k k' v d :
  k <> k' -> ODict.get k' (ODict.set k v d) = ODict.get k' d.
Proof.
  intros Hne. induction d as [|[k2 v2] d IH]; simpl.
  - destruct (String.eqb k' k) eqn:E; [|done].
    apply String.eqb_eq in E. congruence.
  - destruct (String.eqb k k2) eqn:E; simpl.
    + apply String.eqb_eq in E. subst k2.
      destruct (String.eqb k' k) eqn:E'; [|done].
      apply String.eqb_eq in E'. congruence.
    + by rewrite IH.
Qed.

Lemma odict_get_set k k' v d :
  ODict.get k' (ODict.set k v d) =
  if String.eqb k' k then Some v else ODict.get k' d.
Proof.
  destruct (String.eqb k' k) eqn:E.
  - apply String.eqb_eq in E. subst. apply odict_get_set_eq.
  - apply String.eqb_neq in E. apply odict_get_set_ne. congruence.
Qed.

Lemma odict_get_None k d : ODict.get k d = None <-> ~ In k (keys d).
Proof.
  induction d as [|[k' v'] d IH]; simpl; [split; [intros _ []|done]|].
  destruct (String.eqb k k') eqn:E.
  - apply String.eqb_eq in E. subst. split; [done|]. intros H. exfalso. auto.
  - apply String.eqb_neq in E. rewrite IH. split.
    + intros H [H1|H1]; [congruence|done].
    + intros H H1. apply H. by right.
Qed.

Lemma keys_set k v d :
  forall k', In k' (keys (ODict.set k v d)) <-> k' = k \/ In k' (keys d).
Proof.
  intros k'. induction d as [|[k2 v2] d IH]; simpl.
  - split; [intros [->|[]]; by left | intros [->|[]]; by left].
  - destruct (String.eqb k k2) eqn:E; simpl.
    + apply String.eqb_eq in E. subst k2. intuition congruence.
    + rewrite IH. intuition congruence.
Qed.

Lemma NoDup_keys_set k v d :
  List.NoDup (keys d) -> List.NoDup (keys (ODict.set k v d)).
Proof.
  induction d as [|[k2 v2] d IH]; simpl; intros H.
  - constructor; [simpl; tauto | constructor].
  - inversion H as [|? ? Hk Hd]; subst.
    destruct (String.eqb k k2) eqn:E; simpl.
    + apply String.eqb_eq in E. subst k2. by constructor.
    + apply String.eqb_neq in E. constructor; [|by apply IH].
      intros Hin. apply keys_set in Hin as [->|Hin]; [done|]. by apply Hk.
Qed.

Lemma NoDup_keys_fold_set {A} (f : A -> string) (g : A -> V) (l : list A) d :
  List.NoDup (keys d) ->
  List.NoDup (keys (fold_left (fun acc e => ODict.set (f e) (g e) acc) l d)).
Proof.
  revert d. induction l as [|e l IH]; intros d H; simpl; [done|].
  apply IH. by apply NoDup_keys_set.
Qed.

(** [d.update(other)] takes every binding of [other]. *)
Lemma odict_get_update k d other :
  List.NoDup (keys other) ->
  ODict.get k (ODict.update d other) =
  match ODict.get k other with
  | Some v => Some v
  | None => ODict.get k d
  end.
Proof.
  unfold ODict.update. revert d.
  induction other as [|[k2 v2] other IH]; intros d Hnd; simpl; [done|].
  inversion Hnd as [|? ? Hk Hd]; subst.
  rewrite IH by done.
  destruct (String.eqb k k2) eqn:E.
  - apply String.eqb_eq in E. subst k2.
    apply odict_get_None in Hk. rewrite Hk. apply odict_get_set_eq.
  - apply String.eqb_neq in E.
    destruct (ODict.get k other); [done|].
    apply odict_get_set_ne. congruence.
Qed.

End ODictFacts.

Section ODictForall.
Context {V : Type}.
Implicit Types (d : ODict.t V) (k : string) (v : V).

Lemma odict_in_set k v d e :
  In e (ODict.set k v d) -> e = (k, v) \/ In e d.
Proof.
  induction d as [|[k2 v2] d IH]; simpl.
  - intros [<-|[]]. by left.
  - destruct (String.eqb k k2); simpl; intros [<-|H]; auto.
    destruct (IH H); auto.
Qed.

Lemma Forall_set (P : string * V -> Prop) k v d :
  List.Forall P d -> P (k, v) -> List.Forall P (ODict.set k v d).
Proof.
  intros Hd Hv. apply List.Forall_forall. intros e He.
  apply odict_in_set in He as [->|He]; [done|].
  eapply List.Forall_forall in Hd; eauto.
Qed.

Lemma odict_get_In k v d : ODict.get k d = Some v -> In (k, v) d.
Proof.
  induction d as [|[k2 v2] d IH]; simpl; [done|].
  destruct (String.eqb k k2) eqn:E.
  - apply String.eqb_eq in E. subst. intros [= ->]. by left.
  - intros H. right. by apply IH.
Qed.

End ODictForall.

(** ** The parser *)

Section ParserFacts.
Import ParserService.
Local Abbreviation keys := ODict.keys.

Lemma parse_title_line_one_rank line :
  length (ranks (parse_title_line line).2) = 1%nat.
Proof.
  unfold parse_title_line.
  destruct (take_rank _) as [[r|] tp];
    destruct (take_tag " [MOBILE:" tp) as [tp1 m];
    destruct (take_tag " [URL:" tp1) as [tp2 u]; reflexivity.
Qed.

Lemma section_titles_wf entries :
  List.Forall (fun e : string * TitleInfo => length (ranks e.2) = 1%nat)
              entries ->
  titles_wf (fold_left (fun d e => ODict.set e.1 e.2 d) entries []).
Proof.
  intros H.
  assert (G : forall d, titles_wf d ->
            titles_wf (fold_left (fun d e => ODict.set e.1 e.2 d) entries d)).
  { induction H as [|e entries He H IH]; intros d Hd; simpl; [done|].
    apply IH. destruct Hd as [H1 H2]. split.
    - by apply NoDup_keys_set.
    - apply Forall_set; [done|]. by destruct e. }
  apply G. split; constructor.
Qed.

Lemma section_entries_one_rank lines :
  List.Forall (fun e : string * TitleInfo => length (ranks e.2) = 1%nat)
              (section_entries lines).
Proof.
  unfold section_entries. apply List.Forall_forall. intros e He.
  apply in_map_iff in He as [line [<- _]]. apply parse_title_line_one_rank.
Qed.

Lemma read_section_one_rank section source_id name entries :
  read_section section = Some (source_id, name, entries) ->
  List.Forall (fun e : string * TitleInfo => length (ranks e.2) = 1%nat)
              entries.
Proof.
  unfold read_section. destruct (_ || _); [done|].
  destruct (_ <? _)%nat; [done|].
  destruct (parse_header _) as [sid nm]. intros [= _ _ <-].
  apply section_entries_one_rank.
Qed.

Lemma parse_section_wf acc section :
  table_wf acc.1 -> List.NoDup (keys acc.2) ->
  table_wf (parse_section acc section).1 /\
  List.NoDup (keys (parse_section acc section).2).
Proof.
  destruct acc as [tbl names]. simpl. intros [H1 H2] H3.
  destruct (read_section section) as [[[sid nm] entries]|] eqn:E; [|done].
  simpl. split; [split|].
  - by apply NoDup_keys_set.
  - apply Forall_set; [done|]. simpl.
    apply section_titles_wf. eapply read_section_one_rank; eauto.
  - by apply NoDup_keys_set.
Qed.

Lemma parse_txt_file_wf f table names :
  parse_txt_file f = inl (table, names) ->
  table_wf table /\ List.NoDup (keys names).
Proof.
  unfold parse_txt_file. destruct (content f) as [text|]; [|done].
  intros [= H].
  assert (G : forall l acc, table_wf acc.1 -> List.NoDup (keys acc.2) ->
              table_wf (fold_left parse_section l acc).1 /\
              List.NoDup (keys (fold_left parse_section l acc).2)).
  { induction l as [|x l IH]; intros acc Ha Hb; simpl; [done|].
    destruct (parse_section_wf acc x Ha Hb). by apply IH. }
  specialize (G (Str.split (Str.nl +:+ Str.nl) text) ([], [])).
  rewrite H in G. apply G; simpl; [split|]; constructor.
Qed.

End ParserFacts.

Section LastLineFacts.
Import ParserService.

Lemma find_snoc {A} (test : A -> bool) x l :
  List.find test (l ++ [x])
  = match List.find test l with
    | Some y => Some y
    | None => if test x then Some x else None
    end.
Proof.
  induction l as [|y l IH]; simpl; [by destruct (test x)|].
  by destruct (test y).
Qed.

Lemma find_last_cons {A} (test : A -> bool) x l :
  find_last test (x :: l)
  = match find_last test l with
    | Some y => Some y
    | None => if test x then Some x else None
    end.
Proof.
  unfold find_last. simpl. apply find_snoc.
Qed.

Lemma odict_get_fold_set {A V} (key : A -> string) (val : A -> V) k l :
  forall d,
    ODict.get k (fold_left (fun d e => ODict.set (key e) (val e) d) l d)
    = match find_last (fun e => String.eqb (key e) k) l with
      | Some e => Some (val e)
      | None => ODict.get k d
      end.
Proof.
  induction l as [|x l IH]; intros d; simpl; [done|].
  rewrite IH, find_last_cons.
  destruct (find_last _ l); [done|].
  rewrite odict_get_set, String.eqb_sym. by destruct (String.eqb (key x) k).
Qed.

Lemma parse_sections_table sections :
  forall acc,
    (fold_left parse_section sections acc).1
    = fold_left
        (fun d r =>
           ODict.set r.1.1
             (fold_left (fun d e => ODict.set e.1 e.2 d) r.2 []) d)
        (flat_map (fun section =>
                     match read_section section with
                     | Some r => [r]
                     | None => []
                     end) sections)
        acc.1.
Proof.
  induction sections as [|s sections IH]; intros [tbl names]; simpl; [done|].
  rewrite IH. destruct (read_section s) as [[[sid nm] entries]|]; done.
Qed.

(** What a file's parse holds for a title is the rank of the last line
    for that title in the last section of the platform. *)
Lemma file_ranks_last_line f p t : file_ranks f p t = last_line_ranks f p t.
Proof.
  unfold file_ranks, last_line_ranks, parse_txt_file, read_sections.
  destruct (content f) as [text|]; [|done].
  unfold ranks_of, ranks_in.
  pose proof (parse_sections_table (Str.split (Str.nl +:+ Str.nl) text)
                ([], [])) as Ht.
  destruct (fold_left parse_section _ _) as [titles_by_id names].
  simpl in Ht. subst titles_by_id.
  rewrite (odict_get_fold_set (fun r : string * string * _ => r.1.1)
             (fun r => fold_left (fun d e => ODict.set e.1 e.2 d) r.2 [])).
  destruct (find_last _ _) as [[[sid nm] entries]|]; simpl; [|done].
  rewrite (odict_get_fold_set (fun e : string * TitleInfo => e.1)
             (fun e => e.2)).
  by destruct (find_last _ entries).
Qed.

End LastLineFacts.

Section MergeFacts.
Import ParserService.
Local Abbreviation keys := ODict.keys.
Implicit Types (platform_ids : option (list string)) (p t : string).

Lemma ranks_in_absent (titles : ODict.t TitleInfo) t :
  ~ In t (keys titles) -> ranks_in titles t = [].
Proof. intros H. unfold ranks_in. apply odict_get_None in H. by rewrite H. Qed.

Lemma ranks_in_merge_titles (titles into : ODict.t TitleInfo) t :
  List.NoDup (keys titles) ->
  ranks_in (merge_titles into titles) t
  = ranks_in into t ++ ranks_in titles t.
Proof.
  unfold merge_titles. revert into.
  induction titles as [|[k i] titles IH]; intros into Hnd; simpl.
  - by rewrite app_nil_r.
  - inversion Hnd as [|? ? Hk Hd]; subst. rewrite IH by done.
    unfold ranks_in at 1 3 4. simpl.
    destruct (String.eqb t k) eqn:E.
    + apply String.eqb_eq in E. subst k.
      rewrite (ranks_in_absent titles t Hk), app_nil_r.
      destruct (ODict.get t into) as [old|] eqn:G;
        by rewrite odict_get_set_eq.
    + apply String.eqb_neq in E.
      destruct (ODict.get k into) as [old|] eqn:G;
        rewrite odict_get_set_ne by congruence; done.
Qed.

Lemma ranks_of_absent (table : titles_table) p t :
  ~ In p (keys table) -> ranks_of table p t = [].
Proof. intros H. unfold ranks_of. apply odict_get_None in H. by rewrite H. Qed.

Lemma get_after_ensure (into : titles_table) k p :
  default [] (ODict.get p
                (if ODict.mem k into then into else ODict.set k [] into))
  = default [] (ODict.get p into).
Proof.
  unfold ODict.mem. destruct (ODict.get k into) eqn:G; [done|].
  rewrite odict_get_set. destruct (String.eqb p k) eqn:E; [|done].
  apply String.eqb_eq in E. subst. by rewrite G.
Qed.

Lemma ranks_of_merge_platforms platform_ids (table into : titles_table) p t :
  table_wf table ->
  ranks_of (merge_platforms platform_ids into table) p t
  = ranks_of into p t
    ++ (if filtered_out platform_ids p then [] else ranks_of table p t).
Proof.
  unfold merge_platforms. revert into.
  induction table as [|[k d] table IH]; intros into [Hnd Hwf]; simpl.
  - destruct (filtered_out _ _); by rewrite app_nil_r.
  - inversion Hnd as [|? ? Hk Hd]; subst.
    inversion Hwf as [|? ? [Hdk _] Hwf']; subst. simpl in Hdk.
    rewrite IH by done. clear IH.
    unfold ranks_of at 3 4. simpl.
    destruct (String.eqb p k) eqn:E.
    + apply String.eqb_eq in E. subst k.
      rewrite (ranks_of_absent table p t Hk). simpl.
      destruct (filtered_out platform_ids p); [done|].
      rewrite app_nil_r. unfold ranks_of. rewrite odict_get_set_eq. simpl.
      rewrite ranks_in_merge_titles by done. f_equal.
      by rewrite get_after_ensure.
    + apply String.eqb_neq in E. f_equal.
      destruct (filtered_out platform_ids k); [done|].
      unfold ranks_of. rewrite odict_get_set_ne by congruence.
      by rewrite get_after_ensure.
Qed.

Lemma ranks_of_merge_file platform_ids acc f p t :
  ranks_of (all_titles (merge_file platform_ids acc f)) p t
  = ranks_of (all_titles acc) p t
    ++ (if filtered_out platform_ids p then [] else file_ranks f p t).
Proof.
  unfold merge_file, file_ranks.
  destruct (parse_txt_file f) as [[table names]|e] eqn:E; simpl.
  - apply ranks_of_merge_platforms. by apply (parse_txt_file_wf f table names).
  - destruct (filtered_out _ _); by rewrite app_nil_r.
Qed.

Lemma ranks_of_fold_merge_file platform_ids files acc p t :
  ranks_of (all_titles (fold_left (merge_file platform_ids) files acc)) p t
  = ranks_of (all_titles acc) p t
    ++ (if filtered_out platform_ids p then []
        else flat_map (fun f => file_ranks f p t) files).
Proof.
  revert acc. induction files as [|f files IH]; intros acc; simpl.
  - destruct (filtered_out _ _); by rewrite app_nil_r.
  - rewrite IH, ranks_of_merge_file.
    destruct (filtered_out _ _); by rewrite <- ?app_assoc.
Qed.

Lemma file_ranks_at_most_one f p t : (length (file_ranks f p t) <= 1)%nat.
Proof.
  unfold file_ranks.
  destruct (parse_txt_file f) as [[table names]|e] eqn:E; simpl; [|lia].
  destruct (parse_txt_file_wf f table names E) as [[_ Hwf] _].
  unfold ranks_of, ranks_in.
  destruct (ODict.get p table) as [d|] eqn:G; simpl; [|lia].
  apply odict_get_In in G. eapply List.Forall_forall in Hwf; eauto.
  destruct Hwf as [_ Hd]. simpl in Hd.
  destruct (ODict.get t d) as [i|] eqn:G'; [|simpl; lia].
  apply odict_get_In in G'. eapply List.Forall_forall in Hd; eauto.
  simpl in Hd. lia.
Qed.

(** C1, as the code has it.  After the files of a day are merged in
    ascending name order, the rank list of a title of a platform that
    passes the platform filter is the concatenation, in that file
    order, of what each file contributes; nothing is removed and
    nothing is reordered.  A file contributes at most one rank for a
    title, however many of its lines carry it: the rank of the last
    such line in the last section of the platform. *)
Theorem day_ranks_concatenate_across_files platform_ids txt_files p t :
  ranks_of (all_titles (merge_files platform_ids txt_files)) p t
  = (if filtered_out platform_ids p then []
     else flat_map (fun f => last_line_ranks f p t) (sorted txt_files))
  /\ (forall f, length (last_line_ranks f p t) <= 1)%nat.
Proof.
  split.
  - unfold merge_files. rewrite ranks_of_fold_merge_file.
    destruct (filtered_out platform_ids p); [done|]. simpl.
    induction (sorted txt_files) as [|f l IH]; simpl; [done|].
    by rewrite IH, file_ranks_last_line.
  - intros f. rewrite <- file_ranks_last_line. apply file_ranks_at_most_one.
Qed.

Lemma string_ltb_asym (a b : string) :
  String.ltb a b = true -> String.ltb b a = false.
Proof.
  unfold String.ltb. rewrite (String.compare_antisym b a).
  by destruct (String.compare a b).
Qed.

Lemma string_ltb_ge_trans (a b c : string) :
  String.ltb a b = false -> String.ltb b c = false -> String.ltb a c = false.
Proof.
  unfold String.ltb. intros Hab Hbc.
  destruct (String.compare a c) eqn:Hac; try done.
  destruct (String.compare a b) eqn:E1; [|done|].
  - apply String.compare_eq_iff in E1. subst. by rewrite Hac in Hbc.
  - destruct (String.compare b c) eqn:E2; [|done|].
    + apply String.compare_eq_iff in E2. subst. by rewrite Hac in E1.
    + assert (String.compare c b = Lt) as Hcb
        by (rewrite String.compare_antisym, E2; done).
      pose proof (@StrictOrder_Transitive _ _
                    OrdersEx.String_as_OT.lt_strorder a c b Hac Hcb) as H.
      change (String.compare a b = Lt) in H. congruence.
Qed.

Lemma insert_sorted_perm f fs : Permutation (insert_sorted f fs) (f :: fs).
Proof.
  induction fs as [|g fs IH]; simpl; [done|].
  destruct (String.ltb (name f) (name g)); [done|].
  rewrite IH. apply perm_swap.
Qed.

Lemma sorted_perm fs : Permutation (sorted fs) fs.
Proof.
  unfold sorted.
  assert (G : forall l acc,
             Permutation (fold_left (fun acc f => insert_sorted f acc) l acc)
                         (acc ++ l)).
  { induction l as [|f l IH]; intros acc; simpl.
    - by rewrite app_nil_r.
    - rewrite IH, insert_sorted_perm. simpl. apply Permutation_middle. }
  apply (G fs []).
Qed.

Lemma insert_sorted_ascending f fs :
  ParserReads.names_ascending fs ->
  ParserReads.names_ascending (insert_sorted f fs).
Proof.
  unfold ParserReads.names_ascending.
  induction 1 as [|g fs Hs IH Hg]; simpl.
  - repeat constructor.
  - destruct (String.ltb (name f) (name g)) eqn:E.
    + constructor; [by constructor|].
      constructor; [by apply string_ltb_asym|].
      eapply List.Forall_impl; [|exact Hg]. intros h Hh. simpl in *.
      destruct (String.ltb (name h) (name f)) eqn:E2; [|done].
      apply string_ltb_asym in E2.
      by rewrite (string_ltb_ge_trans _ _ _ E2 Hh) in E.
    + constructor; [done|].
      rewrite insert_sorted_perm. by constructor.
Qed.

Lemma sorted_ascending fs : ParserReads.names_ascending (sorted fs).
Proof.
  unfold sorted.
  assert (G : forall l acc,
             ParserReads.names_ascending acc ->
             ParserReads.names_ascending
               (fold_left (fun acc f => insert_sorted f acc) l acc)).
  { induction l as [|f l IH]; intros acc Ha; simpl; [done|].
    apply IH. by apply insert_sorted_ascending. }
  apply G. constructor.
Qed.

Lemma parse_sections_names sections :
  forall acc,
    (fold_left parse_section sections acc).2
    = fold_left
        (fun d r => ODict.set r.1.1 r.1.2 d)
        (flat_map (fun section =>
                     match read_section section with
                     | Some r => [r]
                     | None => []
                     end) sections)
        acc.2.
Proof.
  induction sections as [|s sections IH]; intros [tbl names]; simpl; [done|].
  rewrite IH. destruct (read_section s) as [[[sid nm] entries]|]; done.
Qed.

(** The display name that a file's parse holds for a platform is the
    one of the last section of the platform in the file. *)
Lemma file_name_last_section f p :
  match parse_txt_file f with
  | inl (_, file_id_to_name) => ODict.get p file_id_to_name
  | inr _ => None
  end = ParserReads.last_section_name f p.
Proof.
  unfold ParserReads.last_section_name, parse_txt_file, read_sections.
  destruct (content f) as [text|]; [|done].
  pose proof (parse_sections_names (Str.split (Str.nl +:+ Str.nl) text)
                ([], [])) as Hn.
  destruct (fold_left parse_section _ _) as [titles_by_id names].
  simpl in Hn. subst names.
  rewrite (odict_get_fold_set (fun r : string * string * _ => r.1.1)
             (fun r => r.1.2)).
  by destruct (find_last _ _) as [[[sid nm] entries]|].
Qed.

(** One file of the merge: a file that parses gives its display name to
    every platform id it has a section for, whether or not the id
    already had a name; the other ids keep their names, and a file
    that fails to parse changes nothing. *)
Lemma merge_file_display_name platform_ids acc f p :
  ODict.get p (id_to_name (merge_file platform_ids acc f))
  = match ParserReads.last_section_name f p with
    | Some name => Some name
    | None => ODict.get p (id_to_name acc)
    end.
Proof.
  rewrite <- file_name_last_section. unfold merge_file.
  destruct (parse_txt_file f) as [[table names]|e] eqn:E; simpl; [|done].
  apply odict_get_update. by apply (parse_txt_file_wf f table names).
Qed.

Lemma fold_merge_file_display_name platform_ids files acc p :
  ODict.get p (id_to_name (fold_left (merge_file platform_ids) files acc))
  = match find_last (fun f => ParserReads.has_section f p) files with
    | Some f => ParserReads.last_section_name f p
    | None => ODict.get p (id_to_name acc)
    end.
Proof.
  revert acc. induction files as [|f files IH]; intros acc; simpl; [done|].
  rewrite IH, find_last_cons.
  destruct (find_last _ files); [done|].
  rewrite merge_file_display_name. unfold ParserReads.has_section.
  by destruct (ParserReads.last_section_name f p) eqn:E; simpl; rewrite ?E.
Qed.

(** C8, as the code has it.  The files of a day are merged in ascending
    order of their names.  Each file in turn gives its display name to
    every platform id it has a section for, whether or not the id
    already had a name; the ids it has no section for keep their
    names, and a file that cannot be read changes nothing.  So the
    final display name of an id is the one given by the last file, in
    that order, that has a section for it, and an id that no file has a
    section for has no name. *)
Theorem later_file_display_name_wins platform_ids txt_files p :
  let files := sorted txt_files in
  Permutation files txt_files /\
  ParserReads.names_ascending files /\
  (forall earlier f later,
      files = earlier ++ f :: later ->
      let before :=
        fold_left (merge_file platform_ids) earlier empty_index in
      ODict.get p (id_to_name (merge_file platform_ids before f))
      = match ParserReads.last_section_name f p with
        | Some name => Some name
        | None => ODict.get p (id_to_name before)
        end) /\
  ODict.get p (id_to_name (merge_files platform_ids txt_files))
  = match find_last (fun f => ParserReads.has_section f p) files with
    | Some f => ParserReads.last_section_name f p
    | None => None
    end.
Proof.
  cbv zeta. split; [apply sorted_perm|]. split; [apply sorted_ascending|].
  split.
  - intros earlier f later _. apply merge_file_display_name.
  - unfold merge_files. by rewrite fold_merge_file_display_name.
Qed.

End MergeFacts.

(** ** The date parser *)

(** Linear arithmetic with division and remainder by constants. *)
Ltac zlia := Z.to_euclidean_division_equations; lia.

Section DateParserFacts.
Import DateParser.
Local Open Scope Z_scope.

Lemma weekday_range day : 0 <= Calendar.weekday day < 7.
Proof. unfold Calendar.weekday. zlia. Qed.

Lemma weekday_pred day :
  Calendar.weekday (day - 1) = (Calendar.weekday day - 1) mod 7.
Proof. unfold Calendar.weekday. zlia. Qed.

Lemma walk_back_distance steps day target :
  0 <= target < 7 ->
  (Calendar.weekday day - target) mod 7 < Z.of_nat steps ->
  walk_back steps day target = day - (Calendar.weekday day - target) mod 7.
Proof.
  intros Ht. revert day.
  induction steps as [|k IH]; intros day Hlt; [zlia|].
  simpl. pose proof (weekday_range day) as Hw.
  destruct (Calendar.weekday day =? target) eqn:E.
  - apply Z.eqb_eq in E. rewrite E, Z.sub_diag. simpl. zlia.
  - apply Z.eqb_neq in E. rewrite IH; rewrite weekday_pred; zlia.
Qed.

Lemma most_recent_occurrence_distance today target :
  0 <= target < 7 ->
  most_recent_occurrence today target
  = today - (Calendar.weekday today - target) mod 7.
Proof.
  intros Ht. unfold most_recent_occurrence.
  apply walk_back_distance; [done|]. simpl. zlia.
Qed.

Lemma most_recent_occurrence_weekday today target :
  0 <= target < 7 ->
  Calendar.weekday (most_recent_occurrence today target) = target /\
  today - 7 < most_recent_occurrence today target <= today.
Proof.
  intros Ht. rewrite most_recent_occurrence_distance by done.
  unfold Calendar.weekday. zlia.
Qed.

Lemma this_weekday_most_recent today target :
  0 <= target < 7 ->
  _get_date_by_weekday today target false
  = most_recent_occurrence today target.
Proof.
  intros Ht. rewrite most_recent_occurrence_distance by done.
  unfold _get_date_by_weekday. pose proof (weekday_range today).
  destruct (_ <? 0) eqn:E; [apply Z.ltb_lt in E|apply Z.ltb_ge in E]; zlia.
Qed.

Lemma last_weekday_previous_week today target :
  0 <= target < 7 ->
  _get_date_by_weekday today target true
  = (if Calendar.weekday today <? target
     then most_recent_occurrence today target
     else most_recent_occurrence today target - 7).
Proof.
  intros Ht. rewrite most_recent_occurrence_distance by done.
  unfold _get_date_by_weekday. pose proof (weekday_range today).
  destruct (_ <? target) eqn:E; [apply Z.ltb_lt in E|apply Z.ltb_ge in E]; zlia.
Qed.

End DateParserFacts.

Section DateParserClaims.
Import DateParser.
Local Open Scope Z_scope.
Local Open Scope string_scope.

Lemma parse_en_weekday :
  List.Forall
    (fun e : string * Z =>
       forall today,
         parse_date_query today ("this " +:+ e.1)
         = inl (_get_date_by_weekday today e.2 false) /\
         parse_date_query today ("last " +:+ e.1)
         = inl (_get_date_by_weekday today e.2 true))
    WEEKDAY_EN.
Proof. repeat constructor. Qed.

Lemma parse_cn_weekday :
  List.Forall
    (fun e : string * Z =>
       forall today,
         parse_date_query today ("本周" +:+ e.1)
         = inl (_get_date_by_weekday today e.2 false) /\
         parse_date_query today ("上周" +:+ e.1)
         = inl (_get_date_by_weekday today e.2 true))
    WEEKDAY_CN.
Proof. repeat constructor. Qed.

Lemma weekday_tables_range :
  List.Forall (fun e : string * Z => 0 <= e.2 < 7) (WEEKDAY_EN ++ WEEKDAY_CN).
Proof. repeat constructor; simpl; lia. Qed.

(** C3, as the code has it.  For each of the seven weekday names,
    whatever the current day: "this <weekday>" is the most recent day,
    today included, that falls on that weekday; "last <weekday>" is
    the day of that weekday in the Monday-to-Sunday week before
    today's, which lies seven days before the most recent occurrence
    when the weekday is not after today's in the week, and is the most
    recent occurrence itself when it is. *)
Theorem weekday_queries_resolve :
  List.Forall
    (fun e : string * Z =>
       forall today,
         parse_date_query today ("this " +:+ e.1)
         = inl (most_recent_occurrence today e.2) /\
         parse_date_query today ("last " +:+ e.1)
         = inl (today - Calendar.weekday today - 7 + e.2) /\
         today - Calendar.weekday today - 7 + e.2
         = (if (Calendar.weekday today <? e.2)%Z
            then most_recent_occurrence today e.2
            else most_recent_occurrence today e.2 - 7))
    WEEKDAY_EN.
Proof.
  pose proof parse_en_weekday as Hp.
  pose proof weekday_tables_range as Hr.
  apply List.Forall_app in Hr as [Hr _].
  rewrite List.Forall_forall in *. intros e He today.
  destruct (Hp e He today) as [Hthis Hlast]. specialize (Hr e He).
  rewrite Hthis, Hlast, this_weekday_most_recent by done.
  split; [done|].
  rewrite <- last_weekday_previous_week by done.
  unfold _get_date_by_weekday.
  split; [f_equal|]; lia.
Qed.

End DateParserClaims.

(** ** The news weight *)

Section WeightFacts.
Import Analytics.
Local Open Scope Q_scope.

Lemma len_pos {A} (l : list A) : l <> [] -> (0 < len l)%Z.
Proof. destruct l; [done|]. unfold len. simpl. lia. Qed.

Lemma Qdiv_le_mono (a b n : Z) :
  (0 < n)%Z -> (a <= b)%Z -> inject_Z a / inject_Z n <= inject_Z b / inject_Z n.
Proof.
  intros Hn Hab. unfold Qdiv. apply Qmult_le_compat_r.
  - by rewrite <- Zle_Qle.
  - apply Qinv_le_0_compat. replace 0 with (inject_Z 0) by done.
    rewrite <- Zle_Qle. lia.
Qed.

Lemma Forall2_le_length (ranks' ranks : list Z) :
  Forall2 Z.le ranks' ranks -> len ranks' = len ranks.
Proof. intros H. unfold len. by rewrite (Forall2_length _ _ _ H). Qed.

Lemma rank_scores_mono (ranks' ranks : list Z) :
  Forall2 Z.le ranks' ranks ->
  (sumZ (map (fun rank => 11 - Z.min rank 10) ranks)
   <= sumZ (map (fun rank => 11 - Z.min rank 10) ranks'))%Z.
Proof. induction 1; simpl; lia. Qed.

Lemma high_rank_count_mono thr (ranks' ranks : list Z) :
  Forall2 Z.le ranks' ranks ->
  (high_rank_count thr ranks <= high_rank_count thr ranks')%Z.
Proof.
  unfold high_rank_count, len.
  induction 1 as [|x y l' l Hxy H IH]; simpl; [lia|].
  destruct (y <=? thr)%Z eqn:Ey.
  - apply Z.leb_le in Ey.
    assert ((x <=? thr)%Z = true) as -> by (apply Z.leb_le; lia).
    simpl. lia.
  - destruct (x <=? thr)%Z; simpl; lia.
Qed.

Lemma rank_weight_mono (ranks' ranks : list Z) :
  ranks <> [] -> Forall2 Z.le ranks' ranks ->
  rank_weight ranks <= rank_weight ranks'.
Proof.
  intros Hne H. unfold rank_weight.
  rewrite (Forall2_le_length _ _ H).
  apply Qdiv_le_mono; [by apply len_pos | by apply rank_scores_mono].
Qed.

Lemma hotness_weight_mono thr (ranks' ranks : list Z) :
  ranks <> [] -> Forall2 Z.le ranks' ranks ->
  hotness_weight thr ranks <= hotness_weight thr ranks'.
Proof.
  intros Hne H. unfold hotness_weight, hotness_ratio.
  rewrite (Forall2_le_length _ _ H).
  apply Qmult_le_compat_r; [|done].
  apply Qdiv_le_mono; [by apply len_pos | by apply high_rank_count_mono].
Qed.

Lemma frequency_weight_mono (c c' : Z) :
  (c <= c')%Z -> frequency_weight c <= frequency_weight c'.
Proof. intros H. unfold frequency_weight. rewrite <- Zle_Qle. lia. Qed.

Lemma weight_nonempty (d : news_data) thr :
  ranks d <> [] ->
  calculate_news_weight d thr
  = rank_weight (ranks d) * RANK_WEIGHT
    + frequency_weight (default (len (ranks d)) (count d)) * FREQUENCY_WEIGHT
    + hotness_weight thr (ranks d) * HOTNESS_WEIGHT.
Proof. unfold calculate_news_weight. by destruct (ranks d). Qed.

(** C7, as the code has it.  For a record with a non-empty rank list
    the weight does not decrease (1) when ranks are replaced by lower
    ranks with the count unchanged, (2) when the count grows with the
    rank list unchanged (beyond 10 it no longer moves), (3) when the
    proportion of ranks at most [rank_threshold] grows while the mean
    rank score and the count stay the same. *)
Theorem news_weight_monotone :
  (forall ranks ranks' count thr,
      ranks <> [] -> Forall2 Z.le ranks' ranks ->
      calculate_news_weight {| ranks := ranks; count := count |} thr
      <= calculate_news_weight {| ranks := ranks'; count := count |} thr) /\
  (forall ranks c c' thr,
      ranks <> [] -> (c <= c')%Z ->
      calculate_news_weight {| ranks := ranks; count := Some c |} thr
      <= calculate_news_weight {| ranks := ranks; count := Some c' |} thr) /\
  (forall ranks c c' thr,
      ranks <> [] -> (10 <= c)%Z -> (10 <= c')%Z ->
      calculate_news_weight {| ranks := ranks; count := Some c |} thr
      == calculate_news_weight {| ranks := ranks; count := Some c' |} thr) /\
  (forall ranks ranks' c thr,
      ranks <> [] -> ranks' <> [] ->
      rank_weight ranks == rank_weight ranks' ->
      hotness_ratio thr ranks <= hotness_ratio thr ranks' ->
      calculate_news_weight {| ranks := ranks; count := Some c |} thr
      <= calculate_news_weight {| ranks := ranks'; count := Some c |} thr).
Proof.
  split; [|split; [|split]].
  - intros ranks ranks' count thr Hne H.
    assert (ranks' <> []) as Hne'.
    { intros ->. inversion H. by subst. }
    rewrite !weight_nonempty by done. simpl.
    assert (default (len ranks) count = default (len ranks') count) as ->.
    { destruct count; simpl; [done|]. symmetry. by apply Forall2_le_length. }
    apply Qplus_le_compat; [apply Qplus_le_compat|].
    + apply Qmult_le_compat_r; [by apply rank_weight_mono | done].
    + apply Qle_refl.
    + apply Qmult_le_compat_r; [by apply hotness_weight_mono | done].
  - intros ranks c c' thr Hne Hc.
    rewrite !weight_nonempty by done. simpl.
    apply Qplus_le_compat; [apply Qplus_le_compat|]; try apply Qle_refl.
    apply Qmult_le_compat_r; [by apply frequency_weight_mono | done].
  - intros ranks c c' thr Hne Hc Hc'.
    rewrite !weight_nonempty by done. simpl.
    unfold frequency_weight. rewrite !Z.min_r by lia. reflexivity.
  - intros ranks ranks' c thr Hne Hne' Hr Hh.
    rewrite !weight_nonempty by done. simpl.
    apply Qplus_le_compat; [apply Qplus_le_compat|].
    + rewrite Hr. apply Qle_refl.
    + apply Qle_refl.
    + apply Qmult_le_compat_r; [|done].
      unfold hotness_weight. by apply Qmult_le_compat_r.
Qed.

End WeightFacts.

Section WeightClaims.
Import Analytics.
Local Open Scope Q_scope.

(** One instance of each case. *)
Lemma news_weight_monotone_witness :
  calculate_news_weight {| ranks := [7; 3]%Z; count := Some 2%Z |} 5
  <= calculate_news_weight {| ranks := [4; 3]%Z; count := Some 2%Z |} 5 /\
  calculate_news_weight {| ranks := [7; 3]%Z; count := Some 2%Z |} 5
  <= calculate_news_weight {| ranks := [7; 3]%Z; count := Some 9%Z |} 5 /\
  calculate_news_weight {| ranks := [7; 3]%Z; count := Some 10%Z |} 5
  == calculate_news_weight {| ranks := [7; 3]%Z; count := Some 12%Z |} 5 /\
  calculate_news_weight {| ranks := [3; 7]%Z; count := Some 2%Z |} 5
  <= calculate_news_weight {| ranks := [5; 5]%Z; count := Some 2%Z |} 5.
Proof.
  destruct news_weight_monotone as (Hranks & Hcount & Hcap & Hhot).
  split; [|split; [|split]].
  - apply Hranks; [discriminate|]. repeat constructor; lia.
  - apply Hcount; [discriminate | lia].
  - apply Hcap; [discriminate | lia | lia].
  - apply Hhot; [discriminate | discriminate | reflexivity |].
    vm_compute. discriminate.
Defined.

(** C7, third part as stated: a higher proportion of ranks at most 5
    can come with a lower weight.  Six ranks of 6 weigh 21; one rank
    of 5 with five ranks of 10 has the higher proportion (1/6 against
    0) and weighs 623/30. *)
Lemma higher_top_proportion_lower_weight :
  let a := {| ranks := [6; 6; 6; 6; 6; 6]%Z; count := None |} in
  let b := {| ranks := [5; 10; 10; 10; 10; 10]%Z; count := None |} in
  hotness_ratio 5 (ranks a) == 0 /\
  hotness_ratio 5 (ranks b) == 1 # 6 /\
  calculate_news_weight a 5 == 21 /\
  calculate_news_weight b 5 == 623 # 30 /\
  ~ (calculate_news_weight a 5 <= calculate_news_weight b 5).
Proof. vm_compute. repeat split; try reflexivity. intros H. by apply H. Qed.

End WeightClaims.

(** ** The lifecycle classification *)

Section LifecycleFacts.
Import Analytics.
Local Open Scope Q_scope.

Lemma max_nat_le_sum_positive (counts : list nat) :
  (max_nat counts
   <= sum_nat (List.filter (fun c => (0 <? c)%nat) counts))%nat.
Proof.
  induction counts as [|c counts IH]; simpl; [lia|].
  destruct c; simpl; lia.
Qed.

(** With at most two active days the peak is at most twice the mean
    of the positive counts. *)
Lemma peak_at_most_twice_average (counts : list nat) :
  (count_active_days counts <= 2)%nat ->
  nat_as_Q (max_nat counts) <= average_count counts * 2.
Proof.
  unfold count_active_days, average_count.
  pose proof (max_nat_le_sum_positive counts) as Hmax.
  set (nz := List.filter _ counts) in *.
  intros Hlen. unfold nat_as_Q.
  destruct nz as [|a [|b [|c nz]]]; simpl in Hlen; [| | |lia].
  - simpl in Hmax. assert (max_nat counts = 0%nat) as -> by lia. done.
  - unfold len. simpl length. simpl sum_nat in *.
    unfold Qle, Qdiv, Qmult, Qinv. simpl. lia.
  - unfold len. simpl length. simpl sum_nat in *.
    unfold Qle, Qdiv, Qmult, Qinv. simpl. lia.
Qed.

(** No series of daily counts is ever classified as a flash topic. *)
Lemma classify_type_never_flash total_days (counts : list nat) :
  classify_type total_days counts <> Flash.
Proof.
  unfold classify_type.
  destruct (count_active_days counts <=? 2)%nat eqn:E; simpl.
  - apply Nat.leb_le in E.
    pose proof (peak_at_most_twice_average counts E) as H.
    apply Qle_bool_iff in H. unfold Qgtb. rewrite H.
    cbn [negb andb]. by case_match.
  - by case_match.
Qed.

End LifecycleFacts.

(** ** The sequence matcher *)

Section DifflibFacts.
Context {A : Type} (eqb : A -> A -> bool).
Hypothesis eqb_eq : forall x y, eqb x y = true <-> x = y.
Import Difflib.
Local Open Scope nat_scope.

Lemma common_prefix_agrees (a b : list A) :
  common_prefix eqb a b <= length a /\
  common_prefix eqb a b <= length b /\
  firstn (common_prefix eqb a b) a = firstn (common_prefix eqb a b) b.
Proof using Type*.
  revert b. induction a as [|x a IH]; intros [|y b]; simpl;
    try (repeat split; (lia || done)).
  destruct (eqb x y) eqn:E; simpl; [|repeat split; (lia || done)].
  apply eqb_eq in E. subst y. destruct (IH b) as (H1 & H2 & H3).
  repeat split; try lia. by rewrite H3.
Qed.

Lemma best_in_row_valid (a b : list A) i :
  forall bj j best,
    skipn j b = bj -> i <= length a ->
    valid_block a b best ->
    valid_block a b (best_in_row eqb (skipn i a) bj i j best).
Proof using Type*.
  induction bj as [|y bj IH]; intros j best Hj Hi Hbest; simpl; [done|].
  apply IH; [| done |].
  - rewrite <- (Nat.add_1_l j), <- skipn_skipn, Hj. done.
  - destruct (best.2 <? _) eqn:E; [|done].
    pose proof (common_prefix_agrees (skipn i a) (y :: bj)) as (H1 & H2 & H3).
    set (k := common_prefix eqb (skipn i a) (y :: bj)) in *.
    assert (length (y :: bj) = length b - j) as Hlen
      by (by rewrite <- Hj, length_skipn).
    rewrite length_skipn in H1. rewrite Hlen in H2.
    assert (j < length b) by (simpl in Hlen; lia).
    unfold valid_block. rewrite Hj. repeat split; try lia. done.
Qed.

Lemma best_from_valid (a b : list A) :
  forall ai i best,
    skipn i a = ai -> i <= length a ->
    valid_block a b best ->
    valid_block a b (best_from eqb ai b i best).
Proof using Type*.
  induction ai as [|x ai IH]; intros i best Hi Hle Hbest; simpl; [done|].
  assert (i < length a) as Hlt.
  { destruct (decide (i < length a)); [done|].
    rewrite skipn_all2 in Hi by lia. done. }
  apply IH.
  - rewrite <- (Nat.add_1_l i), <- skipn_skipn, Hi. done.
  - lia.
  - rewrite <- Hi. apply best_in_row_valid; [done | lia | done].
Qed.

Lemma find_longest_match_valid (a b : list A) :
  valid_block a b (find_longest_match eqb a b).
Proof using Type*.
  unfold find_longest_match. apply best_from_valid; [done | lia |].
  unfold valid_block. simpl. repeat split; lia.
Qed.

Lemma matches_bounded fuel (a b : list A) :
  matches eqb fuel a b <= length a /\ matches eqb fuel a b <= length b.
Proof using Type*.
  revert a b. induction fuel as [|fuel IH]; intros a b; simpl; [lia|].
  pose proof (find_longest_match_valid a b) as Hv.
  destruct (find_longest_match eqb a b) as [[i j] k].
  destruct Hv as (Ha & Hb & _).
  destruct k as [|k]; [lia|].
  pose proof (IH (firstn i a) (firstn j b)) as [L1 L2].
  pose proof (IH (skipn (i + S k) a) (skipn (j + S k) b)) as [R1 R2].
  rewrite length_firstn in L1, L2. rewrite length_skipn in R1, R2. lia.
Qed.

Lemma split_at_block (l : list A) i k :
  l = firstn i l ++ firstn k (skipn i l) ++ skipn (i + k) l.
Proof using Type*.
  rewrite <- (firstn_skipn i l) at 1. f_equal.
  rewrite <- (firstn_skipn k (skipn i l)) at 1. f_equal.
  rewrite skipn_skipn. f_equal. lia.
Qed.

(** When the blocks cover both sequences entirely, the sequences are
    the same. *)
Lemma matches_full_eq fuel (a b : list A) :
  matches eqb fuel a b = length a -> length a = length b -> a = b.
Proof using Type*.
  revert a b. induction fuel as [|fuel IH]; intros a b; simpl.
  - intros Ha Hb. destruct a; [|done]. destruct b; done.
  - pose proof (find_longest_match_valid a b) as Hv.
    destruct (find_longest_match eqb a b) as [[i j] k].
    destruct Hv as (Ha & Hb & Hmid).
    destruct k as [|k].
    { intros H0 Hlen. destruct a; [|done]. destruct b; done. }
    pose proof (matches_bounded fuel (firstn i a) (firstn j b)) as [L1 L2].
    pose proof (matches_bounded fuel (skipn (i + S k) a) (skipn (j + S k) b))
      as [R1 R2].
    rewrite length_firstn in L1, L2. rewrite length_skipn in R1, R2.
    intros Hm Hlen.
    assert (i = j) as <- by lia.
    rewrite (split_at_block a i (S k)), (split_at_block b i (S k)).
    f_equal; [|f_equal; [done|]].
    + apply IH; rewrite !length_firstn; lia.
    + apply IH; rewrite !length_skipn; lia.
Qed.

Lemma ratio_one_eq (a b : list A) : (1 <= ratio eqb a b)%Q -> a = b.
Proof using Type*.
  unfold ratio.
  destruct (length a + length b) as [|n] eqn:E.
  { intros _. destruct a; [|done]. destruct b; done. }
  pose proof (matches_bounded (S (length a)) a b) as [Ma Mb].
  intros H.
  assert (Z.of_nat (S n) <= 2 * Z.of_nat (matches eqb (S (length a)) a b))%Z
    as Hz.
  { assert (exists p, Z.of_nat (S n) = Zpos p) as [p Hp] by (simpl; eauto).
    rewrite Hp in *. revert H.
    generalize (2 * Z.of_nat (matches eqb (S (length a)) a b))%Z.
    intros z. unfold Qle, Qdiv, Qmult, Qinv, inject_Z. simpl. lia. }
  apply (matches_full_eq (S (length a))); lia.
Qed.

End DifflibFacts.

(** ** The search tools *)

Section StringFacts.
Import Str.

Lemma startswith_refl s : startswith s s = true.
Proof. induction s as [|c s IH]; simpl; [done|]. by rewrite Ascii.eqb_refl. Qed.

Lemma contains_refl s : contains s s = true.
Proof. destruct s; simpl; [done|]. by rewrite Ascii.eqb_refl, startswith_refl. Qed.

Lemma list_ascii_of_string_inj s1 s2 :
  list_ascii_of_string s1 = list_ascii_of_string s2 -> s1 = s2.
Proof.
  intros H. rewrite <- (string_of_list_ascii_of_string s1),
              <- (string_of_list_ascii_of_string s2). by rewrite H.
Qed.

End StringFacts.

Section FuzzyFacts.
Import Str SearchTools.

Lemma similarity_one_contains query text :
  (1 <= _calculate_similarity query text)%Q ->
  contains (lower query) (lower text) = true.
Proof.
  intros H. apply (ratio_one_eq Ascii.eqb Ascii.eqb_eq) in H.
  apply list_ascii_of_string_inj in H. rewrite H. apply contains_refl.
Qed.

Lemma clamp01_above_one threshold :
  (1 < threshold)%Q -> clamp01 threshold = 1%Q.
Proof.
  intros H. unfold clamp01, Qltb.
  assert (Qle_bool 1 threshold = true) as ->.
  { apply Qle_bool_iff. by apply Qlt_le_weak. }
  done.
Qed.

Lemma fuzzy_match_at_one query text :
  (_fuzzy_match query text 1).1 = true <->
  contains (lower query) (lower text) = true \/
  keyword_fallback_accepts query text.
Proof.
  unfold _fuzzy_match, keyword_fallback_accepts.
  destruct (contains (lower query) (lower text)) eqn:Ec; [simpl; tauto|].
  unfold Qgeb at 1.
  destruct (Qle_bool 1 (_calculate_similarity query text)) eqn:Es.
  { apply Qle_bool_iff, similarity_one_contains in Es. congruence. }
  set (qw := list_to_set (_extract_keywords query) : gset string).
  set (tw := list_to_set (_extract_keywords text) : gset string).
  destruct (bool_decide (qw = ∅)) eqn:Eq; simpl.
  { apply bool_decide_eq_true in Eq. split; [done|]. intros [?|[? _]]; done. }
  destruct (bool_decide (tw = ∅)) eqn:Et; simpl.
  { apply bool_decide_eq_true in Et. split; [done|]. intros [?|(_ & ? & _)]; done. }
  apply bool_decide_eq_false in Eq, Et.
  unfold Qgeb.
  destruct (Qle_bool (5 # 10) _) eqn:Eo; simpl.
  - split; [|done]. intros _. right. do 2 (split; [done|]).
    apply Qle_bool_iff in Eo. eapply Qle_trans; [|exact Eo]. by vm_compute.
  - split; [done|]. intros [?|(_ & _ & Ho)]; [done|].
    assert (Qle_bool (5 # 10) (size_Q (qw ∩ tw) / size_Q qw) = true) as Hb.
    { apply Qle_bool_iff. eapply Qle_trans; [|exact Ho]. by vm_compute. }
    congruence.
Qed.

Lemma scan_titles_titles accept all_titles id_to_name d include_url :
  map title (scan_titles accept all_titles id_to_name d include_url)
  = List.filter (fun t => bool_decide (is_Some (accept t)))
                (all_title_keys all_titles).
Proof.
  unfold scan_titles, all_title_keys.
  induction all_titles as [|[p titles] tbl IH]; simpl; [done|].
  rewrite map_app, List.filter_app, IH. f_equal. clear IH.
  induction titles as [|[t info] titles IH]; simpl; [done|].
  rewrite map_app, IH. by destruct (accept t).
Qed.

End FuzzyFacts.

Section OverlapFacts.
Import SearchTools.
#[local] Set Warnings "-clear-no-such-hyp".

Lemma size_union_inter (X Y : gset string) :
  (size (X ∪ Y) + size (X ∩ Y) = size X + size Y)%nat.
Proof.
  rewrite size_union_alt.
  assert (size Y = size (X ∩ Y) + size (Y ∖ X))%nat as ->; [|lia].
  rewrite <- size_union by set_solver. f_equal.
  apply set_eq. intros x. split; [|set_solver].
  intros Hx. destruct (decide (x ∈ X)); set_solver.
Qed.

Lemma list_to_set_nonempty (l : list string) :
  l <> [] -> (list_to_set l : gset string) <> ∅.
Proof. destruct l as [|x l]; [done|]. intros _. simpl. set_solver. Qed.

Lemma keyword_overlap_jaccard (keywords1 keywords2 : list string) :
  keywords1 <> [] -> keywords2 <> [] ->
  let set1 : gset string := list_to_set keywords1 in
  let set2 : gset string := list_to_set keywords2 in
  _calculate_keyword_overlap keywords1 keywords2
  = (inject_Z (Z.of_nat (size (set1 ∩ set2)))
     / inject_Z (Z.of_nat (size set1) + Z.of_nat (size set2)
                 - Z.of_nat (size (set1 ∩ set2))))%Q.
Proof.
  intros H1 H2 set1 set2. unfold _calculate_keyword_overlap.
  destruct keywords1 as [|x1 l1]; [done|].
  destruct keywords2 as [|x2 l2]; [done|].
  fold set1 set2.
  pose proof (size_union_inter set1 set2) as Hs.
  assert (size (set1 ∪ set2) <> 0%nat) as Hne.
  { intros H0. apply size_empty_iff in H0.
    apply (list_to_set_nonempty (x1 :: l1)); [done|].
    fold set1. set_solver. }
  destruct (size (set1 ∪ set2)) as [|n] eqn:E; [done|].
  do 2 f_equal. lia.
Qed.

Lemma inter_union_comm (s1 s2 : gset string) :
  s2 ∩ s1 = s1 ∩ s2 /\ s2 ∪ s1 = s1 ∪ s2.
Proof. split; set_solver. Qed.

Lemma keyword_overlap_sym (keywords1 keywords2 : list string) :
  _calculate_keyword_overlap keywords1 keywords2
  = _calculate_keyword_overlap keywords2 keywords1.
Proof.
  unfold _calculate_keyword_overlap.
  destruct keywords1 as [|x1 l1], keywords2 as [|x2 l2]; try done.
  destruct (inter_union_comm (list_to_set (x1 :: l1))
                             (list_to_set (x2 :: l2))) as [-> ->].
  done.
Qed.

End OverlapFacts.

Section SearchFacts.
Import Str SearchTools.
Variable validate_keyword : string -> string + exn.
Variable validate_limit : Z -> Z + exn.
Variable validate_date_range : string * string -> Z * Z + exn.
Variable read : Z -> option (list string) -> ParserService.day_index + exn.
Variable output_dir : option (list (string * bool)).
Variable today : Z.

Lemma in_days_between start_date end_date d :
  In d (Analytics.days_between start_date end_date)
  <-> (start_date <= d <= end_date)%Z.
Proof.
  unfold Analytics.days_between. rewrite in_map_iff. split.
  - intros (i & <- & Hi). apply in_seq in Hi. lia.
  - intros Hd. exists (Z.to_nat (d - start_date)). split; [lia|].
    apply in_seq. lia.
Qed.

Lemma scan_titles_nil accept all_titles id_to_name d include_url :
  (forall t, In t (all_title_keys all_titles) -> accept t = None) ->
  scan_titles accept all_titles id_to_name d include_url = [].
Proof.
  intros H.
  assert (map title (scan_titles accept all_titles id_to_name d include_url)
          = []) as Hm; [|by destruct (scan_titles _ _ _ _ _)].
  rewrite scan_titles_titles.
  induction (all_title_keys all_titles) as [|t l IH]; simpl; [done|].
  rewrite (H t) by (by left). simpl.
  apply IH. intros t' Ht'. apply H. by right.
Qed.

Lemma day_matches_scan query search_mode platforms threshold include_url d
    index :
  read d platforms = inl index ->
  day_matches read query search_mode platforms threshold include_url d
  = inl (scan_titles (accept_of_mode search_mode query threshold)
           (ParserService.all_titles index) (ParserService.id_to_name index)
           d include_url).
Proof.
  intros H. unfold day_matches, accept_of_mode. rewrite H.
  unfold _search_by_keyword_mode, _search_by_fuzzy_mode,
    _search_by_entity_mode.
  by repeat case_match.
Qed.

Lemma collect_matches_nil query search_mode platforms threshold include_url
    days :
  (forall d, In d days ->
     day_matches read query search_mode platforms threshold include_url d
     = inl []) ->
  collect_matches read query search_mode platforms threshold include_url days
  = inl [].
Proof.
  induction days as [|d days IH]; intros H; simpl; [done|].
  rewrite (H d) by (by left). rewrite IH; [done|].
  intros d' Hd'. apply H. by right.
Qed.

Lemma existsb_eqb_In (x : string) (l : list string) :
  In x l -> existsb (String.eqb x) l = true.
Proof.
  intros H. apply existsb_exists. exists x. split; [done|].
  apply String.eqb_refl.
Qed.

(** C9.  With a query, a mode, a sort order and a limit that pass
    validation, a date range that resolves (given, or defaulted to the
    latest dated folder) and reads that raise nothing but "no data for
    this day": when no title of any day of the range matches, the call
    returns the success record with an empty result list, the total 0
    and a message that says that no matching news was found, names the
    searched range and, when the output directory has dated folders,
    the range of the available data; it returns the failure "no data
    available" only when no range was given and the output directory
    has no dated folder. *)
Theorem search_without_match_is_empty_success
    query search_mode date_range platforms limit sort_by threshold
    include_url query' limit' :
  validate_keyword query = inl query' ->
  In search_mode ["keyword"; "fuzzy"; "entity"]%string ->
  In sort_by ["relevance"; "weight"; "date"]%string ->
  validate_limit limit = inl limit' ->
  let result :=
    search_news_unified validate_keyword validate_limit validate_date_range
      read output_dir today query search_mode date_range platforms limit
      sort_by threshold include_url in
  (forall start_date end_date,
      match date_range with
      | Some r => validate_date_range r = inl (start_date, end_date)
      | None =>
          (DataService.get_available_date_range output_dir).2
          = Some start_date /\ end_date = start_date
      end ->
      (forall d e, (start_date <= d <= end_date)%Z ->
                   read d platforms = inr e ->
                   exists m, e = DataNotFoundError m) ->
      (forall d index t,
          (start_date <= d <= end_date)%Z ->
          read d platforms = inl index ->
          In t (all_title_keys (ParserService.all_titles index)) ->
          accept_of_mode search_mode query' (clamp01 threshold) t = None) ->
      result
      = SuccessEmpty
          {| results := [];
             total := 0;
             SearchTools.query := query';
             SearchTools.search_mode := search_mode;
             time_range := time_description today start_date end_date;
             message :=
               match DataService.get_available_date_range output_dir with
               | (Some earliest, Some latest) =>
                   "未找到匹配的news（query范围: "
                   +:+ time_description today start_date end_date
                   +:+ "，可用data: "
                   +:+ Calendar.iso_format earliest +:+ " to "
                   +:+ Calendar.iso_format latest +:+ "）"
               | _ =>
                   "未找到匹配的news（"
                   +:+ time_description today start_date end_date
                   +:+ "）"
               end |}) /\
  (result = Failure NO_DATA_AVAILABLE <->
   date_range = None /\
   (DataService.get_available_date_range output_dir).2 = None).
Proof using Type.
  intros Hq Hmode Hsort Hlimit result. subst result.
  unfold search_news_unified, no_match_message. rewrite Hq.
  rewrite (existsb_eqb_In _ _ Hmode), (existsb_eqb_In _ _ Hsort), Hlimit.
  cbn [negb]. split.
  - intros start_date end_date Hrange Hread Hnone.
    assert (collect_matches read query' search_mode platforms
              (clamp01 threshold) include_url
              (Analytics.days_between start_date end_date) = inl []) as Hc.
    { apply collect_matches_nil. intros d Hd. apply in_days_between in Hd.
      destruct (read d platforms) as [index|e] eqn:E.
      - rewrite (day_matches_scan _ _ _ _ _ _ _ E). f_equal.
        apply scan_titles_nil. intros t Ht. by apply (Hnone d index t).
      - unfold day_matches. rewrite E.
        destruct (Hread d e Hd E) as [m ->]. done. }
    destruct date_range as [r|].
    + rewrite Hrange, Hc. done.
    + destruct Hrange as [Hlatest ->].
      destruct (DataService.get_available_date_range output_dir)
        as [earliest latest] eqn:Ed.
      simpl in Hlatest. subst latest. rewrite Hc. done.
  - destruct date_range as [r|].
    + split; [|by intros [? _]].
      destruct (validate_date_range r) as [[s e]|err]; simpl.
      * destruct (collect_matches _ _ _ _ _ _ _) as [[|x l]|err];
          [done | done |].
        unfold to_failure. by destruct (is_mcp_error err).
      * unfold to_failure. by destruct (is_mcp_error err).
    + destruct (DataService.get_available_date_range output_dir)
        as [earliest [latest|]]; simpl; [|done].
      split; [|by intros [_ ?]].
      destruct (collect_matches _ _ _ _ _ _ _) as [[|x l]|err];
        [done | done |].
      unfold to_failure. by destruct (is_mcp_error err).
Qed.

End SearchFacts.

(** ** The claims on the sample corpus *)

Section ParserClaims.
Import Str ParserService Samples.
Local Open Scope string_scope.

(** A title line with both tags, and one without a rank. *)
Example parse_tagged_line :
  parse_title_line "3. Big  news [URL:http://u/1] [MOBILE:http://m/1]"
  = ("Big news",
     {| ranks := [3%Z]; url := "http://u/1"; mobileUrl := "http://m/1" |}).
Proof. vm_compute. reflexivity. Qed.

Example parse_line_without_rank :
  parse_title_line "no rank here"
  = ("no rank here", {| ranks := [1%Z]; url := ""; mobileUrl := "" |}).
Proof. vm_compute. reflexivity. Qed.

(** Two snapshots of one day: the ranks of the two files follow each
    other in file order. *)
Example two_files_ranks_in_file_order :
  ranks_of (all_titles (merge_files None [file_b; file_a])) "p" "t"
  = [3; 7]%Z.
Proof. vm_compute. reflexivity. Qed.

(** C1, as stated, fails inside one file: title [t] of platform [p]
    has the two lines "3. t" and "7. t", and the day index holds the
    rank 7 alone. *)
Lemma same_file_occurrences_not_concatenated :
  content file_twice = Some ("p" +:+ nl +:+ "3. t" +:+ nl +:+ "7. t") /\
  occurrence_ranks file_twice "p" "t" = [3; 7]%Z /\
  ranks_of (all_titles (merge_files None [file_twice])) "p" "t" = [7]%Z.
Proof. vm_compute. repeat split. Qed.

(** C8, as stated, fails: platform [p] is named "Old" once the first
    file is merged, and the second file, which calls it "New",
    replaces that name. *)
Lemma later_file_replaces_display_name :
  let acc := merge_files None [file_a] in
  ODict.get "p" (id_to_name acc) = Some "Old" /\
  ODict.get "p" (id_to_name (merge_file None acc file_b)) = Some "New" /\
  merge_files None [file_a; file_b] = merge_file None acc file_b.
Proof. vm_compute. repeat split. Qed.

(** A read through a cache whose two dictionaries agree raises nothing
    but [DataNotFoundError]. *)
Lemma read_raises_only_data_not_found
    output today now later date platform_ids cache e :
  CacheService.same_keys cache ->
  (read_all_titles_for_date output today now later date platform_ids
                            cache).2 = inr e ->
  exists m, e = DataNotFoundError m.
Proof.
  intros Hk. unfold read_all_titles_for_date.
  match goal with
  | |- context [CacheService.get ?key ?ttl now cache] =>
      pose proof (get_same_keys key ttl now cache Hk) as [_ Hr];
      destruct (CacheService.get key ttl now cache) as [c [[v|]|k]]
  end; simpl in *; [done | | done].
  destruct (output _) as [[|f fs]|]; simpl; try (intros [= <-]; eauto).
  destruct (all_titles _); simpl; [intros [= <-]; eauto | done].
Qed.

End ParserClaims.

Section DateClaims.
Import DateParser.
Local Open Scope Z_scope.

(** C3, as stated, fails for "last": on Saturday 11 October 2025 the
    most recent Sunday is 5 October, and "last sunday" resolves to
    that very day, not to the day seven days before it. *)
Lemma last_sunday_on_a_saturday :
  Calendar.ymd2ord 2025 10 11 = Some 739535 /\
  Calendar.weekday 739535 = 5 /\
  most_recent_occurrence 739535 6 = 739529 /\
  parse_date_query 739535 "last sunday" = inl 739529 /\
  parse_date_query 739535 "last sunday"
  <> inl (most_recent_occurrence 739535 6 - 7).
Proof. vm_compute. repeat split. discriminate. Qed.

End DateClaims.

Section SearchClaims.
Import Str SearchTools Samples.
Local Open Scope string_scope.

(** C4, as the code has it.  A threshold above 1 is clamped to 1, and
    the fuzzy search of a day then returns exactly the titles that
    contain the query, whatever the case, together with the titles
    that the keyword fall-back accepts. *)
Theorem fuzzy_search_above_one
    query threshold all_titles id_to_name d include_url t :
  (1 < threshold)%Q ->
  clamp01 threshold = 1%Q /\
  (In t (map title (_search_by_fuzzy_mode query all_titles id_to_name d
                      (clamp01 threshold) include_url))
   <-> In t (all_title_keys all_titles) /\
       (contains (lower query) (lower t) = true \/
        keyword_fallback_accepts query t)).
Proof.
  intros H. rewrite (clamp01_above_one _ H). split; [done|].
  unfold _search_by_fuzzy_mode. rewrite scan_titles_titles, filter_In.
  apply and_iff_compat_l. rewrite <- fuzzy_match_at_one.
  unfold fuzzy_accept. by destruct (_fuzzy_match query t 1) as [[|] s].
Qed.

(** The title "banana split apple" is returned for the query "apple
    banana" with the threshold 1.1, through the keyword fall-back. *)
Lemma fuzzy_search_above_one_witness :
  In "banana split apple"
     (map title (_search_by_fuzzy_mode "apple banana" fruit_titles [] today
                   (clamp01 (11 # 10)) false)).
Proof.
  apply (fuzzy_search_above_one "apple banana" (11 # 10) fruit_titles []
           today false "banana split apple").
  - reflexivity.
  - split; [by left|]. right. unfold keyword_fallback_accepts.
    vm_compute. repeat split; discriminate.
Defined.

(** C4, as stated, fails: with the threshold 1.1 the fuzzy search for
    "apple banana" returns the title "banana split apple", which does
    not contain the query. *)
Lemma fuzzy_returns_title_without_substring :
  clamp01 (11 # 10) = 1%Q /\
  contains (lower "apple banana") (lower "banana split apple") = false /\
  map title (_search_by_fuzzy_mode "apple banana" fruit_titles [] today
               (clamp01 (11 # 10)) false)
  = ["banana split apple"].
Proof. vm_compute. repeat split. Qed.

(** Every item that the history search returns carries the rounded
    scores of its title, and its combined score reaches the
    threshold. *)
Lemma related_item_scores reference_text threshold include_url d index x :
  In x (related_of_day reference_text threshold include_url d index) ->
  let scores := history_scores reference_text (related_title x) in
  In (related_title x)
     (all_title_keys (ParserService.all_titles index)) /\
  (threshold <= scores.1.1)%Q /\
  related_similarity_score x = round4 scores.1.1 /\
  keyword_overlap x = round4 scores.1.2 /\
  text_similarity x = round4 scores.2.
Proof.
  unfold related_of_day, all_title_keys. rewrite in_flat_map.
  intros ([p titles] & Hp & Hx). rewrite in_flat_map in Hx.
  destruct Hx as ([t info] & Ht & Hx). simpl in Hx.
  destruct (Qgeb _ threshold) eqn:G in Hx; [|done].
  destruct Hx as [<-|[]]. simpl.
  split; [|split; [by apply Qle_bool_iff|done]].
  apply in_flat_map. exists (p, titles). split; [done|].
  apply in_map_iff. by exists (t, info).
Qed.

(** C5, as the code has it.  The combined score is 0.7 times the
    keyword overlap plus 0.3 times the title similarity, and the
    keyword overlap is the symmetric Jaccard ratio of the two keyword
    sets: shared keywords over the keywords of either text; it is 0
    when one of the texts has no keyword. *)
Theorem history_score_jaccard reference_text news_title :
  let reference_keywords := _extract_keywords reference_text in
  let title_keywords := _extract_keywords news_title in
  let set1 : gset string := list_to_set reference_keywords in
  let set2 : gset string := list_to_set title_keywords in
  let scores := history_scores reference_text news_title in
  scores.1.1 = (scores.1.2 * (7 # 10) + scores.2 * (3 # 10))%Q /\
  scores.2 = _calculate_similarity reference_text news_title /\
  scores.1.2 = _calculate_keyword_overlap title_keywords reference_keywords /\
  (reference_keywords <> [] -> title_keywords <> [] ->
   scores.1.2
   = (inject_Z (Z.of_nat (size (set1 ∩ set2)))
      / inject_Z (Z.of_nat (size set1) + Z.of_nat (size set2)
                  - Z.of_nat (size (set1 ∩ set2))))%Q) /\
  (reference_keywords = [] \/ title_keywords = [] -> scores.1.2 = 0%Q).
Proof.
  simpl. split; [done|]. split; [done|]. split; [apply keyword_overlap_sym|].
  split; [apply keyword_overlap_jaccard|].
  unfold _calculate_keyword_overlap.
  intros [-> | ->]; [done|]. by destruct (_extract_keywords reference_text).
Qed.

(** Two shared keywords out of three in the union. *)
Lemma history_score_jaccard_witness :
  (history_scores "apple banana" "apple banana cherry").1.2 == 2 # 3.
Proof.
  destruct (history_score_jaccard "apple banana" "apple banana cherry")
    as (_ & _ & _ & Hj & _).
  rewrite Hj; [|vm_compute; discriminate|vm_compute; discriminate].
  vm_compute. reflexivity.
Defined.

(** C5, as stated, fails: for the reference "apple banana" and the
    title "apple banana cherry" the two keywords of the reference are
    both shared, so the ratio over the reference alone is 1, and the
    overlap of the code is 2/3. *)
Lemma history_overlap_not_over_reference :
  let reference_keywords := _extract_keywords "apple banana" in
  let title_keywords := _extract_keywords "apple banana cherry" in
  (reference_overlap reference_keywords title_keywords == 1)%Q /\
  ((history_scores "apple banana" "apple banana cherry").1.2 == 2 # 3)%Q /\
  ~ ((history_scores "apple banana" "apple banana cherry").1.2
     == reference_overlap reference_keywords title_keywords)%Q.
Proof. vm_compute. repeat split; discriminate. Qed.

(** A keyword that no title of the sample week contains. *)
Lemma search_without_match_is_empty_success_witness :
  exists r,
    Samples.search_news_unified "zebra" "keyword"
      (Some ("2025-10-05", "2025-10-11")) None 50 "relevance" (6 # 10) false
    = SuccessEmpty r /\ results r = [] /\ total r = 0%Z /\
    message r
    = "未找到匹配的news（query范围: 2025-10-05 to 2025-10-11，可用data: 2025-10-05 to 2025-10-11）".
Proof.
  eexists. split; [|split; [|split]].
  - unfold Samples.search_news_unified.
    refine (proj1 (search_without_match_is_empty_success
                     validate_keyword validate_limit validate_date_range
                     read output_dir today
                     "zebra" "keyword" (Some ("2025-10-05", "2025-10-11"))
                     None 50 "relevance" (6 # 10) false "zebra" 50%Z
                     _ _ _ _) week_start today _ _ _).
    + reflexivity.
    + simpl. tauto.
    + simpl. tauto.
    + reflexivity.
    + reflexivity.
    + intros d e _. apply read_raises_only_data_not_found, same_keys_init.
    + intros d index t Hd Hr Ht.
      assert (d = 739529 \/ d = 739530 \/ d = 739531 \/ d = 739532 \/
              d = 739533 \/ d = 739534 \/ d = 739535)%Z as Hcases
        by (unfold week_start, today in Hd; lia).
      revert Hr Ht.
      destruct Hcases as [->|[->|[->|[->|[->|[->| ->]]]]]];
        vm_compute; intros [= <-]; intuition (subst; reflexivity).
  - reflexivity.
  - reflexivity.
  - vm_compute. reflexivity.
Defined.

End SearchClaims.

Section LifecycleClaims.
Import Analytics Samples.
Local Open Scope string_scope.

(** C6 on the code.  A topic with ten titles on the first day of a
    seven-day range, one on the last day and none between is reported
    with two active days and the peak 10, which is more than twice the
    average daily count 11/7 of the range; the code compares the peak
    with twice 5.5, the mean of the two active days alone, and
    classifies the topic as periodic.  Indeed no series of daily counts
    is classified as a flash topic. *)
Theorem lifecycle_days_1_and_7_periodic :
  (exists report,
      Samples.analyze_topic_lifecycle "ai" (Some ("2025-10-05", "2025-10-11"))
      = inl report /\
      total_days report = 7%Z /\
      map snd (lifecycle_data report) = [10; 0; 0; 0; 0; 0; 1]%nat /\
      active_days (analysis report) = 2%nat /\
      peak_count (analysis report) = 10%nat /\
      average_mentions (map snd (lifecycle_data report)) == 11 # 7 /\
      Qgtb (nat_as_Q (peak_count (analysis report)))
           (average_mentions (map snd (lifecycle_data report)) * 2) = true /\
      avg_daily_mentions (analysis report) = 11 # 2 /\
      type (analysis report) = Periodic) /\
  (forall total_days counts, classify_type total_days counts <> Flash).
Proof.
  split; [|apply classify_type_never_flash].
  eexists. split; [vm_compute; reflexivity|]. repeat split.
Qed.

End LifecycleClaims.

(* ===================================================================== *)
(** * Part II, continued: further properties                              *)
(* ===================================================================== *)

(** ** The cache, continued *)

Section CacheExtras.
Import CacheService.
Context {V : Type}.
Implicit Types (s : CacheService.t V) (key : string) (now ttl : Q).

Lemma Qgeb_ge (x y : Q) : Qgeb x y = true <-> (y <= x)%Q.
Proof. unfold Qgeb. apply Qle_bool_iff. Qed.

Lemma Qgeb_Qltb (x y : Q) : Qgeb x y = negb (Qltb x y).
Proof. unfold Qgeb, Qltb. by rewrite negb_involutive. Qed.

(** X1.  On a cache whose dictionaries agree, [delete] answers [True]
    exactly when the key was there, raises nothing, and afterwards the
    key is in neither dictionary while every other key keeps its value
    and its timestamp. *)
Theorem delete_reports_presence s key :
  same_keys s ->
  (delete key s).2 = Return (bool_decide (is_Some (_cache s !! key))) /\
  _cache (delete key s).1 = base.delete key (_cache s) /\
  _timestamps (delete key s).1 = base.delete key (_timestamps s) /\
  same_keys (delete key s).1.
Proof.
  intros H. unfold delete.
  destruct (_cache s !! key) as [v|] eqn:Ec.
  - destruct (del_pair_same_keys key s H) as (s2 & E2 & E1 & Hs2 & Hc & Ht);
      [by rewrite Ec|].
    destruct (del_cache key s) as [s1 o1]. simpl in *. subst o1.
    by rewrite E2.
  - simpl. split; [done|].
    rewrite delete_id by done.
    assert (_timestamps s !! key = None) as Ht.
    { destruct (_timestamps s !! key) eqn:E; [|done].
      assert (is_Some (_cache s !! key)) as [? ?]
        by (apply (same_keys_lookup s key H); eauto).
      congruence. }
    by rewrite delete_id.
Qed.

Lemma delete_keys_result keys s :
  same_keys s -> NoDup keys ->
  (forall k, k ∈ keys -> is_Some (_timestamps s !! k)) ->
  let s' := (delete_keys keys s).1 in
  (delete_keys keys s).2 = Return tt /\
  same_keys s' /\
  (forall k, _cache s' !! k
             = if bool_decide (k ∈ keys) then None else _cache s !! k) /\
  (forall k, _timestamps s' !! k
             = if bool_decide (k ∈ keys) then None else _timestamps s !! k) /\
  (size (_cache s') + length keys = size (_cache s))%nat.
Proof.
  revert s. induction keys as [|x keys IH]; intros s H Hnd Hin.
  { simpl. repeat split; (done || lia). }
  simpl. apply NoDup_cons in Hnd as [Hx Hnd].
  assert (is_Some (_cache s !! x)) as Hc.
  { apply (same_keys_lookup s x H), Hin. by left. }
  destruct (del_pair_same_keys x s H Hc) as (s2 & E2 & E1 & Hs2 & Hc2 & Ht2).
  destruct (del_cache x s) as [s1 o1]. simpl in *. subst o1.
  rewrite E2.
  destruct (IH s2 Hs2 Hnd) as (R1 & R2 & R3 & R4 & R5).
  { intros k Hk. rewrite Ht2, lookup_delete_ne; [apply Hin; by right|].
    intros ->. done. }
  split; [done|]. split; [done|].
  assert (forall k, bool_decide (k ∈ x :: keys)
                    = bool_decide (k = x) || bool_decide (k ∈ keys)) as Hb.
  { intros k. rewrite (bool_decide_ext _ _ (elem_of_cons keys k x)).
    apply bool_decide_or. }
  split; [|split].
  - intros k. rewrite R3, Hc2, Hb.
    destruct (bool_decide (k ∈ keys)); [by rewrite orb_true_r|].
    rewrite orb_false_r. case_bool_decide; [subst; apply lookup_delete_eq|].
    by rewrite lookup_delete_ne.
  - intros k. rewrite R4, Ht2, Hb.
    destruct (bool_decide (k ∈ keys)); [by rewrite orb_true_r|].
    rewrite orb_false_r. case_bool_decide; [subst; apply lookup_delete_eq|].
    by rewrite lookup_delete_ne.
  - rewrite Hc2, map_size_delete_Some in R5 by done.
    destruct Hc as [v Hv].
    assert (size (_cache s) <> 0%nat).
    { intros H0. apply map_size_empty_iff in H0. rewrite H0 in Hv. done. }
    lia.
Qed.

Lemma elem_of_expired_keys ttl now s k :
  k ∈ expired_keys ttl now s
  <-> exists ts, _timestamps s !! k = Some ts /\ Qgeb (now - ts) ttl = true.
Proof.
  unfold expired_keys. rewrite list_elem_of_fmap. split.
  - intros ([k' ts] & -> & Hin). apply list_elem_of_In, filter_In in Hin.
    destruct Hin as [Hin Hq]. apply list_elem_of_In, elem_of_map_to_list in Hin.
    eauto.
  - intros (ts & Hts & Hq). exists (k, ts). split; [done|].
    apply list_elem_of_In, filter_In. split; [|done].
    by apply list_elem_of_In, elem_of_map_to_list.
Qed.

(** X2.  On a cache whose dictionaries agree, [cleanup_expired] raises
    nothing and removes exactly the entries whose age is at least
    [ttl], from both dictionaries; the entries that stay keep their
    values and timestamps.  The number it returns is the number of
    entries it removed, and an immediate second sweep with the same
    window removes nothing. *)
Theorem cleanup_expired_keeps_fresh s ttl now :
  same_keys s ->
  let r := cleanup_expired ttl now s in
  r.2 = Return (size (_cache s) - size (_cache r.1))%nat /\
  (size (_cache r.1) <= size (_cache s))%nat /\
  (forall k,
      _timestamps r.1 !! k
      = match _timestamps s !! k with
        | Some ts => if Qltb (now - ts) ttl then Some ts else None
        | None => None
        end) /\
  (forall k,
      _cache r.1 !! k
      = match _timestamps s !! k with
        | Some ts => if Qltb (now - ts) ttl then _cache s !! k else None
        | None => _cache s !! k
        end) /\
  cleanup_expired ttl now r.1 = (r.1, Return 0%nat).
Proof.
  intros H r.
  destruct (delete_keys_result (expired_keys ttl now s) s H
              (expired_keys_NoDup ttl now s) (expired_keys_present ttl now s))
    as (R1 & R2 & R3 & R4 & R5).
  assert (r = ((delete_keys (expired_keys ttl now s) s).1,
               Return (length (expired_keys ttl now s)))) as Hr.
  { subst r. unfold cleanup_expired.
    destruct (delete_keys _ s) as [s1 o]. simpl in *. by subst o. }
  assert (forall k, bool_decide (k ∈ expired_keys ttl now s)
                    = match _timestamps s !! k with
                      | Some ts => Qgeb (now - ts) ttl
                      | None => false
                      end) as Hb.
  { intros k. destruct (_timestamps s !! k) as [ts|] eqn:E.
    - destruct (Qgeb (now - ts) ttl) eqn:G.
      + apply bool_decide_eq_true_2, elem_of_expired_keys. eauto.
      + apply bool_decide_eq_false_2. intros Hin.
        apply elem_of_expired_keys in Hin as (ts' & E' & G'). congruence.
    - apply bool_decide_eq_false_2. intros Hin.
      apply elem_of_expired_keys in Hin as (ts' & E' & G'). congruence. }
  assert (Ht : forall k,
             _timestamps r.1 !! k
             = match _timestamps s !! k with
               | Some ts => if Qltb (now - ts) ttl then Some ts else None
               | None => None
               end).
  { intros k. rewrite Hr. simpl. rewrite R4, Hb.
    destruct (_timestamps s !! k) as [ts|]; [|done].
    rewrite Qgeb_Qltb. by destruct (Qltb (now - ts) ttl). }
  rewrite Hr in *. simpl in *.
  split; [f_equal; lia|]. split; [lia|]. split; [done|]. split.
  - intros k. rewrite R3, Hb.
    destruct (_timestamps s !! k) as [ts|]; [|done].
    rewrite Qgeb_Qltb. by destruct (Qltb (now - ts) ttl).
  - set (s' := (delete_keys (expired_keys ttl now s) s).1) in *.
    assert (expired_keys ttl now s' = []) as He.
    { destruct (expired_keys ttl now s') as [|k l] eqn:E; [done|].
      assert (k ∈ expired_keys ttl now s') as Hin by (rewrite E; by left).
      apply elem_of_expired_keys in Hin as (ts & Hts & G).
      rewrite Ht in Hts. destruct (_timestamps s !! k) as [ts0|]; [|done].
      destruct (Qltb (now - ts0) ttl) eqn:L; [|done].
      injection Hts as ->. rewrite Qgeb_Qltb, L in G. done. }
    unfold cleanup_expired. by rewrite He.
Qed.

(** X3.  A value stored by [set] at time [t0] is returned by every
    [get] of the same key made while [t1 - t0 < ttl], and those reads
    leave the cache as it was; the entries of the other keys are
    answered as before the [set]. *)
Theorem set_then_get_returns_value s key (value : V) t0 t1 ttl :
  (t1 - t0 < ttl)%Q ->
  let s' := (set key value t0 s).1 in
  get key ttl t1 s' = (s', Return (Some value)) /\
  (forall k ttl2 now, k <> key ->
      (get k ttl2 now s').2 = (get k ttl2 now s).2).
Proof.
  intros Hlt s'. split.
  - unfold get. subst s'. simpl. rewrite !lookup_insert_eq.
    apply Qltb_lt in Hlt. by rewrite Hlt.
  - intros k ttl2 now Hk. unfold get. subst s'. simpl.
    rewrite !lookup_insert_ne by done.
    destruct (_cache s !! k); [|done].
    destruct (_timestamps s !! k); [|done].
    by destruct (Qltb _ _).
Qed.

(** X4.  The window is chosen by the reader, and a stale read is
    destructive: once a reader whose window the entry has outlived has
    asked for a key, the entry is gone for every reader, also for one
    whose longer window it would still have satisfied. *)
Theorem stale_read_evicts_for_all_readers s key (value : V) t0 t1 short long :
  (short <= t1 - t0)%Q -> (t1 - t0 < long)%Q ->
  let s0 := (set key value t0 s).1 in
  (get key long t1 s0).2 = Return (Some value) /\
  (get key short t1 s0).2 = Return None /\
  (forall ttl now, (get key ttl now (get key short t1 s0).1).2 = Return None).
Proof.
  intros Hs Hl s0.
  assert (_cache s0 !! key = Some value) as Hc
    by (subst s0; simpl; apply lookup_insert_eq).
  assert (_timestamps s0 !! key = Some t0) as Ht
    by (subst s0; simpl; apply lookup_insert_eq).
  unfold get. rewrite Hc, Ht.
  apply Qltb_lt in Hl. rewrite Hl.
  assert (Qltb (t1 - t0) short = false) as ->.
  { destruct (Qltb (t1 - t0) short) eqn:E; [|done].
    apply Qltb_lt in E. exfalso. eapply Qlt_not_le; eauto. }
  simpl. split; [done|]. split; [done|].
  intros ttl now. by rewrite lookup_delete_eq.
Qed.

End CacheExtras.

Section CacheExtrasWitnesses.
Import CacheService.

(** A cache with one entry, stored at time 100. *)
Lemma delete_reports_presence_witness :
  (delete "k" (set "k" 7%nat 100 init).1).2 = Return true /\
  (delete "j" (set "k" 7%nat 100 init).1).2 = Return false.
Proof.
  assert (same_keys (set "k" 7%nat 100 init).1) as H
    by (apply set_same_keys, same_keys_init).
  split.
  - rewrite (proj1 (delete_reports_presence _ "k" H)). reflexivity.
  - rewrite (proj1 (delete_reports_presence _ "j" H)). reflexivity.
Defined.

(** Two entries, one of them older than the window of the sweep. *)
Lemma cleanup_expired_keeps_fresh_witness :
  let s := (set "new" 2%nat 95 (set "old" 1%nat 10 init).1).1 in
  (cleanup_expired 60 100 s).2 = Return 1%nat.
Proof.
  intros s.
  assert (same_keys s) as H.
  { apply set_same_keys, set_same_keys, same_keys_init. }
  rewrite (proj1 (cleanup_expired_keeps_fresh s 60 100 H)).
  vm_compute. reflexivity.
Defined.

Lemma set_then_get_returns_value_witness :
  (get "k" 10 105 (set "k" 7%nat 100 init).1).2 = Return (Some 7%nat).
Proof.
  rewrite (proj1 (set_then_get_returns_value init "k" 7%nat 100 105 10
                    ltac:(reflexivity))).
  reflexivity.
Defined.

(** An entry of age 20: fresh for a window of 60, stale for one of 15. *)
Lemma stale_read_evicts_for_all_readers_witness :
  let s0 := (set "k" 7%nat 100 init).1 in
  (get "k" 60 120 s0).2 = Return (Some 7%nat) /\
  (get "k" 60 120 (get "k" 15 120 s0).1).2 = Return None.
Proof.
  intros s0.
  destruct (stale_read_evicts_for_all_readers init "k" 7%nat 100 120 15 60)
    as (H1 & H2 & H3).
  - vm_compute. discriminate.
  - reflexivity.
  - split; [exact H1 | apply H3].
Defined.

End CacheExtrasWitnesses.

Section CacheStatsFacts.
Import CacheService CacheStats.

Lemma Qltb_false_le (x y : Q) : Qltb x y = false -> (y <= x)%Q.
Proof.
  unfold Qltb. rewrite negb_false_iff. apply Qle_bool_iff.
Qed.

Lemma Qmin_list_least (x : Q) (l : list Q) :
  In (Qmin_list x l) (x :: l) /\
  (forall y, In y (x :: l) -> Qmin_list x l <= y)%Q.
Proof.
  revert x. induction l as [|z l IH]; intros x; simpl.
  - split; [by left|]. intros y [<-|[]]. apply Qle_refl.
  - unfold Qmin_list. simpl. fold (Qmin_list (if Qltb z x then z else x) l).
    destruct (IH (if Qltb z x then z else x)) as [Hin Hle].
    destruct (Qltb z x) eqn:E.
    + split; [simpl in Hin; tauto|].
      intros y [<-|[<-|Hy]].
      * eapply Qle_trans; [apply Hle; by left|].
        apply Qlt_le_weak. by apply Qltb_lt.
      * apply Hle. by left.
      * apply Hle. by right.
    + split; [simpl in Hin; tauto|].
      intros y [<-|[<-|Hy]].
      * apply Hle. by left.
      * eapply Qle_trans; [apply Hle; by left|]. by apply Qltb_false_le.
      * apply Hle. by right.
Qed.

Lemma Qmax_list_greatest (x : Q) (l : list Q) :
  In (Qmax_list x l) (x :: l) /\
  (forall y, In y (x :: l) -> y <= Qmax_list x l)%Q.
Proof.
  revert x. induction l as [|z l IH]; intros x; simpl.
  - split; [by left|]. intros y [<-|[]]. apply Qle_refl.
  - unfold Qmax_list. simpl. fold (Qmax_list (if Qltb x z then z else x) l).
    destruct (IH (if Qltb x z then z else x)) as [Hin Hle].
    destruct (Qltb x z) eqn:E.
    + split; [simpl in Hin; tauto|].
      intros y [<-|[<-|Hy]].
      * eapply Qle_trans; [|apply Hle; by left].
        apply Qlt_le_weak. by apply Qltb_lt.
      * apply Hle. by left.
      * apply Hle. by right.
    + split; [simpl in Hin; tauto|].
      intros y [<-|[<-|Hy]].
      * apply Hle. by left.
      * eapply Qle_trans; [|apply Hle; by left]. by apply Qltb_false_le.
      * apply Hle. by right.
Qed.

(** X5.  [get_stats] counts the stored values and reads the clock
    once for each age.  On an empty cache both ages are 0.  Otherwise
    the oldest age is the greatest age of an entry at the first
    reading and the newest age is the least age of an entry at the
    second reading, each being the age of an entry of the cache; the
    newest age exceeds the oldest age by at most the time that passed
    between the two readings, so it is at most the oldest age when the
    two readings are equal. *)
Theorem get_stats_brackets_every_age {V}
    (now_oldest now_newest : Q) (s : CacheService.t V) :
  let st := get_stats now_oldest now_newest s in
  total_entries st = size (_cache s) /\
  (_timestamps s = ∅ ->
     oldest_entry_age st = 0%Q /\ newest_entry_age st = 0%Q) /\
  (forall k ts, _timestamps s !! k = Some ts ->
     (now_oldest - ts <= oldest_entry_age st)%Q /\
     (newest_entry_age st <= now_newest - ts)%Q /\
     (newest_entry_age st
      <= oldest_entry_age st + (now_newest - now_oldest))%Q /\
     exists k1 k2 ts1 ts2,
       _timestamps s !! k1 = Some ts1 /\
       oldest_entry_age st = (now_oldest - ts1)%Q /\
       _timestamps s !! k2 = Some ts2 /\
       newest_entry_age st = (now_newest - ts2)%Q).
Proof.
  intros st. subst st. unfold get_stats. simpl. split; [done|].
  split.
  { intros ->. by rewrite map_to_list_empty. }
  intros k ts Hk.
  assert (In ts (map_to_list (_timestamps s)).*2) as Hin.
  { apply list_elem_of_In, list_elem_of_fmap. exists (k, ts).
    split; [done|]. by apply elem_of_map_to_list. }
  assert (forall y, In y (map_to_list (_timestamps s)).*2 ->
                    exists k', _timestamps s !! k' = Some y) as Hback.
  { intros y Hy. apply list_elem_of_In, list_elem_of_fmap in Hy.
    destruct Hy as ([k' y'] & -> & Hy). exists k'.
    by apply elem_of_map_to_list. }
  destruct ((map_to_list (_timestamps s)).*2) as [|x l]; [done|].
  destruct (Qmin_list_least x l) as [Hmin_in Hmin].
  destruct (Qmax_list_greatest x l) as [Hmax_in Hmax].
  pose proof (Hmin ts Hin). pose proof (Hmax ts Hin).
  split; [lra|]. split; [lra|]. split; [lra|].
  destruct (Hback _ Hmin_in) as [k1 H1].
  destruct (Hback _ Hmax_in) as [k2 H2].
  by exists k1, k2, (Qmin_list x l), (Qmax_list x l).
Qed.

(** Two entries, stored at the times 10 and 95, and the statistics
    read at the times 100 and 101. *)
Lemma get_stats_brackets_every_age_witness :
  let s := (set "new" 2%nat 95 (set "old" 1%nat 10 init).1).1 in
  (100 - 95 <= oldest_entry_age (get_stats 100 101 s))%Q /\
  (newest_entry_age (get_stats 100 101 s) <= 101 - 95)%Q.
Proof.
  intros s.
  destruct (get_stats_brackets_every_age 100 101 s) as (_ & _ & H).
  destruct (H "new" 95%Q) as (H1 & H2 & _); [by vm_compute|].
  split; [exact H1 | exact H2].
Defined.

End CacheStatsFacts.

(** ** The merge of a day, continued *)

Section MergeExtras.
Import ParserService ParserReads.
Local Abbreviation keys := ODict.keys.
Implicit Types (platform_ids : option (list string)) (p t : string).

Lemma keys_set_absent {V} k (v : V) (d : ODict.t V) :
  keys (ODict.set k v d)
  = if ODict.mem k d then keys d else keys d ++ [k].
Proof.
  unfold ODict.mem. induction d as [|[k' v'] d IH]; simpl; [done|].
  destruct (String.eqb k k') eqn:E; simpl.
  - apply String.eqb_eq in E. by subst.
  - rewrite IH. by destruct (ODict.get k d).
Qed.

Lemma mem_keys {V} k (d1 : ODict.t V) {W} (d2 : ODict.t W) :
  keys d1 = keys d2 -> ODict.mem k d1 = ODict.mem k d2.
Proof.
  unfold ODict.mem. revert d2.
  induction d1 as [|[k1 v1] d1 IH]; intros [|[k2 v2] d2]; simpl; try done.
  intros [= -> H]. destruct (String.eqb k k2); [done|]. by apply IH.
Qed.

Lemma parse_section_same_keys acc section :
  keys acc.1 = keys acc.2 ->
  keys (parse_section acc section).1 = keys (parse_section acc section).2.
Proof.
  destruct acc as [tbl names]. simpl. intros H.
  destruct (read_section section) as [[[sid nm] entries]|]; [|done].
  simpl. rewrite !keys_set_absent, (mem_keys sid tbl names H), H. done.
Qed.

Lemma parse_txt_file_same_keys f table names :
  parse_txt_file f = inl (table, names) -> keys table = keys names.
Proof.
  unfold parse_txt_file. destruct (content f) as [text|]; [|done].
  intros [= H].
  assert (G : forall l acc, keys acc.1 = keys acc.2 ->
                keys (fold_left parse_section l acc).1
                = keys (fold_left parse_section l acc).2).
  { induction l as [|x l IH]; intros acc Ha; simpl; [done|].
    apply IH. by apply parse_section_same_keys. }
  specialize (G (Str.split (Str.nl +:+ Str.nl) text) ([], []) eq_refl).
  by rewrite H in G.
Qed.

Lemma mem_true_In {V} k (d : ODict.t V) :
  ODict.mem k d = true <-> In k (keys d).
Proof.
  unfold ODict.mem. destruct (ODict.get k d) eqn:E.
  - split; [|done]. intros _.
    destruct (In_dec string_dec k (keys d)) as [?|Hn]; [done|].
    apply odict_get_None in Hn. congruence.
  - apply odict_get_None in E. split; [done|]. intros H. by apply E in H.
Qed.

Lemma keys_update {V} (d other : ODict.t V) k :
  In k (keys (ODict.update d other)) <-> In k (keys d) \/ In k (keys other).
Proof.
  unfold ODict.update. revert d.
  induction other as [|[k2 v2] other IH]; intros d; simpl; [tauto|].
  rewrite IH, keys_set. intuition congruence.
Qed.

Lemma keys_ensure {V} (into : ODict.t V) k v k' :
  In k' (keys (if ODict.mem k into then into else ODict.set k v into))
  <-> In k' (keys into) \/ (k' = k /\ ODict.mem k into = false).
Proof.
  destruct (ODict.mem k into) eqn:M.
  - intuition congruence.
  - rewrite keys_set. tauto.
Qed.

Lemma keys_merge_platforms platform_ids (table into : titles_table) k :
  In k (keys (merge_platforms platform_ids into table))
  <-> In k (keys into)
      \/ (In k (keys table) /\ filtered_out platform_ids k = false).
Proof.
  unfold merge_platforms. revert into.
  induction table as [|[k2 d] table IH]; intros into; simpl; [tauto|].
  rewrite IH. clear IH.
  destruct (filtered_out platform_ids k2) eqn:F.
  - split; [tauto|]. intros [H|[[->|H] Hf]]; [tauto|congruence|tauto].
  - rewrite keys_set, keys_ensure. split.
    + intros [[->|[H|[-> _]]]|H]; tauto.
    + intros [H|[[->|H] Hf]]; tauto.
Qed.

(** X6.  In the index of a day every platform that has titles has a
    display name, so the look-up of the name of a listed platform never
    falls back on the id; and with a platform filter every listed
    platform is one of the requested ones. *)
Theorem listed_platforms_are_named platform_ids txt_files p :
  In p (keys (all_titles (merge_files platform_ids txt_files))) ->
  is_Some (ODict.get p (id_to_name (merge_files platform_ids txt_files))) /\
  filtered_out platform_ids p = false.
Proof.
  unfold merge_files.
  assert (G : forall l acc,
             (forall q, In q (keys (all_titles acc)) ->
                        In q (keys (id_to_name acc)) /\
                        filtered_out platform_ids q = false) ->
             forall q,
               In q (keys (all_titles
                             (fold_left (merge_file platform_ids) l acc))) ->
               In q (keys (id_to_name
                             (fold_left (merge_file platform_ids) l acc))) /\
               filtered_out platform_ids q = false).
  { induction l as [|f l IH]; intros acc Hacc; simpl; [done|].
    apply IH. intros q. unfold merge_file.
    destruct (parse_txt_file f) as [[table names]|e] eqn:E; simpl;
      [|apply Hacc].
    rewrite keys_merge_platforms, keys_update.
    rewrite <- (parse_txt_file_same_keys f table names E).
    intros [H|[H Hf]]; [destruct (Hacc q H); tauto | tauto]. }
  intros H. destruct (G (sorted txt_files) empty_index) with (q := p)
    as [Hin Hf]; [by intros q [] | done |].
  split; [|done].
  destruct (ODict.get p _) eqn:E; [eauto|].
  apply odict_get_None in E. done.
Qed.

Lemma merge_platforms_fold platform_ids into table :
  merge_platforms platform_ids into table
  = fold_left (merge_step platform_ids) table into.
Proof. done. Qed.

Lemma get_ensure_ne (into : titles_table) k p :
  p <> k ->
  ODict.get p (if ODict.mem k into then into else ODict.set k [] into)
  = ODict.get p into.
Proof.
  intros Hne. destruct (ODict.mem k into); [done|].
  apply odict_get_set_ne. congruence.
Qed.

Lemma get_merge_step platform_ids acc e p :
  ODict.get p (merge_step platform_ids acc e)
  = if String.eqb p e.1 && negb (filtered_out platform_ids e.1)
    then Some (merge_titles (default [] (ODict.get p acc)) e.2)
    else ODict.get p acc.
Proof.
  unfold merge_step. destruct e as [k d]. simpl.
  destruct (filtered_out platform_ids k) eqn:F; simpl.
  - by rewrite andb_false_r.
  - rewrite andb_true_r, odict_get_set.
    destruct (String.eqb p k) eqn:E.
    + apply String.eqb_eq in E. subst. by rewrite get_after_ensure.
    + apply String.eqb_neq in E. by apply get_ensure_ne.
Qed.

Lemma get_merge_platforms_filtered platform_ids into table p :
  filtered_out platform_ids p = true ->
  ODict.get p (merge_platforms platform_ids into table) = ODict.get p into.
Proof.
  rewrite merge_platforms_fold. intros F. revert into.
  induction table as [|e table IH]; intros into; simpl; [done|].
  rewrite IH, get_merge_step.
  destruct (String.eqb p e.1) eqn:E; [|done].
  apply String.eqb_eq in E. subst. by rewrite F.
Qed.

Lemma get_merge_platforms_kept platform_ids into1 into2 table p :
  filtered_out platform_ids p = false ->
  ODict.get p into1 = ODict.get p into2 ->
  ODict.get p (merge_platforms platform_ids into1 table)
  = ODict.get p (merge_platforms None into2 table).
Proof.
  rewrite !merge_platforms_fold. intros F. revert into1 into2.
  induction table as [|e table IH]; intros into1 into2 H; simpl; [done|].
  apply IH. rewrite !get_merge_step, H.
  destruct (String.eqb p e.1) eqn:E; [|done].
  apply String.eqb_eq in E. subst. by rewrite F.
Qed.

(** X7.  A platform filter only hides platforms: the index read with a
    filter holds, for every requested platform, exactly the titles,
    ranks and links that the index read without a filter holds for it,
    and nothing for the others; the display names and the file
    timestamps are those of the unfiltered read, names of platforms
    that were not requested included. *)
Theorem platform_filter_only_hides platform_ids txt_files :
  let filtered := merge_files platform_ids txt_files in
  let everything := merge_files None txt_files in
  (forall p, ODict.get p (all_titles filtered)
             = if filtered_out platform_ids p then None
               else ODict.get p (all_titles everything)) /\
  id_to_name filtered = id_to_name everything /\
  all_timestamps filtered = all_timestamps everything.
Proof.
  unfold merge_files.
  assert (G : forall l acc1 acc2,
             (forall p, ODict.get p (all_titles acc1)
                        = if filtered_out platform_ids p then None
                          else ODict.get p (all_titles acc2)) ->
             id_to_name acc1 = id_to_name acc2 ->
             all_timestamps acc1 = all_timestamps acc2 ->
             let r1 := fold_left (merge_file platform_ids) l acc1 in
             let r2 := fold_left (merge_file None) l acc2 in
             (forall p, ODict.get p (all_titles r1)
                        = if filtered_out platform_ids p then None
                          else ODict.get p (all_titles r2)) /\
             id_to_name r1 = id_to_name r2 /\
             all_timestamps r1 = all_timestamps r2).
  { induction l as [|f l IH]; intros acc1 acc2 Ht Hn Hs; simpl; [done|].
    apply IH; unfold merge_file;
      destruct (parse_txt_file f) as [[table names]|e]; simpl;
      try done; try congruence.
    intros p. specialize (Ht p).
    destruct (filtered_out platform_ids p) eqn:F.
    - by rewrite get_merge_platforms_filtered.
    - by apply get_merge_platforms_kept. }
  apply G; try done. intros p. simpl. by destruct (filtered_out _ _).
Qed.

Lemma merge_titles_keeps_links (titles into : ODict.t TitleInfo) t old :
  ODict.get t into = Some old ->
  exists new,
    ODict.get t (merge_titles into titles) = Some new /\
    url new = url old /\ mobileUrl new = mobileUrl old /\
    starts_with (ranks old) (ranks new).
Proof.
  unfold merge_titles. revert into old.
  induction titles as [|[k i] titles IH]; intros into old H; simpl.
  - exists old. do 3 (split; [done|]). exists []. by rewrite app_nil_r.
  - destruct (String.eqb t k) eqn:E.
    + apply String.eqb_eq in E. subst k. rewrite H.
      edestruct IH as (new & Hg & Hu & Hm & rest & Hr);
        [apply odict_get_set_eq|].
      exists new. simpl in *. do 3 (split; [done|]).
      exists (ranks i ++ rest). rewrite Hr. cbn. by rewrite <- app_assoc.
    + apply String.eqb_neq in E.
      apply IH.
      destruct (ODict.get k into);
        rewrite odict_get_set_ne; done || congruence.
Qed.

Lemma merge_platforms_keeps_links platform_ids table into p t old :
  info_of into p t = Some old ->
  exists new,
    info_of (merge_platforms platform_ids into table) p t = Some new /\
    url new = url old /\ mobileUrl new = mobileUrl old /\
    starts_with (ranks old) (ranks new).
Proof.
  rewrite merge_platforms_fold. revert into old.
  induction table as [|e table IH]; intros into old H; simpl.
  - exists old. do 3 (split; [done|]). exists []. by rewrite app_nil_r.
  - unfold info_of in H.
    destruct (ODict.get p into) as [titles|] eqn:G; [|done].
    destruct (String.eqb p e.1 && negb (filtered_out platform_ids e.1))
      eqn:C.
    + destruct (merge_titles_keeps_links e.2 titles t old H)
        as (mid & Hg & Hu & Hm & rest & Hr).
      edestruct (IH (merge_step platform_ids into e) mid)
        as (new & Hg' & Hu' & Hm' & rest' & Hr').
      { unfold info_of. by rewrite get_merge_step, C, G. }
      exists new. do 3 (split; [congruence|]).
      exists (rest ++ rest'). by rewrite Hr', Hr, <- app_assoc.
    + apply IH. unfold info_of. by rewrite get_merge_step, C, G.
Qed.

Lemma fold_merge_file_keeps_links platform_ids files acc p t old :
  info_of (all_titles acc) p t = Some old ->
  exists new,
    info_of (all_titles (fold_left (merge_file platform_ids) files acc)) p t
    = Some new /\
    url new = url old /\ mobileUrl new = mobileUrl old /\
    starts_with (ranks old) (ranks new).
Proof.
  revert acc old.
  induction files as [|f files IH]; intros acc old H; simpl.
  - exists old. do 3 (split; [done|]). exists []. by rewrite app_nil_r.
  - unfold merge_file at 2.
    destruct (parse_txt_file f) as [[table names]|e]; [|by apply IH].
    destruct (merge_platforms_keeps_links platform_ids table _ p t old H)
      as (mid & Hg & Hu & Hm & rest & Hr).
    edestruct (IH {| all_titles :=
                       merge_platforms platform_ids (all_titles acc) table;
                     id_to_name := ODict.update (id_to_name acc) names;
                     all_timestamps :=
                       ODict.set (name f) (st_mtime f) (all_timestamps acc) |}
                  mid Hg)
      as (new & Hg' & Hu' & Hm' & rest' & Hr').
    exists new. do 3 (split; [congruence|]).
    exists (rest ++ rest'). by rewrite Hr', Hr, <- app_assoc.
Qed.

(** X8.  The links of a title are those of the first snapshot that
    lists it: once the files read so far hold an entry for a title of
    a platform, the files read after them never remove it and never
    change its [url] or [mobileUrl]; they only append ranks. *)
Theorem links_come_from_first_listing
    platform_ids txt_files earlier later p t old :
  sorted txt_files = earlier ++ later ->
  info_of (all_titles
             (fold_left (merge_file platform_ids) earlier empty_index)) p t
  = Some old ->
  exists new,
    info_of (all_titles (merge_files platform_ids txt_files)) p t
    = Some new /\
    url new = url old /\ mobileUrl new = mobileUrl old /\
    starts_with (ranks old) (ranks new).
Proof.
  intros Hs H. unfold merge_files. rewrite Hs, fold_left_app.
  by apply fold_merge_file_keeps_links.
Qed.

Lemma in_insert_sorted f g fs :
  In g (insert_sorted f fs) <-> g = f \/ In g fs.
Proof.
  induction fs as [|h fs IH]; simpl; [intuition congruence|].
  destruct (String.ltb (name f) (name h)); simpl; [intuition congruence|].
  rewrite IH. tauto.
Qed.

Lemma in_sorted g fs : In g (sorted fs) <-> In g fs.
Proof.
  unfold sorted.
  assert (G : forall l acc,
             In g (fold_left (fun acc f => insert_sorted f acc) l acc)
             <-> In g acc \/ In g l).
  { induction l as [|f l IH]; intros acc; simpl; [tauto|].
    rewrite IH, in_insert_sorted. intuition congruence. }
  rewrite G. simpl. tauto.
Qed.

(** X9.  The timestamps of a day index name exactly the snapshot files
    that could be read: a file whose text cannot be decoded leaves no
    timestamp, and every file that parses leaves one, whatever the
    platform filter kept of it. *)
Theorem timestamps_name_the_files_read platform_ids txt_files n :
  In n (keys (all_timestamps (merge_files platform_ids txt_files)))
  <-> exists f, In f txt_files /\ name f = n /\ content f <> None.
Proof.
  unfold merge_files.
  assert (G : forall l acc,
             In n (keys (all_timestamps
                           (fold_left (merge_file platform_ids) l acc)))
             <-> In n (keys (all_timestamps acc))
                 \/ exists f, In f l /\ name f = n /\ content f <> None).
  { induction l as [|f l IH]; intros acc; simpl.
    - split; [tauto|]. intros [H|(f & [] & _)]. done.
    - rewrite IH. unfold merge_file, parse_txt_file.
      destruct (content f) as [text|] eqn:C; cbv beta iota;
        cbn [all_timestamps].
      + destruct (fold_left parse_section _ _) as [tbl nm].
        cbn [all_timestamps]. rewrite keys_set. split.
        * intros [[->|H]|(g & Hg & Hn & Hc)]; [right|tauto|right].
          -- exists f. rewrite C. by auto.
          -- exists g. by auto.
        * intros [H|(g & [->|Hg] & Hn & Hc)]; [tauto| |].
          -- left. by left.
          -- right. by exists g.
      + split.
        * intros [H|(g & Hg & Hn & Hc)]; [tauto|right].
          exists g. by auto.
        * intros [H|(g & [->|Hg] & Hn & Hc)]; [tauto|congruence|].
          right. by exists g. }
  rewrite G. simpl. split.
  - intros [[]|(f & Hf & H)]. exists f. by rewrite <- in_sorted.
  - intros (f & Hf & H). right. exists f. by rewrite in_sorted.
Qed.

End MergeExtras.

Lemma listed_platforms_are_named_witness :
  is_Some (ODict.get "p"
             (ParserService.id_to_name
                (ParserService.merge_files None
                   [Samples.file_a; Samples.file_b]))).
Proof.
  apply (listed_platforms_are_named None [Samples.file_a; Samples.file_b] "p").
  vm_compute. by left.
Defined.

Lemma links_come_from_first_listing_witness :
  exists new,
    ParserReads.info_of
      (ParserService.all_titles
         (ParserService.merge_files None [Samples.file_b; Samples.file_a]))
      "p" "t" = Some new /\
    ParserService.url new = "" /\ ParserService.mobileUrl new = "" /\
    ParserReads.starts_with [3%Z] (ParserService.ranks new).
Proof.
  apply (links_come_from_first_listing None
           [Samples.file_b; Samples.file_a] [Samples.file_a] [Samples.file_b]
           "p" "t"
           {| ParserService.ranks := [3%Z]; ParserService.url := "";
              ParserService.mobileUrl := "" |});
    by vm_compute.
Defined.

(** ** The cached read of a day *)

Section ReadExtras.
Import ParserService.

Lemma read_on_miss output today now later date platform_ids
    (cache : CacheService.t day_index) :
  CacheService._cache cache !! cache_key today date platform_ids = None ->
  read_all_titles_for_date output today now later date platform_ids cache
  = match output (get_date_folder_name today date) with
    | None => (cache, inr (DataNotFoundError "no data directory"))
    | Some [] => (cache, inr (DataNotFoundError "no data file"))
    | Some txt_files =>
        let result := merge_files platform_ids txt_files in
        match all_titles result with
        | [] => (cache, inr (DataNotFoundError "no valid data"))
        | _ => ((CacheService.set (cache_key today date platform_ids)
                   result later cache).1, inl result)
        end
    end.
Proof.
  intros Hmiss. unfold read_all_titles_for_date, CacheService.get.
  by rewrite Hmiss.
Qed.

(** X10.  A read that finds no cache entry stores its result only when
    it succeeds.  After a success, every read of the same day and
    platforms within the time to live (15 minutes for today, one hour
    for another day) returns the stored index without looking at the
    files, whatever they have become; after a failure the cache is as
    it was, so the next read looks at the files again. *)
Theorem read_caches_successes_only
    output today now1 later1 date platform_ids
    (cache : CacheService.t day_index) :
  CacheService._cache cache !! cache_key today date platform_ids = None ->
  let r1 := read_all_titles_for_date output today now1 later1 date
              platform_ids cache in
  let ttl : Q :=
    if match date with None => true | Some d => (d =? today)%Z end
    then 900%Q else 3600%Q in
  (forall e, r1.2 = inr e -> r1.1 = cache) /\
  (forall index output' now2 later2,
      r1.2 = inl index ->
      (now2 - later1 < ttl)%Q ->
      read_all_titles_for_date output' today now2 later2 date platform_ids
                               r1.1
      = (r1.1, inl index)).
Proof.
  intros Hmiss r1 ttl. subst r1. rewrite read_on_miss by done.
  destruct (output _) as [[|f fs]|]; cbn [fst snd]; try by split.
  cbv zeta.
  destruct (all_titles (merge_files platform_ids (f :: fs))) eqn:T;
    cbn [fst snd]; [by split|].
  split; [done|]. intros index output' now2 later2 [= <-] Hlt.
  unfold read_all_titles_for_date, CacheService.get, CacheService.set.
  cbn [fst snd CacheService._cache CacheService._timestamps].
  rewrite !lookup_insert_eq.
  apply Qltb_lt in Hlt. fold ttl. by rewrite Hlt.
Qed.

End ReadExtras.

Lemma read_caches_successes_only_witness :
  exists index,
    Samples.read Samples.today None = inl index /\
    let cache :=
      (ParserService.read_all_titles_for_date Samples.output Samples.today
         0 0 (Some Samples.today) None CacheService.init).1 in
    ParserService.read_all_titles_for_date (fun _ => None) Samples.today
      100 100 (Some Samples.today) None cache
    = (cache, inl index).
Proof.
  eexists. split; [by vm_compute|].
  apply (read_caches_successes_only Samples.output Samples.today 0 0
           (Some Samples.today) None CacheService.init);
    by vm_compute.
Defined.

(** ** The search tools, continued *)

Section SortFacts.
Context {A : Type} (lt : A -> A -> bool).
Hypothesis lt_asym : forall x y, lt x y = true -> lt y x = false.
Hypothesis ge_trans :
  forall x y z, lt x y = false -> lt y z = false -> lt x z = false.

Lemma insert_desc_perm x l :
  Permutation (SearchTools.insert_desc lt x l) (x :: l).
Proof using Type.
  induction l as [|y l IH]; simpl; [done|].
  destruct (lt x y); [|done].
  rewrite IH. apply perm_swap.
Qed.

Lemma sort_desc_perm l : Permutation (SearchTools.sort_desc lt l) l.
Proof using Type.
  induction l as [|x l IH]; simpl; [done|].
  rewrite insert_desc_perm. by constructor.
Qed.

Lemma insert_desc_descending x l :
  SearchOrder.descending lt l ->
  SearchOrder.descending lt (SearchTools.insert_desc lt x l).
Proof using Type*.
  unfold SearchOrder.descending.
  induction 1 as [|y l Hs IH Hy]; simpl.
  - repeat constructor.
  - destruct (lt x y) eqn:E.
    + constructor; [done|].
      rewrite insert_desc_perm.
      constructor; [by apply lt_asym | done].
    + constructor; [by constructor|].
      constructor; [done|].
      eapply List.Forall_impl; [|exact Hy].
      intros z Hz. by eapply ge_trans.
Qed.

Lemma sort_desc_descending l :
  SearchOrder.descending lt (SearchTools.sort_desc lt l).
Proof using Type*.
  induction l as [|x l IH]; simpl; [constructor|].
  by apply insert_desc_descending.
Qed.

End SortFacts.

Section SearchExtras.
Import Str SearchTools SearchOrder.
Local Open Scope string_scope.
#[local] Set Warnings "-clear-no-such-hyp".

Lemma Qltb_asym (a b : Q) :
  SearchTools.Qltb a b = true -> SearchTools.Qltb b a = false.
Proof.
  unfold SearchTools.Qltb. rewrite negb_true_iff, negb_false_iff.
  intros H. apply Qle_bool_iff.
  destruct (Qlt_le_dec b a) as [Hlt|Hle]; [|done].
  apply Qlt_le_weak in Hlt. apply Qle_bool_iff in Hlt. congruence.
Qed.

Lemma Qltb_ge_trans (a b c : Q) :
  SearchTools.Qltb a b = false -> SearchTools.Qltb b c = false ->
  SearchTools.Qltb a c = false.
Proof.
  unfold SearchTools.Qltb. rewrite !negb_false_iff, !Qle_bool_iff.
  intros H1 H2. by eapply Qle_trans.
Qed.

Lemma sort_below_asym sort_by x y :
  sort_below sort_by x y = true -> sort_below sort_by y x = false.
Proof.
  unfold sort_below.
  destruct (String.eqb sort_by "relevance"); [apply Qltb_asym|].
  destruct (String.eqb sort_by "weight"); [apply Qltb_asym|].
  apply string_ltb_asym.
Qed.

Lemma sort_below_ge_trans sort_by x y z :
  sort_below sort_by x y = false -> sort_below sort_by y z = false ->
  sort_below sort_by x z = false.
Proof.
  unfold sort_below.
  destruct (String.eqb sort_by "relevance"); [apply Qltb_ge_trans|].
  destruct (String.eqb sort_by "weight"); [apply Qltb_ge_trans|].
  apply string_ltb_ge_trans.
Qed.

Lemma slice_to_prefix {A} limit (l : list A) :
  exists dropped, l = (slice_to limit l ++ dropped)%list.
Proof.
  unfold slice_to. destruct (limit <? 0)%Z.
  - exists (skipn (length l - Z.to_nat (- limit)) l).
    by rewrite firstn_skipn.
  - exists (skipn (Z.to_nat limit) l). by rewrite firstn_skipn.
Qed.

Lemma slice_to_len {A} limit (l : list A) :
  (0 <= limit)%Z ->
  Analytics.len (slice_to limit l) = Z.min limit (Analytics.len l).
Proof.
  intros H. unfold slice_to, Analytics.len.
  destruct (limit <? 0)%Z eqn:E; [apply Z.ltb_lt in E; lia|].
  rewrite length_firstn. lia.
Qed.

Section Unified.
Variable validate_keyword : string -> string + exn.
Variable validate_limit : Z -> Z + exn.
Variable validate_date_range : string * string -> Z * Z + exn.
Variable read : Z -> option (list string) -> ParserService.day_index + exn.
Variable output_dir : option (list (string * bool)).
Variable today : Z.

(** X11.  When [search_news_unified] succeeds with matches, the list it
    returns is the beginning of a stable descending sort of all the
    matches of the searched days by the key that [sort_by] selects: the
    list is in descending order of the key, no match that was cut off is
    above a returned one, [total_found] counts all the matches, and with
    a non-negative limit [returned_count] is the smaller of the limit
    and [total_found]. *)
Theorem unified_search_returns_the_best
    query search_mode date_range platforms limit sort_by threshold
    include_url summary results note :
  search_news_unified validate_keyword validate_limit validate_date_range
    read output_dir today query search_mode date_range platforms limit
    sort_by threshold include_url
  = Success summary results note ->
  exists query' start_date end_date all_matches dropped,
    validate_keyword query = inl query' /\
    collect_matches read query' search_mode platforms (clamp01 threshold)
      include_url (Analytics.days_between start_date end_date)
    = inl all_matches /\
    Permutation all_matches (results ++ dropped) /\
    descending (sort_below sort_by) (results ++ dropped) /\
    total_found summary = Analytics.len all_matches /\
    returned_count summary = Analytics.len results /\
    ((0 <= requested_limit summary)%Z ->
     returned_count summary
     = Z.min (requested_limit summary) (total_found summary)).
Proof using Type.
  unfold search_news_unified.
  destruct (validate_keyword query) as [query'|e]; [|done].
  destruct (negb (existsb _ _)); [done|].
  destruct (negb (existsb _ _)); [done|].
  destruct (validate_limit limit) as [limit'|e]; [|done].
  match goal with
  | |- match ?r with _ => _ end = _ -> _ =>
      destruct r as [[[start_date end_date]|e]|]; [|done|done]
  end.
  destruct (collect_matches _ _ _ _ _ _ _) as [all_matches|e] eqn:C;
    [|done].
  destruct all_matches as [|x rest] eqn:M; [done|].
  cbv beta iota. rewrite <- M in C |- *. clear M x rest.
  set (matches := all_matches). intros [= <- <- <-].
  assert (Hsorted :
            (if String.eqb sort_by "relevance"
             then sort_desc (fun x y => SearchTools.Qltb (similarity_score x)
                                          (similarity_score y)) matches
             else if String.eqb sort_by "weight"
             then sort_desc (fun x y => SearchTools.Qltb (item_weight x)
                                          (item_weight y)) matches
             else sort_desc (fun x y => String.ltb (date x) (date y)) matches)
            = sort_desc (sort_below sort_by) matches).
  { unfold sort_below.
    destruct (String.eqb sort_by "relevance"); [done|].
    by destruct (String.eqb sort_by "weight"). }
  rewrite Hsorted. cbn [total_found returned_count requested_limit].
  destruct (slice_to_prefix limit' (sort_desc (sort_below sort_by) matches))
    as [dropped Hd].
  exists query', start_date, end_date, matches, dropped.
  split; [done|]. split; [done|]. rewrite <- Hd.
  split; [symmetry; apply sort_desc_perm|].
  split; [apply sort_desc_descending;
          [apply sort_below_asym | apply sort_below_ge_trans]|].
  split; [done|]. split; [done|].
  intros Hl. rewrite slice_to_len by done.
  unfold Analytics.len. by rewrite (Permutation_length (sort_desc_perm _ _)).
Qed.

End Unified.

Lemma startswith_lower p s :
  startswith p s = true -> startswith (lower p) (lower s) = true.
Proof.
  revert s. induction p as [|a p IH]; intros [|b s]; simpl; try done.
  rewrite !andb_true_iff. intros [Hab Hps].
  apply Ascii.eqb_eq in Hab. subst. rewrite Ascii.eqb_refl. auto.
Qed.

Lemma contains_lower sub s :
  contains sub s = true -> contains (lower sub) (lower s) = true.
Proof.
  induction s as [|c s IH].
  - simpl. rewrite !orb_false_r. apply (startswith_lower sub "").
  - cbn [contains lower]. fold (lower (String c s)).
    rewrite !orb_true_iff. intros [H|H].
    + left. by apply (startswith_lower sub (String c s)).
    + right. by apply IH.
Qed.

Lemma scan_titles_sublist accept1 accept2 all_titles id_to_name d include_url :
  (forall t score, accept1 t = Some score -> accept2 t = Some score) ->
  sublist (scan_titles accept1 all_titles id_to_name d include_url)
          (scan_titles accept2 all_titles id_to_name d include_url).
Proof.
  intros H. unfold scan_titles.
  induction all_titles as [|p tbl IH]; simpl; [done|].
  apply sublist_app; [|done]. clear IH.
  destruct p as [pid titles]. cbn [fst snd].
  induction titles as [|t ts IH]; simpl; [done|].
  destruct (accept1 t.1) as [score|] eqn:E.
  - rewrite (H _ _ E). simpl. by apply sublist_skip.
  - destruct (accept2 t.1); simpl; [by apply sublist_cons | done].
Qed.

Lemma filter_sublist {X} (f g : X -> bool) (l : list X) :
  (forall x, f x = true -> g x = true) ->
  sublist (List.filter f l) (List.filter g l).
Proof.
  intros H. induction l as [|x l IH]; simpl; [done|].
  destruct (f x) eqn:E.
  - rewrite (H _ E). by constructor.
  - destruct (g x); [by constructor | done].
Qed.

Lemma fuzzy_match_of_contains query text threshold :
  contains (lower query) (lower text) = true ->
  _fuzzy_match query text threshold = (true, 1%Q).
Proof. unfold _fuzzy_match. by intros ->. Qed.

(** X12.  The three search modes are nested.  For a query and titles
    that are ASCII texts, every item that the entity mode returns for a
    day is returned, unchanged and in the same order, by the keyword
    mode; and, for any texts, every title that the keyword mode returns
    is returned by the fuzzy mode, whatever the threshold. *)
Theorem search_modes_are_nested
    query all_titles id_to_name d threshold include_url :
  (isascii query = true ->
   List.Forall (fun t => isascii t = true) (all_title_keys all_titles) ->
   sublist (_search_by_entity_mode query all_titles id_to_name d include_url)
           (_search_by_keyword_mode query all_titles id_to_name d
              include_url))
  /\
  sublist (map title (_search_by_keyword_mode query all_titles id_to_name d
                        include_url))
          (map title (_search_by_fuzzy_mode query all_titles id_to_name d
                        threshold include_url)).
Proof.
  split.
  - intros _ _. apply scan_titles_sublist. intros t score.
    unfold entity_accept, keyword_accept.
    destruct (contains query t) eqn:E; [|done].
    by rewrite (contains_lower _ _ E).
  - unfold _search_by_keyword_mode, _search_by_fuzzy_mode.
    rewrite !scan_titles_titles. apply filter_sublist.
    intros t. unfold keyword_accept, fuzzy_accept.
    destruct (contains (lower query) (lower t)) eqn:E; [|done].
    by rewrite (fuzzy_match_of_contains _ _ _ E).
Qed.

Lemma frac_in_unit (n m : Z) :
  (0 <= n <= m)%Z -> (0 < m)%Z ->
  (0 <= inject_Z n / inject_Z m)%Q /\ (inject_Z n / inject_Z m <= 1)%Q.
Proof.
  intros [H0 Hn] Hm.
  assert (0 < inject_Z m)%Q as Hp by (by rewrite (Zlt_Qlt 0 m) in Hm).
  split.
  - apply Qle_shift_div_l; [done|]. rewrite Qmult_0_l.
    by rewrite (Zle_Qle 0 n) in H0.
  - apply Qle_shift_div_r; [done|]. rewrite Qmult_1_l.
    by rewrite <- Zle_Qle.
Qed.

Lemma similarity_in_unit text1 text2 :
  (0 <= _calculate_similarity text1 text2)%Q /\
  (_calculate_similarity text1 text2 <= 1)%Q.
Proof.
  unfold _calculate_similarity, Difflib.ratio.
  set (a := list_ascii_of_string (lower text1)).
  set (b := list_ascii_of_string (lower text2)).
  destruct (length a + length b)%nat eqn:E; [by split|].
  rewrite <- E.
  pose proof (matches_bounded Ascii.eqb Ascii.eqb_eq (S (length a)) a b)
    as [Ha Hb].
  apply frac_in_unit; lia.
Qed.

Lemma keyword_overlap_in_unit keywords1 keywords2 :
  (0 <= _calculate_keyword_overlap keywords1 keywords2)%Q /\
  (_calculate_keyword_overlap keywords1 keywords2 <= 1)%Q.
Proof.
  unfold _calculate_keyword_overlap.
  destruct keywords1 as [|k1 l1]; [by split|].
  destruct keywords2 as [|k2 l2]; [by split|].
  set (set1 := list_to_set (k1 :: l1) : gset string).
  set (set2 := list_to_set (k2 :: l2) : gset string).
  destruct (size (set1 ∪ set2)) eqn:E; [by split|]. rewrite <- E.
  assert (size (set1 ∩ set2) <= size (set1 ∪ set2))%nat.
  { apply subseteq_size. set_solver. }
  apply frac_in_unit; lia.
Qed.

Lemma fuzzy_score_in_unit query text threshold :
  (0 <= (_fuzzy_match query text threshold).2)%Q /\
  ((_fuzzy_match query text threshold).2 <= 1)%Q.
Proof.
  unfold _fuzzy_match.
  destruct (contains _ _); [by split|].
  destruct (SearchTools.Qgeb _ threshold); [apply similarity_in_unit|].
  set (qw := list_to_set (_extract_keywords query) : gset string).
  set (tw := list_to_set (_extract_keywords text) : gset string).
  destruct (bool_decide (qw = ∅)) eqn:Eq; [by split|].
  destruct (bool_decide (tw = ∅)); [by split|]. cbn [orb].
  destruct (SearchTools.Qgeb _ (5 # 10)); [|apply similarity_in_unit].
  cbn [snd]. unfold size_Q.
  apply bool_decide_eq_false in Eq.
  assert (size qw <> 0)%nat by (by intros ?%size_empty_inv%leibniz_equiv).
  assert (size (qw ∩ tw) <= size qw)%nat.
  { apply subseteq_size. set_solver. }
  apply frac_in_unit; lia.
Qed.

(** X13.  Every score of the search tools is a fraction: the text
    similarity, the keyword overlap, the score that [_fuzzy_match]
    returns and the combined score of the history search all lie
    between 0 and 1. *)
Theorem search_scores_are_fractions
    text1 text2 keywords1 keywords2 threshold :
  let unit_interval (x : Q) := (0 <= x)%Q /\ (x <= 1)%Q in
  unit_interval (_calculate_similarity text1 text2) /\
  unit_interval (_calculate_keyword_overlap keywords1 keywords2) /\
  unit_interval (_fuzzy_match text1 text2 threshold).2 /\
  unit_interval (history_scores text1 text2).1.1.
Proof.
  cbv zeta.
  split; [apply similarity_in_unit|].
  split; [apply keyword_overlap_in_unit|].
  split; [apply fuzzy_score_in_unit|].
  unfold history_scores. cbn [fst].
  pose proof (similarity_in_unit text1 text2) as [? ?].
  pose proof (keyword_overlap_in_unit (_extract_keywords text1)
                (_extract_keywords text2)) as [? ?].
  split; lra.
Qed.

Lemma Qgeb_true (x y : Q) : SearchTools.Qgeb x y = true <-> (y <= x)%Q.
Proof. apply Qle_bool_iff. Qed.

Lemma fuzzy_match_lower_threshold query text lower_t higher_t :
  (lower_t <= higher_t)%Q ->
  (_fuzzy_match query text higher_t).1 = true ->
  (_fuzzy_match query text lower_t).1 = true.
Proof.
  intros Hle. unfold _fuzzy_match.
  destruct (contains _ _); [done|].
  destruct (SearchTools.Qgeb _ higher_t) eqn:Eh.
  - apply Qgeb_true in Eh.
    assert (SearchTools.Qgeb (_calculate_similarity query text) lower_t
            = true) as ->; [|done].
    apply Qgeb_true. by eapply Qle_trans.
  - destruct (SearchTools.Qgeb _ lower_t); [done|].
    destruct (_ || _); [done|].
    by destruct (SearchTools.Qgeb _ (5 # 10)).
Qed.

Lemma fuzzy_match_at_zero query text threshold :
  (threshold <= 0)%Q -> (_fuzzy_match query text threshold).1 = true.
Proof.
  intros Hle. unfold _fuzzy_match.
  destruct (contains _ _); [done|].
  assert (SearchTools.Qgeb (_calculate_similarity query text) threshold
          = true) as ->; [|done].
  apply Qgeb_true. eapply Qle_trans; [exact Hle|].
  apply similarity_in_unit.
Qed.

Lemma filter_all {X} (f : X -> bool) (l : list X) :
  (forall x, f x = true) -> List.filter f l = l.
Proof.
  intros H. induction l as [|x l IH]; simpl; [done|].
  by rewrite H, IH.
Qed.

(** X14.  Lowering the threshold of the fuzzy mode never loses a
    title: the titles returned at a threshold are returned, in the same
    order, at every lower threshold; and at a threshold of 0 or below
    the fuzzy mode returns every title of the day. *)
Theorem fuzzy_threshold_only_narrows
    query all_titles id_to_name d include_url lower_t higher_t :
  (lower_t <= higher_t)%Q ->
  sublist (map title (_search_by_fuzzy_mode query all_titles id_to_name d
                        higher_t include_url))
          (map title (_search_by_fuzzy_mode query all_titles id_to_name d
                        lower_t include_url)) /\
  ((lower_t <= 0)%Q ->
   map title (_search_by_fuzzy_mode query all_titles id_to_name d
                lower_t include_url)
   = all_title_keys all_titles).
Proof.
  intros Hle. unfold _search_by_fuzzy_mode.
  rewrite !scan_titles_titles. split.
  - apply filter_sublist. intros t. unfold fuzzy_accept.
    pose proof (fuzzy_match_lower_threshold query t _ _ Hle) as H.
    destruct (_fuzzy_match query t higher_t) as [[|] s1]; [|done].
    destruct (_fuzzy_match query t lower_t) as [[|] s2]; [done|].
    by specialize (H eq_refl).
  - intros H0. apply filter_all. intros t. unfold fuzzy_accept.
    pose proof (fuzzy_match_at_zero query t _ H0) as H.
    by destruct (_fuzzy_match query t lower_t) as [[|] s2].
Qed.

Section HistoryExtras.
Variable validate_keyword : string -> string + exn.
Variable validate_limit : Z -> Z + exn.
Variable today : Z.

(** X15.  With a preset other than "custom" the history search never
    looks at today's news, nor at anything older than thirty days: two
    corpora that agree on the thirty days before today give the same
    answer, whatever they hold for today. *)
Theorem history_presets_never_read_today
    (read1 read2 : Z -> ParserService.day_index + exn)
    reference_text time_preset start_date end_date threshold limit
    include_url :
  time_preset <> "custom" ->
  (forall d, (today - 30 <= d <= today - 1)%Z -> read1 d = read2 d) ->
  search_related_news_history validate_keyword validate_limit read1 today
    reference_text time_preset start_date end_date threshold limit
    include_url
  = search_related_news_history validate_keyword validate_limit read2 today
      reference_text time_preset start_date end_date threshold limit
      include_url.
Proof using Type.
  intros Hp Hread. unfold search_related_news_history.
  destruct (validate_keyword reference_text) as [text|e]; [|done].
  destruct (validate_limit limit) as [limit'|e]; [|done].
  assert (forall s e,
             preset_range today time_preset start_date end_date = inl (s, e) ->
             (today - 30 <= s)%Z /\ (e <= today - 1)%Z) as Hrange.
  { unfold preset_range. intros s e.
    destruct (String.eqb time_preset "yesterday");
      [intros [= <- <-]; lia|].
    destruct (String.eqb time_preset "last_week");
      [intros [= <- <-]; lia|].
    destruct (String.eqb time_preset "last_month");
      [intros [= <- <-]; lia|].
    destruct (String.eqb time_preset "custom") eqn:E; [|done].
    by apply String.eqb_eq in E. }
  destruct (preset_range today time_preset start_date end_date)
    as [[s e]|err]; [|done].
  destruct (Hrange s e eq_refl) as [Hs He].
  assert (collect_related read1 text (clamp01 threshold) include_url
            (Analytics.days_between s e)
          = collect_related read2 text (clamp01 threshold) include_url
              (Analytics.days_between s e)) as ->; [|done].
  unfold collect_related.
  assert (forall d, In d (Analytics.days_between s e) -> read1 d = read2 d)
    as Hdays.
  { intros d Hd. apply in_days_between in Hd. apply Hread. lia. }
  induction (Analytics.days_between s e) as [|d days IH]; simpl; [done|].
  rewrite (Hdays d) by (by left). rewrite IH; [done|].
  intros d' Hd'. apply Hdays. by right.
Qed.

End HistoryExtras.
End SearchExtras.

Lemma unified_search_returns_the_best_witness :
  exists summary results note,
    Samples.search_news_unified "ai" "keyword"
      (Some ("2025-10-05", "2025-10-11")) None 5 "relevance" (6 # 10) false
    = SearchTools.Success summary results note /\
    SearchTools.total_found summary = 11%Z /\
    SearchTools.returned_count summary
    = Z.min (SearchTools.requested_limit summary)
            (SearchTools.total_found summary).
Proof.
  eexists _, _, _. split; [by vm_compute|]. split; [done|].
  edestruct (unified_search_returns_the_best
               Samples.validate_keyword Samples.validate_limit
               Samples.validate_date_range Samples.read Samples.output_dir
               Samples.today "ai" "keyword"
               (Some ("2025-10-05", "2025-10-11")) None 5 "relevance"
               (6 # 10) false)
    as (q & s & e & all_matches & dropped & _ & _ & _ & _ & _ & _ & Hmin).
  { by vm_compute. }
  apply Hmin. by vm_compute.
Defined.

Lemma fuzzy_threshold_only_narrows_witness :
  map SearchTools.title
    (SearchTools._search_by_fuzzy_mode "apple banana" Samples.fruit_titles []
       Samples.today 0 false)
  = SearchTools.all_title_keys Samples.fruit_titles.
Proof.
  apply (fuzzy_threshold_only_narrows "apple banana" Samples.fruit_titles []
           Samples.today false 0 1); by vm_compute.
Defined.

Lemma history_presets_never_read_today_witness :
  Samples.search_related_news_history "ai story" "last_week" None None
    (1 # 10) 50 false
  = SearchTools.search_related_news_history Samples.validate_keyword
      Samples.validate_limit
      (fun d => if (d =? Samples.today)%Z
                then inr (DataNotFoundError "gone")
                else Samples.read d None)
      Samples.today "ai story" "last_week" None None (1 # 10) 50 false.
Proof.
  apply (history_presets_never_read_today Samples.validate_keyword
           Samples.validate_limit Samples.today).
  - done.
  - intros d Hd. destruct (d =? Samples.today)%Z eqn:E; [|done].
    apply Z.eqb_eq in E. lia.
Defined.

(** ** The analytics, continued *)

Section SeriesFacts.
Import Analytics.
Local Open Scope nat_scope.

Lemma days_between_cons start_date end_date :
  (start_date <= end_date)%Z ->
  days_between start_date end_date
  = start_date :: days_between (start_date + 1) end_date.
Proof.
  intros H. unfold days_between.
  replace (Z.to_nat (end_date - start_date + 1))
    with (S (Z.to_nat (end_date - (start_date + 1) + 1))) by lia.
  cbn [seq map]. f_equal; [lia|].
  rewrite <- seq_shift, map_map. apply map_ext. intros i. lia.
Qed.







End SeriesFacts.

Section LifecycleExtras.
Import Str Analytics.
Variable validate_keyword : string -> string + exn.
Variable validate_date_range : string * string -> Z * Z + exn.
Variable read : Z -> ParserService.day_index + exn.
Variable today : Z.







End LifecycleExtras.

Section TrendExtras.
Import Str Analytics.
Variable validate_keyword : string -> string + exn.
Variable validate_date_range : string * string -> Z * Z + exn.
Variable read : Z -> ParserService.day_index + exn.
Variable today : Z.











End TrendExtras.






(** The query "apple" on a day whose only title is an ASCII text. *)
Lemma search_modes_are_nested_witness :
  SearchOrder.isascii "apple" = true /\
  sublist
    (SearchTools._search_by_entity_mode "apple" Samples.fruit_titles []
       Samples.today false)
    (SearchTools._search_by_keyword_mode "apple" Samples.fruit_titles []
       Samples.today false) /\
  length (SearchTools._search_by_entity_mode "apple" Samples.fruit_titles []
            Samples.today false) = 1%nat.
Proof.
  split; [reflexivity|]. split; [|reflexivity].
  apply (proj1 (search_modes_are_nested "apple" Samples.fruit_titles []
                  Samples.today 0 false)).
  - reflexivity.
  - by repeat constructor.
Defined.
